(** * KexDll run-time routines (kexrtl.c): word width, native NTDLL
      location, export resolution and protected remote writes.

    The routines of kexrtl.c are embedded shallowly.  Everything the
    routines obtain from outside the file (system services, the loader,
    header macros) is gathered in explicit interfaces, the routines are
    written once over those interfaces, and a small reference kernel
    instantiates the interfaces so that every routine can be run.

    The [PROTECTED_FUNCTION] wrappers of the routines are header macros
    outside kexrtl.c and are not modelled: a routine that touches memory
    it cannot access ends with [AccessViolation], and what the wrapper
    turns that into is left open. *)

From stdpp Require Import base gmap list strings.
From Stdlib Require Import ZArith Lia Bool.

Open Scope Z_scope.

(* ===================================================================== *)
(** * Part I.  Embedding                                                  *)
(* ===================================================================== *)

(** ** Primitive types of the NT headers *)

(** Handles, status codes and pointers are machine integers. *)
Definition HANDLE := Z.
Definition NTSTATUS := Z.
Definition PVOID := Z.

(** [NT_SUCCESS(Status)]: an NTSTATUS is a signed 32-bit LONG and the
    macro tests [Status >= 0]. *)
Definition NT_SUCCESS (Status : NTSTATUS) : bool := 0 <=? Status.

(** Status codes of ntstatus.h, as signed LONG values. *)
Definition to_LONG (x : Z) : Z :=
  if x <? 2 ^ 31 then x else x - 2 ^ 32.

Definition STATUS_SUCCESS : NTSTATUS := 0.
Definition STATUS_BUFFER_OVERFLOW : NTSTATUS := to_LONG 0x80000005.
Definition STATUS_ACCESS_VIOLATION : NTSTATUS := to_LONG 0xC0000005.
Definition STATUS_INVALID_HANDLE : NTSTATUS := to_LONG 0xC0000008.
Definition STATUS_INVALID_PARAMETER : NTSTATUS := to_LONG 0xC000000D.
Definition STATUS_INVALID_IMAGE_FORMAT : NTSTATUS := to_LONG 0xC000007B.
Definition STATUS_DLL_NOT_FOUND : NTSTATUS := to_LONG 0xC0000135.
Definition STATUS_ENTRYPOINT_NOT_FOUND : NTSTATUS := to_LONG 0xC0000139.
Definition STATUS_INVALID_ADDRESS : NTSTATUS := to_LONG 0xC0000141.

(** Page protections and region types of winnt.h. *)
Definition PAGE_NOACCESS : Z := 0x01.
Definition PAGE_READONLY : Z := 0x02.
Definition PAGE_READWRITE : Z := 0x04.
Definition PAGE_EXECUTE_READ : Z := 0x20.
Definition MEM_IMAGE : Z := 0x1000000.
Definition MEM_MAPPED : Z := 0x40000.
Definition MEM_PRIVATE : Z := 0x20000.

(** Lowest address a user-mode allocation can have. *)
Definition MM_LOWEST_USER_ADDRESS : Z := 0x10000.

(** [NtCurrentProcess()] is the pseudo handle -1. *)
Definition NtCurrentProcess : HANDLE := -1.

Definition NULL : PVOID := 0.

(** A counted UTF-16 string: the list of its WCHARs.  [Length] of the
    UNICODE_STRING structure is twice the length of the list. *)
Definition WCHAR := Z.
Definition UNICODE_STRING := list WCHAR.

(** Modelled from the spec: [KexRtlUnicodeStringCch] is a header macro
    that is not part of kexrtl.c; it is the number of characters of a
    counted string, [Length / sizeof(WCHAR)]. *)
Definition KexRtlUnicodeStringCch (s : UNICODE_STRING) : Z :=
  Z.of_nat (length s).

(** A wide string literal, [L"..."]. *)
Definition wide (s : string) : UNICODE_STRING :=
  map (fun c => Z.of_nat (Ascii.nat_of_ascii c)) (String.list_ascii_of_string s).

(** L"ntdll.dll" *)
Definition NtdllBaseName : UNICODE_STRING := wide "ntdll.dll".

(** L"Windows\\system32\\ntdll.dll" *)
Definition NtdllPathFragment : UNICODE_STRING :=
  wide "Windows\system32\ntdll.dll".

(** Information classes used by the routines. *)
Inductive MEMORY_INFORMATION_CLASS :=
| MemoryBasicInformation
| MemoryMappedFilenameInformation.

Inductive PROCESSINFOCLASS :=
| ProcessWow64Information.

(** MEMORY_BASIC_INFORMATION of winnt.h. *)
Record MEMORY_BASIC_INFORMATION := {
  BaseAddress : PVOID;
  AllocationBase : PVOID;
  AllocationProtect : Z;
  RegionSize : Z;
  State : Z;
  Protect : Z;
  Type_ : Z
}.

(** What NtQueryVirtualMemory stores in the caller's buffer depends on
    the information class. *)
Definition MemoryInformation (c : MEMORY_INFORMATION_CLASS) : Type :=
  match c with
  | MemoryBasicInformation => MEMORY_BASIC_INFORMATION
  | MemoryMappedFilenameInformation => UNICODE_STRING
  end.

(** ** Word widths *)

Inductive Bitness := Bits32 | Bits64.

Definition bitness_value (b : Bitness) : Z :=
  match b with Bits32 => 32 | Bits64 => 64 end.

(** The word widths of the calling process and of the operating system
    are parameters of the host. *)
Record Host := {
  CurrentProcess : Bitness;
  OperatingSystem : Bitness
}.

(** Modelled from the spec: [KexRtlCurrentProcessBitness] is a header
    macro that is not part of kexrtl.c; it never fails and yields the
    width of the caller, 32 or 64. *)
Definition KexRtlCurrentProcessBitness (host : Host) : Z :=
  bitness_value (CurrentProcess host).

(** Modelled from the spec: [KexRtlOperatingSystemBitness] is a header
    macro that is not part of kexrtl.c; it never fails and yields the
    width of the host system, 32 or 64. *)
Definition KexRtlOperatingSystemBitness (host : Host) : Z :=
  bitness_value (OperatingSystem host).

(** A ULONG_PTR has the width of the build; arithmetic on it wraps. *)
Definition ULONG_PTR (host : Host) (x : Z) : Z :=
  x mod 2 ^ KexRtlCurrentProcessBitness host.

(** ** Counted strings *)

Section Strings.

(** [RtlUpcaseUnicodeChar] of the run-time library: the upper-casing that
    case-insensitive comparisons apply to every character. *)
Variable RtlUpcaseUnicodeChar : WCHAR -> WCHAR.

(** Character-wise equality after applying [f] to both sides. *)
Fixpoint wstr_eqb (f : WCHAR -> WCHAR) (a b : list WCHAR) : bool :=
  match a, b with
  | [], [] => true
  | x :: a', y :: b' => (f x =? f y) && wstr_eqb f a' b'
  | _, _ => false
  end.

(** [RtlEqualUnicodeString(String1, String2, CaseInSensitive)]: equal
    lengths and equal characters, upper-cased first when asked. *)
Definition RtlEqualUnicodeString (String1 String2 : UNICODE_STRING)
  (CaseInSensitive : bool) : bool :=
  wstr_eqb (if CaseInSensitive then RtlUpcaseUnicodeChar else fun c => c)
           String1 String2.

(** [KexRtlUnicodeStringEndsWith]: [EndOfString] starts
    [Cch(String) - Cch(EndsWith)] characters into [String] and has the
    length of [EndsWith]; a start before the buffer means [EndsWith] is
    the longer string. *)
Definition KexRtlUnicodeStringEndsWith (String EndsWith : UNICODE_STRING)
  (CaseInsensitive : bool) : bool :=
  let EndOfString_Buffer :=
    KexRtlUnicodeStringCch String - KexRtlUnicodeStringCch EndsWith in
  let EndOfString :=
    firstn (length EndsWith) (skipn (Z.to_nat EndOfString_Buffer) String) in
  if EndOfString_Buffer <? 0 then
    false
  else
    RtlEqualUnicodeString EndOfString EndsWith CaseInsensitive.

(** [path] ends with [name] when case is ignored. *)
Definition suffix_ci (path name : UNICODE_STRING) : Prop :=
  exists front back,
    path = front ++ back /\
    map RtlUpcaseUnicodeChar back = map RtlUpcaseUnicodeChar name.

End Strings.

(** ** The system-call surface *)

(** The services the routines call, as transitions of an abstract kernel
    state [St].  Output parameters are returned next to the status. *)
Record NtApi (St : Type) := {
  (** [LdrGetDllHandleByName(BaseName, NULL, &Handle)] *)
  LdrGetDllHandleByName :
    UNICODE_STRING -> St -> (NTSTATUS * PVOID) * St;
  (** [NtQueryVirtualMemory(Process, Address, Class, Buffer, Length, NULL)] *)
  NtQueryVirtualMemory :
    HANDLE -> PVOID -> forall c : MEMORY_INFORMATION_CLASS, Z ->
    St -> (NTSTATUS * MemoryInformation c) * St;
  (** [NtQueryInformationProcess(Process, Class, Buffer, Length, NULL)],
      for a pointer-sized buffer *)
  NtQueryInformationProcess :
    HANDLE -> PROCESSINFOCLASS -> Z -> St -> (NTSTATUS * Z) * St;
  (** [NtProtectVirtualMemory(Process, &Base, &Size, NewProtect, &Old)]:
      the updated base, the updated size and the old protection are
      returned in this order *)
  NtProtectVirtualMemory :
    HANDLE -> PVOID -> Z -> Z -> St -> (NTSTATUS * (PVOID * Z * Z)) * St;
  (** [NtWriteVirtualMemory(Process, Base, Buffer, Cb, NULL)] *)
  NtWriteVirtualMemory :
    HANDLE -> PVOID -> PVOID -> Z -> St -> NTSTATUS * St
}.

Arguments LdrGetDllHandleByName {St} _ _ _.
Arguments NtQueryVirtualMemory {St} _ _ _ _ _ _.
Arguments NtQueryInformationProcess {St} _ _ _ _ _.
Arguments NtProtectVirtualMemory {St} _ _ _ _ _ _.
Arguments NtWriteVirtualMemory {St} _ _ _ _ _ _.

(** Every call that reaches the kernel is recorded with its arguments;
    the world keeps it next to the status the kernel returned. *)
Inductive Syscall :=
| SysLdrGetDllHandleByName (Name : UNICODE_STRING)
| SysQueryVirtualMemory (Process : HANDLE) (Address : PVOID)
    (Class : MEMORY_INFORMATION_CLASS) (Length : Z)
| SysQueryInformationProcess (Process : HANDLE) (Class : PROCESSINFOCLASS)
    (Length : Z)
| SysProtectVirtualMemory (Process : HANDLE) (Base : PVOID) (Size : Z)
    (NewProtect : Z)
| SysWriteVirtualMemory (Process : HANDLE) (Base : PVOID) (Buffer : PVOID)
    (Cb : Z).

(** The world a routine runs in: the kernel state and the calls made so
    far, oldest first. *)
Record World (St : Type) := mkWorld {
  kernel : St;
  calls : list (Syscall * NTSTATUS)
}.

Arguments mkWorld {St} _ _.
Arguments kernel {St} _.
Arguments calls {St} _.

(** ** A state monad over worlds *)

Definition M (St A : Type) : Type := World St -> A * World St.

Definition ret {St A} (a : A) : M St A := fun w => (a, w).

Definition bind {St A B} (c : M St A) (k : A -> M St B) : M St B :=
  fun w => let (a, w') := c w in k a w'.

Declare Scope osm_scope.
Delimit Scope osm_scope with osm.

Notation "'let*' x := c 'in' k" := (bind c (fun x => k))
  (at level 10, x name, c at level 99, k at level 200,
   format "'[v' 'let*'  x  :=  c  'in' '/' k ']'") : osm_scope.
Notation "'let*' ' p := c 'in' k" := (bind c (fun x => let 'p := x in k))
  (at level 10, p pattern, c at level 99, k at level 200,
   format "'[v' 'let*'  ' p  :=  c  'in' '/' k ']'") : osm_scope.

(** Running a kernel transition inside a world, recording the call and
    the status found in its result. *)
Definition syscall {St A} (e : Syscall) (status : A -> NTSTATUS)
  (f : St -> A * St) : M St A :=
  fun w =>
    let (a, s') := f (kernel w) in
    (a, mkWorld s' (calls w ++ [(e, status a)])).

Section Routines.

Context {St : Type}.
Variable api : NtApi St.
Variable host : Host.
Variable RtlUpcaseUnicodeChar : WCHAR -> WCHAR.

Local Open Scope osm_scope.

Definition sys_LdrGetDllHandleByName (Name : UNICODE_STRING) :
  M St (NTSTATUS * PVOID) :=
  syscall (SysLdrGetDllHandleByName Name) fst
          (LdrGetDllHandleByName api Name).

Definition sys_NtQueryVirtualMemory (Process : HANDLE) (Address : PVOID)
  (c : MEMORY_INFORMATION_CLASS) (Length : Z) :
  M St (NTSTATUS * MemoryInformation c) :=
  syscall (SysQueryVirtualMemory Process Address c Length) fst
          (NtQueryVirtualMemory api Process Address c Length).

Definition sys_NtQueryInformationProcess (Process : HANDLE)
  (c : PROCESSINFOCLASS) (Length : Z) : M St (NTSTATUS * Z) :=
  syscall (SysQueryInformationProcess Process c Length) fst
          (NtQueryInformationProcess api Process c Length).

Definition sys_NtProtectVirtualMemory (Process : HANDLE) (Base : PVOID)
  (Size NewProtect : Z) : M St (NTSTATUS * (PVOID * Z * Z)) :=
  syscall (SysProtectVirtualMemory Process Base Size NewProtect) fst
          (NtProtectVirtualMemory api Process Base Size NewProtect).

Definition sys_NtWriteVirtualMemory (Process : HANDLE) (Base Buffer : PVOID)
  (Cb : Z) : M St NTSTATUS :=
  syscall (SysWriteVirtualMemory Process Base Buffer Cb) (fun Status => Status)
          (NtWriteVirtualMemory api Process Base Buffer Cb).

(** [sizeof(ULONG_PTR)] *)
Definition sizeof_ULONG_PTR : Z := KexRtlCurrentProcessBitness host / 8.

(** ** KexRtlRemoteProcessBitness *)

Definition KexRtlRemoteProcessBitness (ProcessHandle : HANDLE) : M St Z :=
  if KexRtlOperatingSystemBitness host =? 32 then
    ret 32
  else
    let* '(Status, Peb32) :=
      sys_NtQueryInformationProcess ProcessHandle ProcessWow64Information
                                    sizeof_ULONG_PTR in
    if NT_SUCCESS Status && negb (Peb32 =? 0) then ret 32 else ret 64.

(** ** KexRtlWriteProcessMemory *)

Definition KexRtlWriteProcessMemory (ProcessHandle : HANDLE)
  (Destination : Z) (Source : PVOID) (Cb : Z) : M St NTSTATUS :=
  let DestinationPageAddress := Destination in
  let DestinationPageSize := Cb in
  let* '(Status, (DestinationPageAddress, DestinationPageSize, OldProtect)) :=
    sys_NtProtectVirtualMemory ProcessHandle DestinationPageAddress
                               DestinationPageSize PAGE_READWRITE in
  if negb (NT_SUCCESS Status) then
    ret Status
  else
    let* Status :=
      sys_NtWriteVirtualMemory ProcessHandle Destination Source Cb in
    let* _ :=
      sys_NtProtectVirtualMemory ProcessHandle DestinationPageAddress
                                 DestinationPageSize OldProtect in
    ret Status.

(** ** KexRtlGetNativeSystemDllBase *)

(** [sizeof(MEMORY_BASIC_INFORMATION)] of the build. *)
Definition sizeof_MEMORY_BASIC_INFORMATION : Z :=
  match CurrentProcess host with Bits32 => 28 | Bits64 => 48 end.

Definition MappedFileNameLength : Z := 512.

(** How one pass through the body of the [for] loop ends: with
    [continue] (or by reaching the end of the body), or with [return].
    Both carry the value [NtdllBaseAddress] has at that point. *)
Inductive ProbeResult :=
| Continue (NtdllBaseAddress : Z)
| Return (NtdllBaseAddress : Z).

(** The body of the loop. *)
Definition probe (NtdllBaseAddress : Z) : M St ProbeResult :=
  let* '(Status, MappedFileNameInformation) :=
    sys_NtQueryVirtualMemory NtCurrentProcess NtdllBaseAddress
      MemoryMappedFilenameInformation MappedFileNameLength in
  if negb (NT_SUCCESS Status) then
    ret (Continue NtdllBaseAddress)
  else
    let* '(Status, BasicInformation) :=
      sys_NtQueryVirtualMemory NtCurrentProcess NtdllBaseAddress
        MemoryBasicInformation sizeof_MEMORY_BASIC_INFORMATION in
    if negb (NT_SUCCESS Status) then
      ret (Continue NtdllBaseAddress)
    else
      let NtdllBaseAddress := ULONG_PTR host (AllocationBase BasicInformation) in
      if negb (Type_ BasicInformation =? MEM_IMAGE) then
        ret (Continue NtdllBaseAddress)
      else if KexRtlUnicodeStringEndsWith RtlUpcaseUnicodeChar
                MappedFileNameInformation NtdllPathFragment true then
        ret (Return NtdllBaseAddress)
      else
        ret (Continue NtdllBaseAddress).

(** How the loop ends: by a [return] inside the body, by its condition
    becoming false, or (in the model only) by running out of fuel. *)
Inductive LoopExit :=
| Returned (NtdllBaseAddress : PVOID)
| Exhausted
| OutOfFuel.

(** [for (...; NtdllBaseAddress > 0x70000000; NtdllBaseAddress -= 0x10000)] *)
Fixpoint scan (fuel : nat) (NtdllBaseAddress : Z) : M St LoopExit :=
  if NtdllBaseAddress >? 0x70000000 then
    match fuel with
    | O => ret OutOfFuel
    | S fuel' =>
        let* r := probe NtdllBaseAddress in
        match r with
        | Return NtdllBaseAddress => ret (Returned NtdllBaseAddress)
        | Continue NtdllBaseAddress =>
            scan fuel' (ULONG_PTR host (NtdllBaseAddress - 0x10000))
        end
    end
  else
    ret Exhausted.

(** The search that follows the loader attempt; [None] only when the
    fuel does not cover the loop. *)
Definition search (fuel : nat) : M St (option PVOID) :=
  let* e := scan fuel 0x7FFD0000 in
  match e with
  | Returned NtdllBaseAddress => ret (Some NtdllBaseAddress)
  | Exhausted => ret (Some NULL)
  | OutOfFuel => ret None
  end.

Definition KexRtlGetNativeSystemDllBase (fuel : nat) : M St (option PVOID) :=
  if KexRtlCurrentProcessBitness host =? KexRtlOperatingSystemBitness host then
    let* '(Status, NtdllBaseAddress) :=
      sys_LdrGetDllHandleByName NtdllBaseName in
    if NT_SUCCESS Status then
      ret (Some NtdllBaseAddress)
    else
      search fuel
  else
    search fuel.

End Routines.

(** ** A reference kernel

    A small executable kernel behind the system-call surface: one
    address space of allocations for the calling process, a loader table,
    and per-process pages with protections and contents.  It fixes
    nothing about the routines; it serves to run them. *)

Module Ref.

Definition PAGE_SIZE : Z := 0x1000.

Definition MEM_COMMIT : Z := 0x1000.
Definition MEM_FREE : Z := 0x10000.
Definition STATUS_FILE_INVALID : NTSTATUS := to_LONG 0xC0000098.
Definition STATUS_NOT_COMMITTED : NTSTATUS := to_LONG 0xC000002D.

(** One allocation of the caller's address space. *)
Record Region := {
  rg_base : Z;
  rg_size : Z;
  rg_type : Z;
  rg_protect : Z;
  rg_file : option UNICODE_STRING
}.

(** One process: its WOW64 PEB pointer (0 for a native process), the
    protection of each committed page and the bytes of its memory. *)
Record Process := {
  wow64_peb : Z;
  page_protection : Z -> option Z;
  contents : Z -> Z
}.

Record Kernel := {
  address_space : list Region;
  loader_table : list (UNICODE_STRING * PVOID);
  processes : HANDLE -> option Process;
  (** number of protection changes still granted; [None] is no limit *)
  protect_budget : option nat
}.

(** Upper-casing of the ASCII letters. *)
Definition upcase (c : WCHAR) : WCHAR :=
  if (97 <=? c) && (c <=? 122) then c - 32 else c.

Definition in_region (a : Z) (r : Region) : bool :=
  (MM_LOWEST_USER_ADDRESS <=? rg_base r) && (rg_base r <=? a)
  && (a <? rg_base r + rg_size r).

Definition region_at (k : Kernel) (a : Z) : option Region :=
  find (in_region a) (address_space k).

Definition no_information : MEMORY_BASIC_INFORMATION :=
  {| BaseAddress := 0; AllocationBase := 0; AllocationProtect := 0;
     RegionSize := 0; State := 0; Protect := 0; Type_ := 0 |}.

Definition query_basic (k : Kernel) (a : Z) :
  NTSTATUS * MEMORY_BASIC_INFORMATION :=
  match region_at k a with
  | Some r =>
      (STATUS_SUCCESS,
       {| BaseAddress := rg_base r; AllocationBase := rg_base r;
          AllocationProtect := rg_protect r; RegionSize := rg_size r;
          State := MEM_COMMIT; Protect := rg_protect r;
          Type_ := rg_type r |})
  | None =>
      (* a free range is reported with success and no allocation base *)
      (STATUS_SUCCESS,
       {| BaseAddress := a / PAGE_SIZE * PAGE_SIZE; AllocationBase := 0;
          AllocationProtect := 0; RegionSize := PAGE_SIZE;
          State := MEM_FREE; Protect := PAGE_NOACCESS; Type_ := 0 |})
  end.

Definition query_mapped_filename (k : Kernel) (a Length : Z) :
  NTSTATUS * UNICODE_STRING :=
  match region_at k a with
  | Some r =>
      match rg_file r with
      | Some f =>
          if Length <? 16 + 2 * KexRtlUnicodeStringCch f
          then (STATUS_BUFFER_OVERFLOW, [])
          else (STATUS_SUCCESS, f)
      | None => (STATUS_FILE_INVALID, [])
      end
  | None => (STATUS_INVALID_ADDRESS, [])
  end.

Definition query_virtual_memory (Process : HANDLE) (a : PVOID)
  (c : MEMORY_INFORMATION_CLASS) (Length : Z) (k : Kernel) :
  (NTSTATUS * MemoryInformation c) * Kernel :=
  match c with
  | MemoryBasicInformation =>
      if Process =? NtCurrentProcess then (query_basic k a, k)
      else ((STATUS_INVALID_HANDLE, no_information), k)
  | MemoryMappedFilenameInformation =>
      if Process =? NtCurrentProcess then (query_mapped_filename k a Length, k)
      else ((STATUS_INVALID_HANDLE, []), k)
  end.

Definition get_dll_handle_by_name (Name : UNICODE_STRING) (k : Kernel) :
  (NTSTATUS * PVOID) * Kernel :=
  match find (fun e => RtlEqualUnicodeString upcase (fst e) Name true)
             (loader_table k) with
  | Some e => ((STATUS_SUCCESS, snd e), k)
  | None => ((STATUS_DLL_NOT_FOUND, NULL), k)
  end.

Definition query_information_process (Process : HANDLE)
  (c : PROCESSINFOCLASS) (Length : Z) (k : Kernel) :
  (NTSTATUS * Z) * Kernel :=
  match processes k Process with
  | Some p => ((STATUS_SUCCESS, wow64_peb p), k)
  | None => ((STATUS_INVALID_HANDLE, 0), k)
  end.

Definition first_page (Base : Z) : Z := Base / PAGE_SIZE.
Definition last_page (Base Size : Z) : Z := (Base + Size - 1) / PAGE_SIZE.

(** The pages that a range of [Size > 0] bytes touches. *)
Definition pages_of (Base Size : Z) : list Z :=
  seqZ (first_page Base) (last_page Base Size - first_page Base + 1).

Definition committed (p : Process) (pg : Z) : bool :=
  match page_protection p pg with Some _ => true | None => false end.

Definition writable (p : Process) (pg : Z) : bool :=
  match page_protection p pg with
  | Some pr => pr =? PAGE_READWRITE
  | None => false
  end.

Definition set_process (k : Kernel) (h : HANDLE) (p : Process) : Kernel :=
  {| address_space := address_space k;
     loader_table := loader_table k;
     processes := fun h' => if h' =? h then Some p else processes k h';
     protect_budget := protect_budget k |}.

Definition spend (k : Kernel) : Kernel :=
  {| address_space := address_space k;
     loader_table := loader_table k;
     processes := processes k;
     protect_budget :=
       match protect_budget k with
       | Some n => Some (Nat.pred n)
       | None => None
       end |}.

Definition protect_virtual_memory (Process : HANDLE) (Base : PVOID)
  (Size NewProtect : Z) (k : Kernel) :
  (NTSTATUS * (PVOID * Z * Z)) * Kernel :=
  match protect_budget k, processes k Process with
  | Some O, _ => ((STATUS_ACCESS_VIOLATION, (Base, Size, 0)), k)
  | _, None => ((STATUS_INVALID_HANDLE, (Base, Size, 0)), k)
  | _, Some p =>
      if Size <=? 0 then
        ((STATUS_INVALID_PARAMETER, (Base, Size, 0)), k)
      else if forallb (committed p) (pages_of Base Size) then
        let lo := first_page Base in
        let hi := last_page Base Size in
        let OldProtect :=
          match page_protection p lo with Some pr => pr | None => 0 end in
        let p' :=
          {| wow64_peb := wow64_peb p;
             page_protection := fun pg =>
               if (lo <=? pg) && (pg <=? hi) then Some NewProtect
               else page_protection p pg;
             contents := contents p |} in
        ((STATUS_SUCCESS,
          (lo * PAGE_SIZE, (hi - lo + 1) * PAGE_SIZE, OldProtect)),
         set_process (spend k) Process p')
      else
        ((STATUS_NOT_COMMITTED, (Base, Size, 0)), k)
  end.

Definition write_virtual_memory (Process : HANDLE) (Base Buffer : PVOID)
  (Cb : Z) (k : Kernel) : NTSTATUS * Kernel :=
  match processes k Process, processes k NtCurrentProcess with
  | Some p, Some self =>
      if Cb <=? 0 then
        (STATUS_SUCCESS, k)
      else if forallb (writable p) (pages_of Base Cb) then
        let p' :=
          {| wow64_peb := wow64_peb p;
             page_protection := page_protection p;
             contents := fun x =>
               if (Base <=? x) && (x <? Base + Cb)
               then contents self (Buffer + (x - Base))
               else contents p x |} in
        (STATUS_SUCCESS, set_process k Process p')
      else
        (STATUS_ACCESS_VIOLATION, k)
  | _, _ => (STATUS_INVALID_HANDLE, k)
  end.

Definition api : NtApi Kernel :=
  {| LdrGetDllHandleByName := get_dll_handle_by_name;
     NtQueryVirtualMemory := query_virtual_memory;
     NtQueryInformationProcess := query_information_process;
     NtProtectVirtualMemory := protect_virtual_memory;
     NtWriteVirtualMemory := write_virtual_memory |}.

(** What the kernel holds for an address of a process. *)
Definition protection_at (k : Kernel) (h : HANDLE) (x : Z) : option Z :=
  match processes k h with
  | Some p => page_protection p (x / PAGE_SIZE)
  | None => None
  end.

Definition byte_at (k : Kernel) (h : HANDLE) (x : Z) : option Z :=
  match processes k h with
  | Some p => Some (contents p x)
  | None => None
  end.

(** No two allocations of the address space overlap. *)
Fixpoint disjoint_regions (l : list Region) : bool :=
  match l with
  | [] => true
  | r :: l' =>
      (0 <? rg_size r)
      && forallb (fun r' => (rg_base r + rg_size r <=? rg_base r')
                            || (rg_base r' + rg_size r' <=? rg_base r)) l'
      && disjoint_regions l'
  end.

(** Every module of the loader table is an image allocation whose file
    name ends with the module name and fits the caller's name buffer. *)
Definition loader_entry_sound (k : Kernel) (e : UNICODE_STRING * PVOID) :
  bool :=
  match region_at k (snd e) with
  | Some r =>
      (rg_type r =? MEM_IMAGE)
      && match rg_file r with
         | Some f =>
             (16 + 2 * KexRtlUnicodeStringCch f <=? MappedFileNameLength)
             && KexRtlUnicodeStringEndsWith upcase f (fst e) true
         | None => false
         end
  | None => false
  end.

Definition good (k : Kernel) : Prop :=
  disjoint_regions (address_space k) = true
  /\ forallb (loader_entry_sound k) (loader_table k) = true.

(** *** Sample kernels *)

Definition ntdll_path : UNICODE_STRING :=
  wide "\Device\HarddiskVolume2\Windows\System32\ntdll.dll".

Definition sample_space : list Region :=
  [ {| rg_base := 0x00400000; rg_size := 0x21000; rg_type := MEM_IMAGE;
       rg_protect := PAGE_EXECUTE_READ;
       rg_file := Some (wide "\Device\HarddiskVolume2\Apps\setup.exe") |};
    {| rg_base := 0x77A40000; rg_size := 0x1A9000; rg_type := MEM_IMAGE;
       rg_protect := PAGE_EXECUTE_READ; rg_file := Some ntdll_path |};
    {| rg_base := 0x7F6F0000; rg_size := 0x100000; rg_type := MEM_PRIVATE;
       rg_protect := PAGE_READWRITE; rg_file := None |};
    {| rg_base := 0x7FFB0000; rg_size := 0x23000; rg_type := MEM_MAPPED;
       rg_protect := PAGE_READONLY;
       rg_file :=
         Some (wide "\Device\HarddiskVolume2\Windows\System32\locale.nls") |} ].

(** The caller, with recognisable bytes everywhere. *)
Definition self : Process :=
  {| wow64_peb := 0x7EFDE000;
     page_protection := fun _ => None;
     contents := fun x => (3 * x + 1) mod 256 |}.

(** A native target whose page at 0x401000 is read-only. *)
Definition target : Process :=
  {| wow64_peb := 0;
     page_protection := fun pg => if pg =? 0x401 then Some PAGE_READONLY else None;
     contents := fun _ => 0 |}.

Definition sample_processes (h : HANDLE) : option Process :=
  if h =? NtCurrentProcess then Some self
  else if h =? 7 then Some target
  else if h =? 8 then Some self
  else None.

Definition sample : Kernel :=
  {| address_space := sample_space;
     loader_table := [(wide "ntdll.dll", 0x77A40000)];
     processes := sample_processes;
     protect_budget := None |}.

(** The same kernel granting a single protection change. *)
Definition stingy : Kernel :=
  {| address_space := sample_space;
     loader_table := [(wide "ntdll.dll", 0x77A40000)];
     processes := sample_processes;
     protect_budget := Some 1%nat |}.

(** A kernel in whose address space no file is mapped. *)
Definition bare : Kernel :=
  {| address_space := [];
     loader_table := [];
     processes := sample_processes;
     protect_budget := None |}.

Definition wow64 : Host :=
  {| CurrentProcess := Bits32; OperatingSystem := Bits64 |}.

Definition native64 : Host :=
  {| CurrentProcess := Bits64; OperatingSystem := Bits64 |}.

Definition native32 : Host :=
  {| CurrentProcess := Bits32; OperatingSystem := Bits32 |}.

Definition boot (k : Kernel) : World Kernel := mkWorld k [].

End Ref.

(** ** Memory of the calling process

    KexRtlMiniGetProcedureAddress reads an image through raw pointers.
    Memory is a finite map from addresses to bytes; an access outside it
    is an access violation.  Every access is recorded. *)

Inductive Access :=
| Load (Address Size : Z)
| Store (Address Size : Z)
| CallRtlImageDirectoryEntryToData (Base : PVOID) (Directory : Z)
| CallStringEqualA (String1 String2 : PVOID).

Record Image := mkImage {
  memory : gmap Z Z;
  accesses : list Access
}.

Inductive Result (A : Type) :=
| Ok (a : A)
| AccessViolation
| NoFuel.

Arguments Ok {A} _.
Arguments AccessViolation {A}.
Arguments NoFuel {A}.

Definition R (A : Type) : Type := Image -> Result A * Image.

Definition retR {A} (a : A) : R A := fun w => (Ok a, w).

Definition bindR {A B} (c : R A) (k : A -> R B) : R B :=
  fun w =>
    match c w with
    | (Ok a, w') => k a w'
    | (AccessViolation, w') => (AccessViolation, w')
    | (NoFuel, w') => (NoFuel, w')
    end.

Declare Scope img_scope.
Delimit Scope img_scope with img.

Notation "'let*' x := c 'in' k" := (bindR c (fun x => k))
  (at level 10, x name, c at level 99, k at level 200,
   format "'[v' 'let*'  x  :=  c  'in' '/' k ']'") : img_scope.

(** Little-endian integers; a memory cell counts modulo 256. *)
Fixpoint decode_le (bs : list Z) : Z :=
  match bs with
  | [] => 0
  | b :: bs' => b mod 256 + 256 * decode_le bs'
  end.

Fixpoint encode_le (n : nat) (v : Z) : list Z :=
  match n with
  | O => []
  | S n' => v mod 256 :: encode_le n' (v / 256)
  end.

Fixpoint load_bytes (n : nat) (m : gmap Z Z) (a : Z) : option (list Z) :=
  match n with
  | O => Some []
  | S n' =>
      match m !! a, load_bytes n' m (a + 1) with
      | Some b, Some bs => Some (b :: bs)
      | _, _ => None
      end
  end.

Fixpoint store_bytes (m : gmap Z Z) (a : Z) (bs : list Z) :
  option (gmap Z Z) :=
  match bs with
  | [] => Some m
  | b :: bs' =>
      match m !! a with
      | Some _ => store_bytes (<[a := b]> m) (a + 1) bs'
      | None => None
      end
  end.

Definition load_int (n : nat) (m : gmap Z Z) (a : Z) : option Z :=
  decode_le <$> load_bytes n m a.

Definition store_int (n : nat) (m : gmap Z Z) (a v : Z) :
  option (gmap Z Z) :=
  store_bytes m a (encode_le n v).

(** Reading an integer of [n] bytes through a pointer. *)
Definition load (n : nat) (a : PVOID) : R Z :=
  fun w =>
    let w' := mkImage (memory w) (accesses w ++ [Load a (Z.of_nat n)]) in
    match load_int n (memory w) a with
    | Some v => (Ok v, w')
    | None => (AccessViolation, w')
    end.

(** Writing an integer of [n] bytes through a pointer. *)
Definition store (n : nat) (a : PVOID) (v : Z) : R unit :=
  fun w =>
    let log := accesses w ++ [Store a (Z.of_nat n)] in
    match store_int n (memory w) a v with
    | Some m' => (Ok tt, mkImage m' log)
    | None => (AccessViolation, mkImage (memory w) log)
    end.

(** Comparison of two NUL-terminated byte strings, byte by byte.  The
    fuel bounds the walk; a walk through mapped bytes cannot be longer
    than the memory. *)
Fixpoint strings_equal (fuel : nat) (m : gmap Z Z) (a b : Z) : option bool :=
  match fuel with
  | O => None
  | S fuel' =>
      match m !! a, m !! b with
      | Some x, Some y =>
          if x =? y then
            if x =? 0 then Some true else strings_equal fuel' m (a + 1) (b + 1)
          else Some false
      | _, _ => None
      end
  end.

(** Modelled from the spec: [StringEqualA] is a header macro that is not
    part of kexrtl.c; the match of a procedure name is exact, on byte
    strings, and case-sensitive. *)
Definition StringEqualA (String1 String2 : PVOID) : R bool :=
  fun w =>
    let w' := mkImage (memory w)
                      (accesses w ++ [CallStringEqualA String1 String2]) in
    match strings_equal (S (size (memory w))) (memory w) String1 String2 with
    | Some b => (Ok b, w')
    | None => (AccessViolation, w')
    end.

(** Field offsets of IMAGE_EXPORT_DIRECTORY (winnt.h). *)
Definition OFFSET_NumberOfNames : Z := 24.
Definition OFFSET_AddressOfFunctions : Z := 28.
Definition OFFSET_AddressOfNames : Z := 32.
Definition OFFSET_AddressOfNameOrdinals : Z := 36.

Definition IMAGE_DIRECTORY_ENTRY_EXPORT : Z := 0.

Section Resolver.

Variable host : Host.

(** [RtlImageDirectoryEntryToData(Base, MappedAsImage, Directory, &Size)]
    of the run-time library: the address of the directory, or NULL, and
    its size. *)
Variable RtlImageDirectoryEntryToData :
  gmap Z Z -> PVOID -> bool -> Z -> PVOID * Z.

Local Open Scope img_scope.

Definition call_RtlImageDirectoryEntryToData (Base : PVOID)
  (MappedAsImage : bool) (Directory : Z) : R (PVOID * Z) :=
  fun w =>
    (Ok (RtlImageDirectoryEntryToData (memory w) Base MappedAsImage Directory),
     mkImage (memory w)
             (accesses w ++ [CallRtlImageDirectoryEntryToData Base Directory])).

(** Modelled from the spec: [RVA_TO_VA] is a header macro that is not part
    of kexrtl.c; an offset is translated by adding it to the base, with
    pointer arithmetic and no bounds check. *)
Definition RVA_TO_VA (Base : PVOID) (Rva : Z) : PVOID :=
  ULONG_PTR host (Base + Rva).

Definition sizeof_PVOID : nat :=
  match CurrentProcess host with Bits32 => 4%nat | Bits64 => 8%nat end.

Definition load_ULONG (a : PVOID) : R Z := load 4 a.
Definition load_USHORT (a : PVOID) : R Z := load 2 a.
Definition store_PVOID (a : PVOID) (v : PVOID) : R unit := store sizeof_PVOID a v.

(** Element [i] of an array of elements of [size] bytes, and the field
    at [offset] of a structure: pointer arithmetic. *)
Definition element (Array : PVOID) (size i : Z) : PVOID :=
  ULONG_PTR host (Array + size * i).

Definition field (Structure : PVOID) (offset : Z) : PVOID :=
  ULONG_PTR host (Structure + offset).

(** [for (Index = 0; Index < ExportDirectory->NumberOfNames; ++Index)] *)
Fixpoint names_loop (fuel : nat)
  (DllBase ProcedureName ProcedureAddress ExportDirectory : PVOID)
  (NameRvas FunctionRvas NameOrdinals : PVOID) (Index : Z) : R NTSTATUS :=
  let* NumberOfNames := load_ULONG (field ExportDirectory OFFSET_NumberOfNames) in
  if Index <? NumberOfNames then
    match fuel with
    | O => fun w => (NoFuel, w)
    | S fuel' =>
        let* NameRva := load_ULONG (element NameRvas 4 Index) in
        let CurrentProcedureName := RVA_TO_VA DllBase NameRva in
        let* equal := StringEqualA ProcedureName CurrentProcedureName in
        if equal then
          let* Ordinal := load_USHORT (element NameOrdinals 2 Index) in
          let* FunctionRva := load_ULONG (element FunctionRvas 4 Ordinal) in
          let* _ := store_PVOID ProcedureAddress
                                (RVA_TO_VA DllBase FunctionRva) in
          retR STATUS_SUCCESS
        else
          names_loop fuel' DllBase ProcedureName ProcedureAddress
                     ExportDirectory NameRvas FunctionRvas NameOrdinals
                     ((Index + 1) mod 2 ^ 32)
    end
  else
    retR STATUS_ENTRYPOINT_NOT_FOUND.

Definition KexRtlMiniGetProcedureAddress (fuel : nat)
  (DllBase ProcedureName ProcedureAddress : PVOID) : R NTSTATUS :=
  if (DllBase =? 0) || (ProcedureName =? 0) || (ProcedureAddress =? 0) then
    retR STATUS_INVALID_PARAMETER
  else
    let* _ := store_PVOID ProcedureAddress NULL in
    let* Directory :=
      call_RtlImageDirectoryEntryToData DllBase true
                                        IMAGE_DIRECTORY_ENTRY_EXPORT in
    let ExportDirectory := fst Directory in
    if ExportDirectory =? 0 then
      retR STATUS_INVALID_IMAGE_FORMAT
    else
      let* AddressOfNames :=
        load_ULONG (field ExportDirectory OFFSET_AddressOfNames) in
      let NameRvas := RVA_TO_VA DllBase AddressOfNames in
      let* AddressOfFunctions :=
        load_ULONG (field ExportDirectory OFFSET_AddressOfFunctions) in
      let FunctionRvas := RVA_TO_VA DllBase AddressOfFunctions in
      let* AddressOfNameOrdinals :=
        load_ULONG (field ExportDirectory OFFSET_AddressOfNameOrdinals) in
      let NameOrdinals := RVA_TO_VA DllBase AddressOfNameOrdinals in
      names_loop fuel DllBase ProcedureName ProcedureAddress ExportDirectory
                 NameRvas FunctionRvas NameOrdinals 0.

End Resolver.

(** ** The export directory as the routine reads it

    The tables of an export directory at [ExportDirectory] of the image
    at [DllBase], read from memory [m] the way the routine reads them. *)

(** [s] is the byte string that ends with the first NUL at or after
    [a]. *)
Fixpoint holds_cstring (m : gmap Z Z) (a : Z) (s : list Z) : Prop :=
  match s with
  | [] => m !! a = Some 0
  | c :: s' => m !! a = Some c /\ c <> 0 /\ holds_cstring m (a + 1) s'
  end.

Section ExportView.

Variable host : Host.
Variable m : gmap Z Z.
Variable DllBase ExportDirectory : PVOID.

Definition number_of_names : option Z :=
  load_int 4 m (field host ExportDirectory OFFSET_NumberOfNames).

Definition name_table : option PVOID :=
  RVA_TO_VA host DllBase
    <$> load_int 4 m (field host ExportDirectory OFFSET_AddressOfNames).

Definition address_table : option PVOID :=
  RVA_TO_VA host DllBase
    <$> load_int 4 m (field host ExportDirectory OFFSET_AddressOfFunctions).

Definition ordinal_table : option PVOID :=
  RVA_TO_VA host DllBase
    <$> load_int 4 m (field host ExportDirectory OFFSET_AddressOfNameOrdinals).

(** Where the name with index [i] is stored. *)
Definition name_pointer (i : Z) : option PVOID :=
  NameRvas ← name_table;
  RVA_TO_VA host DllBase <$> load_int 4 m (element host NameRvas 4 i).

(** The name with index [i] is the byte string [s]. *)
Definition exported_name (i : Z) (s : list Z) : Prop :=
  exists p, name_pointer i = Some p /\ holds_cstring m p s.

(** The address that the name with index [i] stands for: the entry of the
    address table selected by the ordinal of the name, added to the
    base. *)
Definition exported_address (i : Z) : option PVOID :=
  NameOrdinals ← ordinal_table;
  FunctionRvas ← address_table;
  Ordinal ← load_int 2 m (element host NameOrdinals 2 i);
  RVA_TO_VA host DllBase <$> load_int 4 m (element host FunctionRvas 4 Ordinal).

End ExportView.

(** ** A reference image walker and sample data *)

Module RefImage.

(** The directory lookup of the run-time library on a mapped image: DOS
    header, NT headers, then the data directory of the optional header
    (PE32 or PE32+). *)
Definition image_directory_entry_to_data (m : gmap Z Z) (Base : PVOID)
  (MappedAsImage : bool) (Directory : Z) : PVOID * Z :=
  match load_int 2 m Base, load_int 4 m (Base + 0x3C) with
  | Some e_magic, Some e_lfanew =>
      let nt := Base + e_lfanew in
      match load_int 4 m nt, load_int 2 m (nt + 24) with
      | Some Signature, Some Magic =>
          let directories := nt + 24 + (if Magic =? 0x20B then 112 else 96) in
          match load_int 4 m (directories + 8 * Directory),
                load_int 4 m (directories + 8 * Directory + 4) with
          | Some VirtualAddress, Some Size =>
              if (e_magic =? 0x5A4D) && (Signature =? 0x4550)
                 && negb (VirtualAddress =? 0)
              then (Base + VirtualAddress, Size)
              else (NULL, 0)
          | _, _ => (NULL, 0)
          end
      | _, _ => (NULL, 0)
      end
  | _, _ => (NULL, 0)
  end.

(** Mapping bytes at consecutive addresses. *)
Fixpoint place (a : Z) (bs : list Z) (m : gmap Z Z) : gmap Z Z :=
  match bs with
  | [] => m
  | b :: bs' => <[a := b]> (place (a + 1) bs' m)
  end.

Definition zeros (n : nat) : list Z := repeat 0 n.

(** The bytes of an ASCII string, and the same with the closing NUL. *)
Definition cstring_bytes (s : string) : list Z :=
  map (fun c => Z.of_nat (Ascii.nat_of_ascii c)) (String.list_ascii_of_string s).

Definition cstring (s : string) : list Z := cstring_bytes s ++ [0].

Definition B : PVOID := 0x10000000.

(** An image at [B] whose export directory, at offset 0x1000, lists the
    names "Bar" and "Foo"; "Foo" has ordinal 0, mapped to offset 0x2000,
    and "Bar" has ordinal 1, mapped to offset 0x2100.  The caller's
    strings "Foo" and "Zed" and an output slot follow at 0x20000. *)
Definition sample_memory : gmap Z Z :=
  (* DOS header *)
  place B (encode_le 2 0x5A4D) (
  place (B + 0x3C) (encode_le 4 0x40) (
  (* NT headers, PE32 *)
  place (B + 0x40) (encode_le 4 0x4550) (
  place (B + 0x58) (encode_le 2 0x10B) (
  place (B + 0xB8) (encode_le 4 0x1000 ++ encode_le 4 0x100) (
  (* export directory *)
  place (B + 0x1000 + OFFSET_NumberOfNames) (encode_le 4 2) (
  place (B + 0x1000 + OFFSET_AddressOfFunctions) (encode_le 4 0x1100) (
  place (B + 0x1000 + OFFSET_AddressOfNames) (encode_le 4 0x1200) (
  place (B + 0x1000 + OFFSET_AddressOfNameOrdinals) (encode_le 4 0x1300) (
  (* address table, name table, ordinal table *)
  place (B + 0x1100) (encode_le 4 0x2000 ++ encode_le 4 0x2100) (
  place (B + 0x1200) (encode_le 4 0x1400 ++ encode_le 4 0x1410) (
  place (B + 0x1300) (encode_le 2 1 ++ encode_le 2 0) (
  place (B + 0x1400) (cstring "Bar") (
  place (B + 0x1410) (cstring "Foo") (
  (* caller: "Foo", "Zed", an output slot *)
  place 0x20000 (cstring "Foo") (
  place 0x20010 (cstring "Zed") (
  place 0x20100 (zeros 8) ∅)))))))))))))))).

Definition sample : Image := mkImage sample_memory [].

(** The sample memory once the output slot has been cleared. *)
Definition cleared : gmap Z Z := place 0x20100 [0; 0; 0; 0] sample_memory.

End RefImage.

(** ** Contracts of the system services

    What the routines rely on from the kernel, stated over the
    system-call surface. *)

Section Contracts.

Context {St : Type}.
Variable api : NtApi St.
Variable host : Host.
Variable RtlUpcaseUnicodeChar : WCHAR -> WCHAR.

(** The allocation base reported for an address at which a file is mapped
    lies in user space, at or below that address. *)
Definition AllocationBaseContract : Prop :=
  forall a len1 len2 s,
    let q1 := NtQueryVirtualMemory api NtCurrentProcess a
                MemoryMappedFilenameInformation len1 s in
    let q2 := NtQueryVirtualMemory api NtCurrentProcess a
                MemoryBasicInformation len2 (snd q1) in
    NT_SUCCESS (fst (fst q1)) = true ->
    NT_SUCCESS (fst (fst q2)) = true ->
    MM_LOWEST_USER_ADDRESS <= AllocationBase (snd (fst q2)) <= a.

(** In state [s], address [b] lies in a region of type image whose mapped
    file name ends with [name], case ignored; both facts as the kernel
    reports them to the calling process. *)
Definition image_named (s : St) (b : PVOID) (name : UNICODE_STRING) : Prop :=
  let q1 := fst (NtQueryVirtualMemory api NtCurrentProcess b
                   MemoryMappedFilenameInformation MappedFileNameLength s) in
  let q2 := fst (NtQueryVirtualMemory api NtCurrentProcess b
                   MemoryBasicInformation
                   (sizeof_MEMORY_BASIC_INFORMATION host) s) in
  NT_SUCCESS (fst q1) = true /\
  suffix_ci RtlUpcaseUnicodeChar (snd q1) name /\
  NT_SUCCESS (fst q2) = true /\
  Type_ (snd q2) = MEM_IMAGE.

(** Queries do not change the kernel; the loader reports images under
    their names; all addresses of an allocation report the file and the
    type that its base reports. *)
Record LocatorContract (good : St -> Prop) : Prop := {
  query_keeps_state :
    forall h a c len s, snd (NtQueryVirtualMemory api h a c len s) = s;
  loader_keeps_good :
    forall n s, good s -> good (snd (LdrGetDllHandleByName api n s));
  loader_reports_image :
    forall n s,
      good s ->
      let r := LdrGetDllHandleByName api n s in
      NT_SUCCESS (fst (fst r)) = true ->
      image_named (snd r) (snd (fst r)) n;
  allocation_coherent :
    forall a len1 len2 s,
      good s ->
      let q1 := fst (NtQueryVirtualMemory api NtCurrentProcess a
                       MemoryMappedFilenameInformation len1 s) in
      let q2 := fst (NtQueryVirtualMemory api NtCurrentProcess a
                       MemoryBasicInformation len2 s) in
      NT_SUCCESS (fst q1) = true ->
      NT_SUCCESS (fst q2) = true ->
      let b := AllocationBase (snd q2) in
      let q1' := fst (NtQueryVirtualMemory api NtCurrentProcess b
                        MemoryMappedFilenameInformation len1 s) in
      let q2' := fst (NtQueryVirtualMemory api NtCurrentProcess b
                        MemoryBasicInformation len2 s) in
      q1' = q1 /\ NT_SUCCESS (fst q2') = true /\
      Type_ (snd q2') = Type_ (snd q2)
}.

(** Protection changes and writes, in terms of what the kernel holds for
    each address of each process: [protection_at] and [byte_at]. *)
Variable protection_at : St -> HANDLE -> Z -> option Z.
Variable byte_at : St -> HANDLE -> Z -> option Z.

Record MemoryContract : Prop := {
  (** the range reported back covers the range asked for *)
  protect_covers :
    forall h a size p s st a' size' old s',
      NtProtectVirtualMemory api h a size p s = ((st, (a', size', old)), s') ->
      NT_SUCCESS st = true -> 0 < size ->
      a' <= a /\ a + size <= a' + size';
  (** every address of the reported range has the new protection *)
  protect_sets :
    forall h a size p s st a' size' old s',
      NtProtectVirtualMemory api h a size p s = ((st, (a', size', old)), s') ->
      NT_SUCCESS st = true ->
      forall x, a' <= x < a' + size' -> protection_at s' h x = Some p;
  (** the old protection is that of the first address *)
  protect_old :
    forall h a size p s st a' size' old s',
      NtProtectVirtualMemory api h a size p s = ((st, (a', size', old)), s') ->
      NT_SUCCESS st = true -> 0 < size ->
      protection_at s h a = Some old;
  (** protection changes leave all bytes alone *)
  protect_keeps_bytes :
    forall h a size p s r s',
      NtProtectVirtualMemory api h a size p s = (r, s') ->
      forall h' x, byte_at s' h' x = byte_at s h' x;
  (** a successful write copies the caller's bytes *)
  write_copies :
    forall h dst src cb s st s',
      NtWriteVirtualMemory api h dst src cb s = (st, s') ->
      NT_SUCCESS st = true ->
      forall i, 0 <= i < cb ->
        byte_at s' h (dst + i) = byte_at s NtCurrentProcess (src + i);
  (** writes leave all protections alone *)
  write_keeps_protection :
    forall h dst src cb s st s',
      NtWriteVirtualMemory api h dst src cb s = (st, s') ->
      forall h' x, protection_at s' h' x = protection_at s h' x
}.

End Contracts.

(** ** The queries of one probe *)

Section Probes.

Context {St : Type}.
Variable api : NtApi St.
Variable host : Host.

(** The two queries of a probe at address [a] in world [w], and the
    entries they leave in the call log. *)
Definition name_query (a : PVOID) (w : World St) :=
  NtQueryVirtualMemory api NtCurrentProcess a MemoryMappedFilenameInformation
    MappedFileNameLength (kernel w).

Definition basic_query (a : PVOID) (w : World St) :=
  NtQueryVirtualMemory api NtCurrentProcess a MemoryBasicInformation
    (sizeof_MEMORY_BASIC_INFORMATION host) (snd (name_query a w)).

Definition name_event (a : PVOID) (w : World St) : Syscall * NTSTATUS :=
  (SysQueryVirtualMemory NtCurrentProcess a MemoryMappedFilenameInformation
     MappedFileNameLength, fst (fst (name_query a w))).

Definition basic_event (a : PVOID) (w : World St) : Syscall * NTSTATUS :=
  (SysQueryVirtualMemory NtCurrentProcess a MemoryBasicInformation
     (sizeof_MEMORY_BASIC_INFORMATION host), fst (fst (basic_query a w))).

End Probes.

Arguments name_query : simpl never.
Arguments basic_query : simpl never.
Arguments name_event : simpl never.
Arguments basic_event : simpl never.

(** A log entry of a query for a mapped file name. *)
Definition is_name_query (c : Syscall * NTSTATUS) : Prop :=
  exists a, fst c = SysQueryVirtualMemory NtCurrentProcess a
                      MemoryMappedFilenameInformation MappedFileNameLength.

(** ** Further notions used to state properties of the routines *)

(** A log entry of a query of the calling process at a probe address of
    the scanned range. *)
Definition is_probe_query (c : Syscall * NTSTATUS) : Prop :=
  exists a cl len,
    fst c = SysQueryVirtualMemory NtCurrentProcess a cl len /\
    0x70000000 < a <= 0x7FFD0000.

(** ** A reference kernel that checks the source of a write

    [Ref.api] with a write that is refused when the caller cannot read
    the pages of the source buffer. *)

Module RefChecked.

Definition write_virtual_memory (Process : HANDLE) (Base Buffer : PVOID)
  (Cb : Z) (k : Ref.Kernel) : NTSTATUS * Ref.Kernel :=
  match Ref.processes k NtCurrentProcess with
  | Some self =>
      if (0 <? Cb) && negb (forallb (Ref.committed self) (Ref.pages_of Buffer Cb))
      then (STATUS_ACCESS_VIOLATION, k)
      else Ref.write_virtual_memory Process Base Buffer Cb k
  | None => Ref.write_virtual_memory Process Base Buffer Cb k
  end.

Definition api : NtApi Ref.Kernel :=
  {| LdrGetDllHandleByName := Ref.get_dll_handle_by_name;
     NtQueryVirtualMemory := Ref.query_virtual_memory;
     NtQueryInformationProcess := Ref.query_information_process;
     NtProtectVirtualMemory := Ref.protect_virtual_memory;
     NtWriteVirtualMemory := write_virtual_memory |}.

End RefChecked.

(** ** Counted strings as structures

    The routines below work on the UNICODE_STRING structure itself: its
    two byte counts and the address of its characters. *)

Module Counted.

(** UNICODE_STRING of the NT headers. *)
Record UNICODE_STRING := mkString {
  Length : Z;
  MaximumLength : Z;
  Buffer : PVOID
}.

(** Arithmetic on a USHORT wraps. *)
Definition USHORT (x : Z) : Z := x mod 2 ^ 16.

(** Status codes of ntstatus.h used by the string and path routines. *)
Definition STATUS_INVALID_PARAMETER_1 : NTSTATUS := to_LONG 0xC00000EF.
Definition STATUS_INVALID_PARAMETER_2 : NTSTATUS := to_LONG 0xC00000F0.

Section Routines.

Variable host : Host.

(** [Pointer + Count] on a PWCHAR and on a PBYTE. *)
Definition PWCHAR_add (Pointer : PVOID) (Count : Z) : PVOID :=
  element host Pointer 2 Count.

Definition PBYTE_add (Pointer : PVOID) (Count : Z) : PVOID :=
  element host Pointer 1 Count.

(** [KexRtlAdvanceUnicodeString(String, AdvanceCb)]; the structure is
    updated in place, the result is its new value. *)
Definition KexRtlAdvanceUnicodeString (String : UNICODE_STRING)
  (AdvanceCb : Z) : UNICODE_STRING :=
  {| Buffer := PWCHAR_add (Buffer String) (AdvanceCb / 2);
     Length := USHORT (Length String - AdvanceCb);
     MaximumLength := USHORT (MaximumLength String - AdvanceCb) |}.

(** [KexRtlRetreatUnicodeString(String, RetreatCb)] *)
Definition KexRtlRetreatUnicodeString (String : UNICODE_STRING)
  (RetreatCb : Z) : UNICODE_STRING :=
  {| Buffer := PWCHAR_add (Buffer String) (- (RetreatCb / 2));
     Length := USHORT (Length String + RetreatCb);
     MaximumLength := USHORT (MaximumLength String + RetreatCb) |}.

(** [RtlGetLengthWithoutLastFullDosOrNtPathElement(Flags, Path, &Length)]
    of the run-time library: the status and the character count it
    leaves in its output. *)
Variable RtlGetLengthWithoutLastFullDosOrNtPathElement :
  Z -> UNICODE_STRING -> NTSTATUS * Z.

(** [KexRtlPathFindFileName(Path, FileName)]: a null pointer is [None];
    the result is the status and the structure behind [FileName]. *)
Definition KexRtlPathFindFileName (Path FileName : option UNICODE_STRING) :
  NTSTATUS * option UNICODE_STRING :=
  match Path with
  | None => (STATUS_INVALID_PARAMETER_1, FileName)
  | Some Path_ =>
      match FileName with
      | None => (STATUS_INVALID_PARAMETER_2, None)
      | Some _ =>
          let LengthWithoutLastElement :=
            snd (RtlGetLengthWithoutLastFullDosOrNtPathElement 0 Path_) in
          (STATUS_SUCCESS,
           Some {| Buffer := PWCHAR_add (Buffer Path_) LengthWithoutLastElement;
                   Length :=
                     USHORT (Length Path_
                             - USHORT (LengthWithoutLastElement * 2));
                   MaximumLength :=
                     USHORT (MaximumLength Path_
                             - USHORT (LengthWithoutLastElement * 2)) |})
      end
  end.

(** The characters a structure describes in memory [m]: [Length / 2]
    WCHARs from [Buffer] on, when all of them are mapped. *)
Definition characters (m : gmap Z Z) (String : UNICODE_STRING) :
  option (list WCHAR) :=
  mapM (fun i => load_int 2 m (PWCHAR_add (Buffer String) i))
       (seqZ 0 (Length String / 2)).

(** [RtlUpcaseUnicodeChar] of the run-time library. *)
Variable RtlUpcaseUnicodeChar : WCHAR -> WCHAR.

(** Modelled from the spec: [KexRtlUnicodeStringCch] is a header macro
    that is not part of kexrtl.c; it is the number of characters of a
    counted string, [Length / sizeof(WCHAR)]. *)
Definition KexRtlUnicodeStringCch (String : UNICODE_STRING) : Z :=
  Length String / 2.

(** [RtlEqualUnicodeString(String1, String2, CaseInSensitive)] of the
    run-time library on structures in memory [m]: strings of different
    lengths differ; otherwise the characters are compared, and a
    character that cannot be read is an access violation, [None]. *)
Definition RtlEqualUnicodeString (m : gmap Z Z)
  (String1 String2 : UNICODE_STRING) (CaseInSensitive : bool) : option bool :=
  if negb (Length String1 =? Length String2) then Some false
  else
    match characters m String1, characters m String2 with
    | Some s1, Some s2 =>
        Some (RtlEqualUnicodeString RtlUpcaseUnicodeChar s1 s2 CaseInSensitive)
    | _, _ => None
    end.

(** [KexRtlUnicodeStringEndsWith(String, EndsWith, CaseInsensitive)] on
    structures, with its pointer arithmetic. *)
Definition KexRtlUnicodeStringEndsWith (m : gmap Z Z)
  (String EndsWith : UNICODE_STRING) (CaseInsensitive : bool) : option bool :=
  let EndOfString :=
    {| Buffer := PWCHAR_add (PWCHAR_add (Buffer String)
                                        (KexRtlUnicodeStringCch String))
                            (- KexRtlUnicodeStringCch EndsWith);
       Length := Length EndsWith;
       MaximumLength := Length EndsWith |} in
  if Buffer EndOfString <? Buffer String then
    Some false
  else
    RtlEqualUnicodeString m EndOfString EndsWith CaseInsensitive.

(** [ToUpper] is a header macro that is not part of kexrtl.c; it maps a
    character to its upper case. *)
Variable ToUpper : WCHAR -> WCHAR.

Local Open Scope img_scope.

Definition load_WCHAR (a : PVOID) : R WCHAR := load 2 a.

(** How an inner loop of the search is left: with the position of the
    haystack pointer, or by returning from the routine. *)
Inductive Flow :=
| Leave (HaystackBuffer : PVOID)
| Return (Result : PVOID).

Section SearchLoops.

(** The locals that the loops only read. *)
Variable NeedleFirst : WCHAR.
Variable NeedleBufferEnd HaystackBufferEnd HaystackBufferRealEnd : PVOID.

(** [while (ToUpper( *HaystackBuffer) != NeedleFirst) { ++HaystackBuffer;
    if (HaystackBuffer > HaystackBufferEnd) return NULL; }] *)
Fixpoint first_insensitive (fuel : nat) (HaystackBuffer : PVOID) : R Flow :=
  match fuel with
  | O => fun w => (NoFuel, w)
  | S fuel' =>
      let* c := load_WCHAR HaystackBuffer in
      if negb (ToUpper c =? NeedleFirst) then
        let HaystackBuffer := PWCHAR_add HaystackBuffer 1 in
        if HaystackBuffer >? HaystackBufferEnd then retR (Return NULL)
        else first_insensitive fuel' HaystackBuffer
      else retR (Leave HaystackBuffer)
  end.

(** [while (ToUpper( *HaystackBuffer) == ToUpper( *NeedleBuffer)) {
    ++HaystackBuffer; ++NeedleBuffer;
    if (HaystackBuffer > HaystackBufferRealEnd) break;
    else if (NeedleBuffer >= NeedleBufferEnd) return Start; }] *)
Fixpoint rest_insensitive (fuel : nat) (StartOfNeedleInHaystack : PVOID)
  (HaystackBuffer NeedleBuffer : PVOID) : R Flow :=
  match fuel with
  | O => fun w => (NoFuel, w)
  | S fuel' =>
      let* h := load_WCHAR HaystackBuffer in
      let* n := load_WCHAR NeedleBuffer in
      if ToUpper h =? ToUpper n then
        let HaystackBuffer := PWCHAR_add HaystackBuffer 1 in
        let NeedleBuffer := PWCHAR_add NeedleBuffer 1 in
        if HaystackBuffer >? HaystackBufferRealEnd then
          retR (Leave HaystackBuffer)
        else if NeedleBuffer >=? NeedleBufferEnd then
          retR (Return StartOfNeedleInHaystack)
        else
          rest_insensitive fuel' StartOfNeedleInHaystack HaystackBuffer
                           NeedleBuffer
      else retR (Leave HaystackBuffer)
  end.

(** The outer [while (TRUE)] of the case-insensitive search. *)
Fixpoint search_insensitive (fuel : nat) (Needle : UNICODE_STRING)
  (HaystackBuffer : PVOID) : R PVOID :=
  match fuel with
  | O => fun w => (NoFuel, w)
  | S fuel' =>
      let NeedleBuffer := PWCHAR_add (Buffer Needle) 1 in
      let* found := first_insensitive (S fuel') HaystackBuffer in
      match found with
      | Return Result => retR Result
      | Leave HaystackBuffer =>
          let StartOfNeedleInHaystack := HaystackBuffer in
          let HaystackBuffer := PWCHAR_add HaystackBuffer 1 in
          let* matched :=
            rest_insensitive (S fuel') StartOfNeedleInHaystack HaystackBuffer
                             NeedleBuffer in
          match matched with
          | Return Result => retR Result
          | Leave HaystackBuffer =>
              search_insensitive fuel' Needle HaystackBuffer
          end
      end
  end.

(** [while ( *HaystackBuffer++ != NeedleFirst) {
    if (HaystackBuffer > HaystackBufferEnd) return NULL; }]: the pointer
    is incremented whatever the comparison gives. *)
Fixpoint first_sensitive (fuel : nat) (HaystackBuffer : PVOID) : R Flow :=
  match fuel with
  | O => fun w => (NoFuel, w)
  | S fuel' =>
      let* c := load_WCHAR HaystackBuffer in
      let HaystackBuffer := PWCHAR_add HaystackBuffer 1 in
      if negb (c =? NeedleFirst) then
        if HaystackBuffer >? HaystackBufferEnd then retR (Return NULL)
        else first_sensitive fuel' HaystackBuffer
      else retR (Leave HaystackBuffer)
  end.

(** [while ( *HaystackBuffer++ == *NeedleBuffer++) {
    if (HaystackBuffer > HaystackBufferRealEnd) break;
    else if (NeedleBuffer >= NeedleBufferEnd) return Start; }] *)
Fixpoint rest_sensitive (fuel : nat) (StartOfNeedleInHaystack : PVOID)
  (HaystackBuffer NeedleBuffer : PVOID) : R Flow :=
  match fuel with
  | O => fun w => (NoFuel, w)
  | S fuel' =>
      let* h := load_WCHAR HaystackBuffer in
      let* n := load_WCHAR NeedleBuffer in
      let HaystackBuffer := PWCHAR_add HaystackBuffer 1 in
      let NeedleBuffer := PWCHAR_add NeedleBuffer 1 in
      if h =? n then
        if HaystackBuffer >? HaystackBufferRealEnd then
          retR (Leave HaystackBuffer)
        else if NeedleBuffer >=? NeedleBufferEnd then
          retR (Return StartOfNeedleInHaystack)
        else
          rest_sensitive fuel' StartOfNeedleInHaystack HaystackBuffer
                         NeedleBuffer
      else retR (Leave HaystackBuffer)
  end.

(** The outer [while (TRUE)] of the case-sensitive search. *)
Fixpoint search_sensitive (fuel : nat) (Needle : UNICODE_STRING)
  (HaystackBuffer : PVOID) : R PVOID :=
  match fuel with
  | O => fun w => (NoFuel, w)
  | S fuel' =>
      let NeedleBuffer := PWCHAR_add (Buffer Needle) 1 in
      let* found := first_sensitive (S fuel') HaystackBuffer in
      match found with
      | Return Result => retR Result
      | Leave HaystackBuffer =>
          let StartOfNeedleInHaystack := PWCHAR_add HaystackBuffer (-1) in
          let* matched :=
            rest_sensitive (S fuel') StartOfNeedleInHaystack HaystackBuffer
                           NeedleBuffer in
          match matched with
          | Return Result => retR Result
          | Leave HaystackBuffer =>
              search_sensitive fuel' Needle HaystackBuffer
          end
      end
  end.

End SearchLoops.

(** [KexRtlFindUnicodeSubstring(Haystack, Needle, CaseInsensitive)]; the
    fuel bounds the number of iterations of each loop. *)
Definition KexRtlFindUnicodeSubstring (fuel : nat)
  (Haystack Needle : UNICODE_STRING) (CaseInsensitive : bool) : R PVOID :=
  let LengthOfNeedle := Z.land (Length Needle) (Z.lnot 1) in
  let LengthOfHaystack := Z.land (Length Haystack) (Z.lnot 1) in
  if (LengthOfNeedle >? LengthOfHaystack) || (LengthOfHaystack =? 0)
     || (LengthOfNeedle =? 0) then
    retR NULL
  else
    let NeedleBuffer := Buffer Needle in
    let NeedleBufferEnd := PBYTE_add NeedleBuffer LengthOfNeedle in
    let HaystackBuffer := Buffer Haystack in
    let HaystackBufferEnd :=
      PBYTE_add (PBYTE_add HaystackBuffer LengthOfHaystack)
                (- LengthOfNeedle) in
    let HaystackBufferRealEnd := PBYTE_add HaystackBufferEnd LengthOfNeedle in
    if CaseInsensitive then
      let* c := load_WCHAR NeedleBuffer in
      let NeedleFirst := ToUpper c in
      search_insensitive NeedleFirst NeedleBufferEnd HaystackBufferEnd
                         HaystackBufferRealEnd fuel Needle HaystackBuffer
    else
      let* NeedleFirst := load_WCHAR NeedleBuffer in
      search_sensitive NeedleFirst NeedleBufferEnd HaystackBufferEnd
                       HaystackBufferRealEnd fuel Needle HaystackBuffer.

Section SearchInvariants.

Variable m : gmap Z Z.
Variable f : WCHAR -> WCHAR.
Variable NeedleFirst : WCHAR.
Variable NeedleBufferEnd HaystackBufferRealEnd : PVOID.

(** The characters at [H] and at [N], and the [j - 1] after each, are
    readable and agree under [f]. *)
Definition agree (H N : PVOID) (j : Z) : Prop :=
  forall i, 0 <= i < j ->
    exists h n, load_int 2 m (H + 2 * i) = Some h /\
                load_int 2 m (N + 2 * i) = Some n /\
                f h = f n.

(** How the loop over the rest of the needle, entered at [H] and [N], is
    left: by returning [Start] after [j] characters agreed, the haystack
    pointer within the real end and the needle pointer at the end of the
    needle; or with the haystack pointer further on. *)
Definition rest_post (Start H N : PVOID) (r : Flow) : Prop :=
  match r with
  | Return p =>
      p = Start /\
      exists j, 1 <= j /\ H + 2 * j <= HaystackBufferRealEnd /\
                NeedleBufferEnd <= N + 2 * j /\ agree H N j
  | Leave H' => H <= H' /\ (H' - H) mod 2 = 0
  end.

(** The number of mapped addresses at or above [H]: what a pointer that
    only moves up through readable memory has left. *)
Definition above (H : PVOID) : nat :=
  size (filter (fun a => H <= a) (dom m)).

(** The character at [p] is the first of the needle under [f]. *)
Definition first_at (p : PVOID) : Prop :=
  exists c, load_int 2 m p = Some c /\ f c = NeedleFirst.

(** The needle, whose characters after the first start at [N], has been
    found at [p], at an even offset from [Base]. *)
Definition found_at (Base N p : PVOID) : Prop :=
  Base <= p /\ (p - Base) mod 2 = 0 /\ first_at p /\
  exists j, 1 <= j /\ p + 2 + 2 * j <= HaystackBufferRealEnd /\
            NeedleBufferEnd <= N + 2 * j /\ agree (p + 2) N j.

End SearchInvariants.

(** The memory lies in the address space of the process, whose last byte
    is never mapped. *)
Definition in_address_space (m : gmap Z Z) : Prop :=
  map_Forall (fun a _ => 0 <= a < 2 ^ KexRtlCurrentProcessBitness host - 1) m.

End Routines.

End Counted.

(** A memory with the path L"C:\Windows\notepad.exe" at 0x30000 and the
    strings L"PAD." and L"pad." after it, and structures for them. *)
Module RefText.

Definition wide_bytes (s : list WCHAR) : list Z := flat_map (encode_le 2) s.

Definition sample_memory : gmap Z Z :=
  RefImage.place 0x30000 (wide_bytes (wide "C:\Windows\notepad.exe")) (
  RefImage.place 0x30100 (wide_bytes (wide "PAD.")) (
  RefImage.place 0x30200 (wide_bytes (wide "pad.")) ∅)).

Definition sample : Image := mkImage sample_memory [].

Definition Path : Counted.UNICODE_STRING := Counted.mkString 44 46 0x30000.
Definition UpperNeedle : Counted.UNICODE_STRING := Counted.mkString 8 8 0x30100.
Definition LowerNeedle : Counted.UNICODE_STRING := Counted.mkString 8 8 0x30200.

(** A memory with L"aab" at 0x31000 and L"ab" at 0x31100, and structures
    for them. *)
Definition overlap_memory : gmap Z Z :=
  RefImage.place 0x31000 (wide_bytes (wide "aab")) (
  RefImage.place 0x31100 (wide_bytes (wide "ab")) ∅).

Definition overlap : Image := mkImage overlap_memory [].

Definition Aab : Counted.UNICODE_STRING := Counted.mkString 6 6 0x31000.
Definition Ab : Counted.UNICODE_STRING := Counted.mkString 4 4 0x31100.

(** The length of a path without its last element: up to and including
    its last backslash; none is a failure and leaves zero. *)
Fixpoint after_last_backslash (l : list WCHAR) (seen : Z) (best : option Z) :
  option Z :=
  match l with
  | [] => best
  | c :: l' =>
      after_last_backslash l' (seen + 1)
        (if c =? 92 then Some (seen + 1) else best)
  end.

Definition length_without_last_element (m : gmap Z Z) (Flags : Z)
  (Path : Counted.UNICODE_STRING) : NTSTATUS * Z :=
  match Counted.characters Ref.wow64 m Path with
  | Some l =>
      match after_last_backslash l 0 None with
      | Some n => (STATUS_SUCCESS, n)
      | None => (STATUS_INVALID_PARAMETER, 0)
      end
  | None => (STATUS_ACCESS_VIOLATION, 0)
  end.

End RefText.

(** ** Registry queries

    [KexRtlQueryKeyValueData] and [KexRtlQueryKeyMultipleValueData] over
    the services they call.  A pointer argument is [None] when it is NULL
    and otherwise the value it points to; what the routine stores through
    its pointers is returned next to the status.  A run that the C
    language leaves undefined ends with [Undefined]. *)

Module Registry.

(** Arithmetic on a ULONG wraps. *)
Definition ULONG (x : Z) : Z := x mod 2 ^ 32.

(** [INVALID_HANDLE_VALUE] is the handle -1. *)
Definition INVALID_HANDLE_VALUE : HANDLE := -1.

(** Status codes of ntstatus.h used by the registry routines. *)
Definition STATUS_UNSUCCESSFUL : NTSTATUS := to_LONG 0xC0000001.
Definition STATUS_BUFFER_TOO_SMALL : NTSTATUS := to_LONG 0xC0000023.
Definition STATUS_OBJECT_TYPE_MISMATCH : NTSTATUS := to_LONG 0xC0000024.
Definition STATUS_INVALID_PARAMETER_MIX : NTSTATUS := to_LONG 0xC0000030.
Definition STATUS_INSUFFICIENT_RESOURCES : NTSTATUS := to_LONG 0xC000009A.
Definition STATUS_INVALID_PARAMETER_1 : NTSTATUS := to_LONG 0xC00000EF.
Definition STATUS_INVALID_PARAMETER_2 : NTSTATUS := to_LONG 0xC00000F0.
Definition STATUS_INVALID_PARAMETER_3 : NTSTATUS := to_LONG 0xC00000F1.
Definition STATUS_INVALID_PARAMETER_4 : NTSTATUS := to_LONG 0xC00000F2.
Definition STATUS_INVALID_PARAMETER_5 : NTSTATUS := to_LONG 0xC00000F3.

(** [QUERY_KEY_MULTIPLE_VALUE_FAIL_FAST (1)] *)
Definition QUERY_KEY_MULTIPLE_VALUE_FAIL_FAST : Z := 1.

(** KEY_VALUE_PARTIAL_INFORMATION of the NT headers as a query leaves it
    in the buffer; [DataLength] is the length of [Data]. *)
Record KEY_VALUE_PARTIAL_INFORMATION := {
  TitleIndex : Z;
  Type_ : Z;
  Data : list Z
}.

Definition DataLength (Information : KEY_VALUE_PARTIAL_INFORMATION) : Z :=
  Z.of_nat (length (Data Information)).

(** The services the routines call, as transitions of a state [St]. *)
Record Services (St : Type) := {
  (** [NtQueryValueKey(Key, Name, KeyValuePartialInformation, Buffer,
      Length, &ResultLength)]: the status, the structure stored in the
      buffer and the length stored in [ResultLength], each [None] when
      nothing is stored *)
  NtQueryValueKey :
    HANDLE -> UNICODE_STRING -> PVOID -> Z -> St ->
    (NTSTATUS * option KEY_VALUE_PARTIAL_INFORMATION * option Z) * St;
  (** [SafeAlloc(BYTE, Cb)]: the address of a new buffer, or NULL *)
  SafeAlloc : Z -> St -> PVOID * St;
  (** [SafeFree(Pointer)] *)
  SafeFree : PVOID -> St -> St
}.

Arguments NtQueryValueKey {St}.
Arguments SafeAlloc {St}.
Arguments SafeFree {St}.

(** The services called, in order, with what they returned. *)
Inductive Call :=
| CallNtQueryValueKey (KeyHandle : HANDLE) (ValueName : UNICODE_STRING)
    (KeyValueInformation : PVOID) (Length : Z) (Status : NTSTATUS)
| CallSafeAlloc (Cb : Z) (Pointer : PVOID)
| CallSafeFree (Pointer : PVOID).

Record Machine (St : Type) := mkMachine {
  state : St;
  trace : list Call
}.

Arguments mkMachine {St}.
Arguments state {St}.
Arguments trace {St}.

Inductive Outcome (A : Type) :=
| Done (a : A)
| Undefined.

Arguments Done {A} _.
Arguments Undefined {A}.

(** What the caller's pointers point to: the byte count behind
    [ValueDataCb], the buffer [ValueData] and the type behind
    [ValueDataType]. *)
Record Pointees := mkPointees {
  ValueDataCb : option Z;
  ValueData : option (list Z);
  ValueDataType : option Z
}.

(** KEX_RTL_QUERY_KEY_MULTIPLE_VARIABLE_TABLE_ENTRY: the parameters of one
    query and its status. *)
Record ENTRY := mkENTRY {
  EntryValueName : UNICODE_STRING;
  EntryValueDataCb : Z;
  EntryValueData : option (list Z);
  EntryValueDataTypeRestrict : Z;
  EntryValueDataType : Z;
  EntryStatus : NTSTATUS
}.

Section Routines.

Context {St : Type}.
Variable api : Services St.

(** [LEGAL_REG_RESTRICT_MASK] and [sizeof(KEY_VALUE_PARTIAL_INFORMATION)]
    come from headers that are not part of kexrtl.c. *)
Variable LEGAL_REG_RESTRICT_MASK : Z.
Variable sizeof_KEY_VALUE_PARTIAL_INFORMATION : Z.

Definition sys_NtQueryValueKey (KeyHandle : HANDLE)
  (ValueName : UNICODE_STRING) (KeyValueInformation : PVOID) (Length : Z)
  (w : Machine St) :
  (NTSTATUS * option KEY_VALUE_PARTIAL_INFORMATION * option Z) * Machine St :=
  let '(r, s) :=
    NtQueryValueKey api KeyHandle ValueName KeyValueInformation Length
                    (state w) in
  (r, mkMachine s
        (trace w ++ [CallNtQueryValueKey KeyHandle ValueName
                       KeyValueInformation Length (fst (fst r))])).

Definition sys_SafeAlloc (Cb : Z) (w : Machine St) : PVOID * Machine St :=
  let '(p, s) := SafeAlloc api Cb (state w) in
  (p, mkMachine s (trace w ++ [CallSafeAlloc Cb p])).

Definition sys_SafeFree (Pointer : PVOID) (w : Machine St) : Machine St :=
  mkMachine (SafeFree api Pointer (state w))
            (trace w ++ [CallSafeFree Pointer]).

(** [RtlCopyMemory(Destination, Source, Length)] into a buffer whose
    capacity is its length; writing past the buffer is undefined. *)
Definition RtlCopyMemory (Destination Source : list Z) :
  Outcome (list Z) :=
  if (length Source <=? length Destination)%nat then
    Done (Source ++ drop (length Source) Destination)
  else Undefined.

(** The label [Exit] of KexRtlQueryKeyValueData: the type is reported on
    success and on a type mismatch, the buffer is freed.
    [KeyValueInformation] is [None] while the variable is not
    initialised. *)
Definition Exit (Status : NTSTATUS) (KeyValueBuffer : PVOID)
  (KeyValueInformation : option KEY_VALUE_PARTIAL_INFORMATION)
  (a : Pointees) (w : Machine St) :
  Outcome (NTSTATUS * Pointees) * Machine St :=
  let free := sys_SafeFree KeyValueBuffer w in
  if NT_SUCCESS Status || (Status =? STATUS_OBJECT_TYPE_MISMATCH) then
    match ValueDataType a with
    | Some _ =>
        match KeyValueInformation with
        | Some Information =>
            (Done (Status,
                   mkPointees (ValueDataCb a) (ValueData a)
                              (Some (Type_ Information))), free)
        | None => (Undefined, w)
        end
    | None => (Done (Status, a), free)
    end
  else (Done (Status, a), free).

Definition KexRtlQueryKeyValueData (KeyHandle : HANDLE)
  (ValueName : option UNICODE_STRING) (a : Pointees)
  (ValueDataTypeRestrict : Z) (w : Machine St) :
  Outcome (NTSTATUS * Pointees) * Machine St :=
  if (KeyHandle =? 0) || (KeyHandle =? INVALID_HANDLE_VALUE) then
    (Done (STATUS_INVALID_PARAMETER_1, a), w)
  else
  match ValueName with
  | None => (Done (STATUS_INVALID_PARAMETER_2, a), w)
  | Some ValueName_ =>
  match ValueDataCb a with
  | None => (Done (STATUS_INVALID_PARAMETER_3, a), w)
  | Some Cb =>
  if bool_decide (ValueData a <> None) && (Cb =? 0) then
    (Done (STATUS_INVALID_PARAMETER_MIX, a), w)
  else if bool_decide (ValueData a = None) && negb (Cb =? 0) then
    (Done (STATUS_INVALID_PARAMETER_MIX, a), w)
  else if (ValueDataTypeRestrict =? 0)
          || negb (Z.land ValueDataTypeRestrict
                          (Z.lnot LEGAL_REG_RESTRICT_MASK) =? 0) then
    (Done (STATUS_INVALID_PARAMETER_5, a), w)
  else if Cb =? 0 then
    (* the caller asks for the length only *)
    let '((Status, _, ResultLength), w1) :=
      sys_NtQueryValueKey KeyHandle ValueName_ NULL 0 w in
    let Cb1 := default Cb ResultLength in
    let Cb2 :=
      if Status =? STATUS_BUFFER_TOO_SMALL then
        ULONG (Cb1 - sizeof_KEY_VALUE_PARTIAL_INFORMATION)
      else Cb1 in
    (Done (Status, mkPointees (Some Cb2) (ValueData a) (ValueDataType a)), w1)
  else
    let KeyValueBufferCb := ULONG (Cb + sizeof_KEY_VALUE_PARTIAL_INFORMATION) in
    let '(KeyValueBuffer, w1) := sys_SafeAlloc KeyValueBufferCb w in
    if KeyValueBuffer =? 0 then
      (Done (STATUS_INSUFFICIENT_RESOURCES, a), w1)
    else
      let '((Status, Stored, ResultLength), w2) :=
        sys_NtQueryValueKey KeyHandle ValueName_ KeyValueBuffer
                            KeyValueBufferCb w1 in
      let Cb1 := default Cb ResultLength in
      if negb (NT_SUCCESS Status) then
        Exit Status KeyValueBuffer None
             (mkPointees (Some Cb1) (ValueData a) (ValueDataType a)) w2
      else
        let Cb2 := ULONG (Cb1 - sizeof_KEY_VALUE_PARTIAL_INFORMATION) in
        let a2 := mkPointees (Some Cb2) (ValueData a) (ValueDataType a) in
        match Stored with
        | None => (Undefined, w2)
        | Some Information =>
            if negb ((0 <=? Type_ Information) && (Type_ Information <? 32))
            then (Undefined, w2)
            else if Z.land ValueDataTypeRestrict
                           (Z.shiftl 1 (Type_ Information)) =? 0 then
              Exit STATUS_OBJECT_TYPE_MISMATCH KeyValueBuffer
                   (Some Information) a2 w2
            else
              match ValueData a with
              | None => (Undefined, w2)
              | Some Destination =>
                  match RtlCopyMemory Destination (Data Information) with
                  | Done Copied =>
                      Exit Status KeyValueBuffer (Some Information)
                           (mkPointees (Some Cb2) (Some Copied)
                                       (ValueDataType a)) w2
                  | Undefined => (Undefined, w2)
                  end
              end
        end
  end
  end.

(** The parameters of the query of a table entry, and the entry after
    the query. *)
Definition entry_pointees (e : ENTRY) : Pointees :=
  mkPointees (Some (EntryValueDataCb e)) (EntryValueData e)
             (Some (EntryValueDataType e)).

Definition entry_update (e : ENTRY) (Status : NTSTATUS) (a : Pointees) :
  ENTRY :=
  mkENTRY (EntryValueName e)
          (default (EntryValueDataCb e) (ValueDataCb a))
          (ValueData a)
          (EntryValueDataTypeRestrict e)
          (default (EntryValueDataType e) (ValueDataType a))
          Status.

(** The [do ... while (--Counter)] of KexRtlQueryKeyMultipleValueData.
    [QueryTable] is the array from the current entry on; reading past
    its end is undefined.  The result is the status, the entries from
    the current one on and the number behind
    [NumberOfQueryTableElements]. *)
Fixpoint query_loop (KeyHandle : HANDLE) (Flags : Z)
  (QueryTable : list ENTRY) (Counter NumberOfQueryTableElements : Z)
  (w : Machine St) : Outcome (NTSTATUS * list ENTRY * Z) * Machine St :=
  match QueryTable with
  | [] => (Undefined, w)
  | e :: QueryTable' =>
      match KexRtlQueryKeyValueData KeyHandle (Some (EntryValueName e))
              (entry_pointees e) (EntryValueDataTypeRestrict e) w with
      | (Undefined, w1) => (Undefined, w1)
      | (Done (Status, a), w1) =>
          let e' := entry_update e Status a in
          if negb (Z.land Flags QUERY_KEY_MULTIPLE_VALUE_FAIL_FAST =? 0)
             && negb (NT_SUCCESS Status) then
            (Done (STATUS_UNSUCCESSFUL, e' :: QueryTable',
                   NumberOfQueryTableElements), w1)
          else
            let NumberOfQueryTableElements :=
              ULONG (NumberOfQueryTableElements + 1) in
            let Counter := ULONG (Counter - 1) in
            if Counter =? 0 then
              (Done (STATUS_SUCCESS, e' :: QueryTable',
                     NumberOfQueryTableElements), w1)
            else
              match query_loop KeyHandle Flags QueryTable' Counter
                      NumberOfQueryTableElements w1 with
              | (Done (Status', QueryTable'', n), w2) =>
                  (Done (Status', e' :: QueryTable'', n), w2)
              | (Undefined, w2) => (Undefined, w2)
              end
      end
  end.

(** [KexRtlQueryKeyMultipleValueData(KeyHandle, QueryTable,
    NumberOfQueryTableElements, Flags)]: the status, the table and the
    number behind [NumberOfQueryTableElements] after the call. *)
Definition KexRtlQueryKeyMultipleValueData (KeyHandle : HANDLE)
  (QueryTable : option (list ENTRY))
  (NumberOfQueryTableElements : option Z) (Flags : Z) (w : Machine St) :
  Outcome (NTSTATUS * option (list ENTRY) * option Z) * Machine St :=
  match QueryTable with
  | None =>
      (Done (STATUS_INVALID_PARAMETER_2, None, NumberOfQueryTableElements), w)
  | Some QueryTable_ =>
      match NumberOfQueryTableElements with
      | None => (Done (STATUS_INVALID_PARAMETER_3, QueryTable, None), w)
      | Some n =>
          if n =? 0 then
            (Done (STATUS_INVALID_PARAMETER_3, QueryTable, Some n), w)
          else
            let Counter := n in
            if negb (Z.land Flags (Z.lnot QUERY_KEY_MULTIPLE_VALUE_FAIL_FAST)
                     =? 0) then
              (Done (STATUS_INVALID_PARAMETER_4, QueryTable, Some 0), w)
            else
              match query_loop KeyHandle Flags QueryTable_ Counter 0 w with
              | (Done (Status, QueryTable', n'), w') =>
                  (Done (Status, Some QueryTable', Some n'), w')
              | (Undefined, w') => (Undefined, w')
              end
      end
  end.

End Routines.

End Registry.

(** A reference registry key and heap: the values of the key, the number
    of allocations that will still succeed, the address of the next
    buffer and the buffers in use. *)
Module RefRegistry.

Record Value := {
  Name : UNICODE_STRING;
  Kind : Z;
  Bytes : list Z
}.

Record Key := mkKey {
  values : list Value;
  budget : nat;
  next : PVOID;
  live : list PVOID
}.

Definition STATUS_OBJECT_NAME_NOT_FOUND : NTSTATUS := to_LONG 0xC0000034.

(** The offset of [Data] in KEY_VALUE_PARTIAL_INFORMATION and the size of
    the structure. *)
Definition OFFSET_Data : Z := 12.
Definition sizeof_KEY_VALUE_PARTIAL_INFORMATION : Z := 16.

(** The registry types REG_NONE (0) to REG_QWORD (11). *)
Definition LEGAL_REG_RESTRICT_MASK : Z := 0xFFF.
Definition REG_SZ : Z := 1.
Definition REG_DWORD : Z := 4.

(** The only key has handle 0x44.  A query stores the length it needs;
    with room for the header it stores the header and the data that
    fit. *)
Definition query_value_key (KeyHandle : HANDLE) (ValueName : UNICODE_STRING)
  (KeyValueInformation : PVOID) (Length : Z) (k : Key) :
  (NTSTATUS * option Registry.KEY_VALUE_PARTIAL_INFORMATION * option Z) * Key :=
  if negb (KeyHandle =? 0x44) then ((STATUS_INVALID_HANDLE, None, None), k)
  else
    match find (fun v => RtlEqualUnicodeString Ref.upcase (Name v) ValueName
                           true) (values k) with
    | None => ((STATUS_OBJECT_NAME_NOT_FOUND, None, None), k)
    | Some v =>
        let needed := OFFSET_Data + Z.of_nat (length (Bytes v)) in
        if Length <? OFFSET_Data then
          ((Registry.STATUS_BUFFER_TOO_SMALL, None, Some needed), k)
        else if Length <? needed then
          ((STATUS_BUFFER_OVERFLOW,
            Some {| Registry.TitleIndex := 0;
                    Registry.Type_ := Kind v;
                    Registry.Data :=
                      take (Z.to_nat (Length - OFFSET_Data)) (Bytes v) |},
            Some needed), k)
        else
          ((STATUS_SUCCESS,
            Some {| Registry.TitleIndex := 0;
                    Registry.Type_ := Kind v;
                    Registry.Data := Bytes v |},
            Some needed), k)
    end.

Definition safe_alloc (Cb : Z) (k : Key) : PVOID * Key :=
  match budget k with
  | O => (NULL, k)
  | S budget' =>
      (next k, mkKey (values k) budget' (next k + 0x1000) (next k :: live k))
  end.

Definition safe_free (Pointer : PVOID) (k : Key) : Key :=
  mkKey (values k) (budget k) (next k)
        (filter (fun p => p <> Pointer) (live k)).

Definition api : Registry.Services Key := {|
  Registry.NtQueryValueKey := query_value_key;
  Registry.SafeAlloc := safe_alloc;
  Registry.SafeFree := safe_free
|}.

(** A key with a string "Path" and a number "Level". *)
Definition sample : Key := {|
  values := [ {| Name := wide "Path"; Kind := REG_SZ;
                 Bytes := RefText.wide_bytes (wide "C:\") |};
              {| Name := wide "Level"; Kind := REG_DWORD;
                 Bytes := encode_le 4 7 |} ];
  budget := 8;
  next := 0x50000;
  live := []
|}.

Definition boot (k : Key) : Registry.Machine Key := Registry.mkMachine k [].

End RefRegistry.

(** ** What the scan relies on

    The scan of KexRtlGetNativeSystemDllBase asks the kernel about an
    address and returns the allocation base reported for it.
    [ScanContract] collects what this needs from the kernel: queries do
    not change it, a loader call keeps it in a state described by [good],
    and in such a state all addresses of an allocation report the file
    and the type that its base reports.  Nothing is asked of what the
    loader answers. *)

Record ScanContract {St : Type} (api : NtApi St) (good : St -> Prop) :
  Prop := {
  queries_keep_state :
    forall h a c len s, snd (NtQueryVirtualMemory api h a c len s) = s;
  loader_call_keeps_good :
    forall n s, good s -> good (snd (LdrGetDllHandleByName api n s));
  allocation_reports_alike :
    forall a len1 len2 s,
      good s ->
      let q1 := fst (NtQueryVirtualMemory api NtCurrentProcess a
                       MemoryMappedFilenameInformation len1 s) in
      let q2 := fst (NtQueryVirtualMemory api NtCurrentProcess a
                       MemoryBasicInformation len2 s) in
      NT_SUCCESS (fst q1) = true ->
      NT_SUCCESS (fst q2) = true ->
      let b := AllocationBase (snd q2) in
      let q1' := fst (NtQueryVirtualMemory api NtCurrentProcess b
                        MemoryMappedFilenameInformation len1 s) in
      let q2' := fst (NtQueryVirtualMemory api NtCurrentProcess b
                        MemoryBasicInformation len2 s) in
      q1' = q1 /\ NT_SUCCESS (fst q2') = true /\
      Type_ (snd q2') = Type_ (snd q2)
}.

(** ** Further sample kernels for the locator *)

Module RefLocator.

(** No two allocations of the address space overlap; nothing is said of
    the loader table. *)
Definition coherent (k : Ref.Kernel) : Prop :=
  Ref.disjoint_regions (Ref.address_space k) = true.

Definition syswow64_path : UNICODE_STRING :=
  wide "\Device\HarddiskVolume2\Windows\SysWOW64\ntdll.dll".



(** The sample kernel with a loader table that is out of date: under
    "ntdll.dll" it names the base of the private allocation at
    0x7F6F0000. *)
Definition stale : Ref.Kernel :=
  {| Ref.address_space := Ref.sample_space;
     Ref.loader_table := [(wide "ntdll.dll", 0x7F6F0000)];
     Ref.processes := Ref.sample_processes;
     Ref.protect_budget := None |}.

(** An address space in which the native ntdll.dll is mapped at
    0x6F000000, below the scanned range, and the 32-bit one inside it. *)
Definition low_space : list Ref.Region :=
  [ {| Ref.rg_base := 0x00400000; Ref.rg_size := 0x21000;
       Ref.rg_type := MEM_IMAGE; Ref.rg_protect := PAGE_EXECUTE_READ;
       Ref.rg_file := Some (wide "\Device\HarddiskVolume2\Apps\setup.exe") |};
    {| Ref.rg_base := 0x6F000000; Ref.rg_size := 0x1A9000;
       Ref.rg_type := MEM_IMAGE; Ref.rg_protect := PAGE_EXECUTE_READ;
       Ref.rg_file := Some Ref.ntdll_path |};
    {| Ref.rg_base := 0x77C20000; Ref.rg_size := 0x180000;
       Ref.rg_type := MEM_IMAGE; Ref.rg_protect := PAGE_EXECUTE_READ;
       Ref.rg_file := Some syswow64_path |};
    {| Ref.rg_base := 0x7F6F0000; Ref.rg_size := 0x100000;
       Ref.rg_type := MEM_PRIVATE; Ref.rg_protect := PAGE_READWRITE;
       Ref.rg_file := None |};
    {| Ref.rg_base := 0x7FFB0000; Ref.rg_size := 0x23000;
       Ref.rg_type := MEM_MAPPED; Ref.rg_protect := PAGE_READONLY;
       Ref.rg_file :=
         Some (wide "\Device\HarddiskVolume2\Windows\System32\locale.nls") |} ].

Definition low : Ref.Kernel :=
  {| Ref.address_space := low_space;
     Ref.loader_table := [(wide "ntdll.dll", 0x77C20000)];
     Ref.processes := Ref.sample_processes;
     Ref.protect_budget := None |}.

End RefLocator.

(* ===================================================================== *)
(** * Part II.  Properties                                                *)
(* ===================================================================== *)

(** Unfolding one routine down to the kernel transitions it performs. *)
Ltac unfold_calls :=
  unfold sys_LdrGetDllHandleByName, sys_NtQueryVirtualMemory,
    sys_NtQueryInformationProcess, sys_NtProtectVirtualMemory,
    sys_NtWriteVirtualMemory, syscall, bind, ret in *.

(** ** KexRtlRemoteProcessBitness *)

(** C2.  For every process handle, KexRtlRemoteProcessBitness returns 32
    or 64.  On a 32-bit operating system it returns 32 and makes no call
    at all.  Otherwise it makes exactly one query for the WOW64
    information of the process and returns 32 exactly when that query
    succeeds with a non-zero value; it returns 64 exactly when the query
    fails or yields zero. *)
Theorem KexRtlRemoteProcessBitness_spec :
  forall (St : Type) (api : NtApi St) (host : Host) (P : HANDLE)
         (w : World St),
    let r := KexRtlRemoteProcessBitness api host P w in
    let q := NtQueryInformationProcess api P ProcessWow64Information
               (sizeof_ULONG_PTR host) (kernel w) in
    (fst r = 32 \/ fst r = 64) /\
    (KexRtlOperatingSystemBitness host = 32 -> fst r = 32 /\ snd r = w) /\
    (KexRtlOperatingSystemBitness host <> 32 ->
       (fst r = 32 <-> NT_SUCCESS (fst (fst q)) = true /\ snd (fst q) <> 0) /\
       (fst r = 64 <-> NT_SUCCESS (fst (fst q)) = false \/ snd (fst q) = 0) /\
       kernel (snd r) = snd q /\
       calls (snd r) =
         calls w ++ [(SysQueryInformationProcess P ProcessWow64Information
                        (sizeof_ULONG_PTR host), fst (fst q))]).
Proof.
  intros St api host P w r q. subst r q.
  unfold KexRtlRemoteProcessBitness.
  destruct (KexRtlOperatingSystemBitness host =? 32) eqn:Hos.
  - apply Z.eqb_eq in Hos. unfold ret; simpl.
    repeat split; auto; intros; congruence.
  - apply Z.eqb_neq in Hos. unfold_calls.
    destruct (NtQueryInformationProcess api P ProcessWow64Information
                (sizeof_ULONG_PTR host) (kernel w)) as [[Status Peb32] s'].
    simpl.
    destruct (NT_SUCCESS Status) eqn:Hst; simpl;
      [destruct (Peb32 =? 0) eqn:Hpeb; simpl;
       [apply Z.eqb_eq in Hpeb | apply Z.eqb_neq in Hpeb] |];
      (split; [auto | split; [intros; congruence | intros _]]);
      repeat split; auto; intros; try lia; try congruence;
      intuition (try lia; try congruence).
Qed.

(** The statement of C2 on the sample kernel: a native process, a WOW64
    process and an invalid handle on a 64-bit system; any handle on a
    32-bit system. *)
Lemma KexRtlRemoteProcessBitness_witness :
  fst (KexRtlRemoteProcessBitness Ref.api Ref.wow64 7 (Ref.boot Ref.sample)) = 64 /\
  fst (KexRtlRemoteProcessBitness Ref.api Ref.wow64 8 (Ref.boot Ref.sample)) = 32 /\
  fst (KexRtlRemoteProcessBitness Ref.api Ref.wow64 9 (Ref.boot Ref.sample)) = 64 /\
  KexRtlRemoteProcessBitness Ref.api Ref.native32 8 (Ref.boot Ref.sample)
    = (32, Ref.boot Ref.sample).
Proof.
  pose proof (KexRtlRemoteProcessBitness_spec Ref.Kernel Ref.api Ref.wow64 7
                (Ref.boot Ref.sample)) as H7.
  pose proof (KexRtlRemoteProcessBitness_spec Ref.Kernel Ref.api Ref.wow64 8
                (Ref.boot Ref.sample)) as H8.
  pose proof (KexRtlRemoteProcessBitness_spec Ref.Kernel Ref.api Ref.wow64 9
                (Ref.boot Ref.sample)) as H9.
  pose proof (KexRtlRemoteProcessBitness_spec Ref.Kernel Ref.api Ref.native32 8
                (Ref.boot Ref.sample)) as H32.
  cbv zeta in H7, H8, H9, H32.
  destruct H7 as (_ & _ & H7), H8 as (_ & _ & H8), H9 as (_ & _ & H9),
           H32 as (_ & H32 & _).
  destruct (H7 ltac:(vm_compute; discriminate)) as (_ & H7' & _).
  destruct (H8 ltac:(vm_compute; discriminate)) as (H8' & _).
  destruct (H9 ltac:(vm_compute; discriminate)) as (_ & H9' & _).
  destruct (H32 eq_refl) as (Ha & Hb).
  split; [apply H7'; right; reflexivity |].
  split; [apply H8'; split; [reflexivity | vm_compute; discriminate] |].
  split; [apply H9'; left; reflexivity |].
  rewrite <- Ha at 1. rewrite <- Hb at 2. apply surjective_pairing.
Defined.

(** ** The reference kernel honours the memory contract *)

Lemma ref_page_bounds (a size : Z) :
  0 < size ->
  Ref.first_page a * Ref.PAGE_SIZE <= a /\
  a + size <= (Ref.last_page a size + 1) * Ref.PAGE_SIZE /\
  Ref.first_page a <= Ref.last_page a size.
Proof.
  intros Hs. unfold Ref.first_page, Ref.last_page, Ref.PAGE_SIZE.
  pose proof (Z.div_mod a 4096 ltac:(lia)).
  pose proof (Z.mod_pos_bound a 4096 ltac:(lia)).
  pose proof (Z.div_mod (a + size - 1) 4096 ltac:(lia)).
  pose proof (Z.mod_pos_bound (a + size - 1) 4096 ltac:(lia)).
  assert (a / 4096 <= (a + size - 1) / 4096)
    by (apply Z.div_le_mono; lia).
  lia.
Qed.

Lemma ref_page_of (x lo hi : Z) :
  lo * Ref.PAGE_SIZE <= x < (hi + 1) * Ref.PAGE_SIZE ->
  lo <= x / Ref.PAGE_SIZE <= hi.
Proof.
  unfold Ref.PAGE_SIZE. intros [H1 H2]. split.
  - apply Z.div_le_lower_bound; lia.
  - assert (x / 4096 < hi + 1) by (apply Z.div_lt_upper_bound; lia). lia.
Qed.

Lemma ref_protect_success h a size p k st a' size' old k' :
  Ref.protect_virtual_memory h a size p k = ((st, (a', size', old)), k') ->
  NT_SUCCESS st = true ->
  exists pr,
    Ref.processes k h = Some pr /\
    0 < size /\
    forallb (Ref.committed pr) (Ref.pages_of a size) = true /\
    a' = Ref.first_page a * Ref.PAGE_SIZE /\
    size' = (Ref.last_page a size - Ref.first_page a + 1) * Ref.PAGE_SIZE /\
    old = match Ref.page_protection pr (Ref.first_page a) with
          | Some q => q | None => 0 end /\
    Ref.processes k' h =
      Some {| Ref.wow64_peb := Ref.wow64_peb pr;
              Ref.page_protection := fun pg =>
                if (Ref.first_page a <=? pg) && (pg <=? Ref.last_page a size)
                then Some p else Ref.page_protection pr pg;
              Ref.contents := Ref.contents pr |} /\
    (forall h', h' <> h -> Ref.processes k' h' = Ref.processes k h').
Proof.
  unfold Ref.protect_virtual_memory. intros H Hst.
  repeat case_match; simplify_eq; try discriminate Hst.
  all: eexists; repeat split; try reflexivity; try lia.
  all: try (simpl; rewrite Z.eqb_refl; reflexivity).
  all: try (intros h' Hne; simpl; apply Z.eqb_neq in Hne; rewrite Hne; reflexivity).
  all: repeat match goal with
              | H : Ref.page_protection _ _ = _ |- _ => rewrite H
              end; auto.
Qed.

Lemma ref_write_success h dst src cb k st k' :
  Ref.write_virtual_memory h dst src cb k = (st, k') ->
  NT_SUCCESS st = true ->
  forall i, 0 <= i < cb ->
    Ref.byte_at k' h (dst + i) = Ref.byte_at k NtCurrentProcess (src + i).
Proof.
  unfold Ref.write_virtual_memory, Ref.byte_at. intros H Hst i Hi.
  repeat case_match; simplify_eq; try discriminate Hst; try lia.
  all: simpl in *; rewrite Z.eqb_refl in *; simplify_eq; simpl.
  all: replace ((dst <=? dst + i) && (dst + i <? dst + cb)) with true
         by (symmetry; apply andb_true_iff; split; [apply Z.leb_le | apply Z.ltb_lt]; lia).
  all: f_equal; f_equal; lia.
Qed.

Lemma ref_write_keeps_protection h dst src cb k st k' :
  Ref.write_virtual_memory h dst src cb k = (st, k') ->
  forall h' x, Ref.protection_at k' h' x = Ref.protection_at k h' x.
Proof.
  unfold Ref.write_virtual_memory, Ref.protection_at. intros H h' x.
  repeat case_match; simplify_eq; auto.
  all: simpl in *.
  all: repeat match goal with
              | H : context [?a =? ?b] |- _ => destruct (Z.eqb_spec a b); simplify_eq
              end; auto.
Qed.

Lemma ref_protect_keeps_bytes h a size p k r k' :
  Ref.protect_virtual_memory h a size p k = (r, k') ->
  forall h' x, Ref.byte_at k' h' x = Ref.byte_at k h' x.
Proof.
  unfold Ref.protect_virtual_memory, Ref.byte_at. intros H h' x.
  repeat case_match; simplify_eq; auto.
  all: simpl in *.
  all: repeat match goal with
              | H : context [?a =? ?b] |- _ => destruct (Z.eqb_spec a b); simplify_eq
              end; auto.
Qed.

Lemma ref_memory_contract :
  MemoryContract Ref.api Ref.protection_at Ref.byte_at.
Proof.
  split.
  - intros h a size p s st a' size' old s' H Hst Hsize.
    destruct (ref_protect_success _ _ _ _ _ _ _ _ _ _ H Hst)
      as (pr & _ & _ & _ & -> & -> & _).
    pose proof (ref_page_bounds a size Hsize). lia.
  - intros h a size p s st a' size' old s' H Hst x Hx.
    destruct (ref_protect_success _ _ _ _ _ _ _ _ _ _ H Hst)
      as (pr & _ & Hsize & _ & -> & -> & _ & Hp & _).
    unfold Ref.protection_at. rewrite Hp. simpl.
    assert (Ref.first_page a <= x / Ref.PAGE_SIZE <= Ref.last_page a size)
      by (apply ref_page_of; lia).
    replace ((Ref.first_page a <=? x / Ref.PAGE_SIZE)
             && (x / Ref.PAGE_SIZE <=? Ref.last_page a size)) with true; auto.
    symmetry; apply andb_true_iff; split; apply Z.leb_le; lia.
  - intros h a size p s st a' size' old s' H Hst Hsize.
    destruct (ref_protect_success _ _ _ _ _ _ _ _ _ _ H Hst)
      as (pr & Hpr & _ & Hall & _ & _ & -> & _).
    unfold Ref.protection_at. rewrite Hpr.
    rewrite forallb_forall in Hall.
    assert (Hin : In (Ref.first_page a) (Ref.pages_of a size)).
    { apply list_elem_of_In, elem_of_seqZ.
      pose proof (ref_page_bounds a size Hsize). lia. }
    apply Hall in Hin. unfold Ref.committed in Hin.
    fold (Ref.first_page a).
    destruct (Ref.page_protection pr (Ref.first_page a)); [reflexivity | discriminate].
  - apply ref_protect_keeps_bytes.
  - apply ref_write_success.
  - apply ref_write_keeps_protection.
Qed.


(** ** KexRtlWriteProcessMemory *)

(** The routine, call by call. *)
Lemma KexRtlWriteProcessMemory_run {St} (api : NtApi St)
  (h : HANDLE) (Dest : Z) (Src : PVOID) (Cb : Z) (w : World St)
  st1 a' size' old s1 :
  NtProtectVirtualMemory api h Dest Cb PAGE_READWRITE (kernel w)
    = ((st1, (a', size', old)), s1) ->
  KexRtlWriteProcessMemory api h Dest Src Cb w =
    if NT_SUCCESS st1 then
      let wr := NtWriteVirtualMemory api h Dest Src Cb s1 in
      let p2 := NtProtectVirtualMemory api h a' size' old (snd wr) in
      (fst wr,
       mkWorld (snd p2)
         (calls w ++ [(SysProtectVirtualMemory h Dest Cb PAGE_READWRITE, st1);
                      (SysWriteVirtualMemory h Dest Src Cb, fst wr);
                      (SysProtectVirtualMemory h a' size' old, fst (fst p2))]))
    else
      (st1,
       mkWorld s1
         (calls w ++ [(SysProtectVirtualMemory h Dest Cb PAGE_READWRITE, st1)])).
Proof.
  intros H1. unfold KexRtlWriteProcessMemory. unfold_calls.
  rewrite H1. simpl.
  destruct (NT_SUCCESS st1); simpl; [| reflexivity].
  destruct (NtWriteVirtualMemory api h Dest Src Cb s1) as [st2 s2]. simpl.
  destruct (NtProtectVirtualMemory api h a' size' old s2) as [[st3 out] s3].
  simpl. rewrite <- !app_assoc. reflexivity.
Qed.

(** C7.  If the first protection change fails, KexRtlWriteProcessMemory
    returns that status at once: the protection change is the only call
    made, so no write and no restore take place and the kernel is left as
    that failed call left it.  If it succeeds, the write is made, then the
    previous protection captured by the first call is restored whatever
    the status of the write was, and the routine returns the status of the
    write whatever the status of the restore was. *)
Theorem KexRtlWriteProcessMemory_error_path :
  forall (St : Type) (api : NtApi St) (h : HANDLE) (Dest : Z) (Src : PVOID)
         (Cb : Z) (w : World St) st1 a' size' old s1,
    NtProtectVirtualMemory api h Dest Cb PAGE_READWRITE (kernel w)
      = ((st1, (a', size', old)), s1) ->
    (NT_SUCCESS st1 = false ->
       KexRtlWriteProcessMemory api h Dest Src Cb w =
         (st1,
          mkWorld s1
            (calls w ++
               [(SysProtectVirtualMemory h Dest Cb PAGE_READWRITE, st1)]))) /\
    (NT_SUCCESS st1 = true ->
       forall st2 s2 st3 out s3,
         NtWriteVirtualMemory api h Dest Src Cb s1 = (st2, s2) ->
         NtProtectVirtualMemory api h a' size' old s2 = ((st3, out), s3) ->
         KexRtlWriteProcessMemory api h Dest Src Cb w =
           (st2,
            mkWorld s3
              (calls w ++
                 [(SysProtectVirtualMemory h Dest Cb PAGE_READWRITE, st1);
                  (SysWriteVirtualMemory h Dest Src Cb, st2);
                  (SysProtectVirtualMemory h a' size' old, st3)]))).
Proof.
  intros St api h Dest Src Cb w st1 a' size' old s1 H1.
  rewrite (KexRtlWriteProcessMemory_run api h Dest Src Cb w _ _ _ _ _ H1).
  split; intros Hst; rewrite Hst; [reflexivity |].
  intros st2 s2 st3 out s3 H2 H3. simpl. rewrite H2. simpl. rewrite H3.
  reflexivity.
Qed.

(** C7 at work: a destination that is not committed makes the first call
    fail and nothing else happens; on a kernel that refuses the restore,
    the status of the successful write is returned all the same. *)
Lemma KexRtlWriteProcessMemory_error_path_witness :
  KexRtlWriteProcessMemory Ref.api 7 0x402234 0x500000 4 (Ref.boot Ref.sample)
    = (Ref.STATUS_NOT_COMMITTED,
       mkWorld Ref.sample
         [(SysProtectVirtualMemory 7 0x402234 4 PAGE_READWRITE,
           Ref.STATUS_NOT_COMMITTED)]) /\
  fst (KexRtlWriteProcessMemory Ref.api 7 0x401234 0x500000 4
         (Ref.boot Ref.stingy)) = STATUS_SUCCESS /\
  calls (snd (KexRtlWriteProcessMemory Ref.api 7 0x401234 0x500000 4
                (Ref.boot Ref.stingy)))
    = [(SysProtectVirtualMemory 7 0x401234 4 PAGE_READWRITE, STATUS_SUCCESS);
       (SysWriteVirtualMemory 7 0x401234 0x500000 4, STATUS_SUCCESS);
       (SysProtectVirtualMemory 7 0x401000 0x1000 PAGE_READONLY,
        STATUS_ACCESS_VIOLATION)].
Proof.
  split.
  - refine (proj1 (KexRtlWriteProcessMemory_error_path Ref.Kernel Ref.api
                     7 0x402234 0x500000 4 (Ref.boot Ref.sample)
                     Ref.STATUS_NOT_COMMITTED 0x402234 4 0 Ref.sample _) _);
      reflexivity.
  - pose proof (proj2 (KexRtlWriteProcessMemory_error_path Ref.Kernel Ref.api
                     7 0x401234 0x500000 4 (Ref.boot Ref.stingy)
                     STATUS_SUCCESS 0x401000 0x1000 PAGE_READONLY _ eq_refl)
                  eq_refl _ _ _ _ _ eq_refl eq_refl) as H.
    rewrite H. split; reflexivity.
Defined.

(** C10.  Whenever the first protection change succeeds, the restoring
    call of KexRtlWriteProcessMemory is the last call made, and it is made
    for the base and size that the first call reported back and with the
    old protection that the first call captured.  That range need not be
    the caller's: on the sample kernel a request for 4 bytes at 0x401234
    is restored as the whole page at 0x401000. *)
Theorem KexRtlWriteProcessMemory_restores_reported_range :
  (forall (St : Type) (api : NtApi St) (h : HANDLE) (Dest : Z) (Src : PVOID)
          (Cb : Z) (w : World St) st1 a' size' old s1,
      NtProtectVirtualMemory api h Dest Cb PAGE_READWRITE (kernel w)
        = ((st1, (a', size', old)), s1) ->
      NT_SUCCESS st1 = true ->
      exists st3,
        last (calls (snd (KexRtlWriteProcessMemory api h Dest Src Cb w)))
          = Some (SysProtectVirtualMemory h a' size' old, st3)) /\
  last (calls (snd (KexRtlWriteProcessMemory Ref.api 7 0x401234 0x500000 4
                      (Ref.boot Ref.sample))))
    = Some (SysProtectVirtualMemory 7 0x401000 0x1000 PAGE_READONLY,
            STATUS_SUCCESS).
Proof.
  split; [| reflexivity].
  intros St api h Dest Src Cb w st1 a' size' old s1 H1 Hst.
  rewrite (KexRtlWriteProcessMemory_run api h Dest Src Cb w _ _ _ _ _ H1).
  rewrite Hst. simpl. eexists.
  rewrite last_app. reflexivity.
Qed.

(** C10 on the sample kernel, through the general statement. *)
Lemma KexRtlWriteProcessMemory_restores_reported_range_witness :
  exists st3,
    last (calls (snd (KexRtlWriteProcessMemory Ref.api 7 0x401234 0x500000 4
                        (Ref.boot Ref.sample))))
      = Some (SysProtectVirtualMemory 7 0x401000 0x1000 PAGE_READONLY, st3).
Proof.
  exact (proj1 KexRtlWriteProcessMemory_restores_reported_range
           Ref.Kernel Ref.api 7 0x401234 0x500000 4 (Ref.boot Ref.sample)
           STATUS_SUCCESS 0x401000 0x1000 PAGE_READONLY _ eq_refl eq_refl).
Defined.




(** ** Counted strings *)

Lemma wstr_eqb_true (f : WCHAR -> WCHAR) (a b : list WCHAR) :
  wstr_eqb f a b = true <-> map f a = map f b.
Proof.
  revert b. induction a as [| x a IH]; intros [| y b]; simpl;
    try (split; [reflexivity || discriminate | reflexivity || discriminate]).
  rewrite andb_true_iff, Z.eqb_eq, IH. split.
  - intros [-> ->]. reflexivity.
  - intros H. injection H as H1 H2. auto.
Qed.

(** What KexRtlUnicodeStringEndsWith decides, case ignored. *)
Lemma KexRtlUnicodeStringEndsWith_suffix_ci (up : WCHAR -> WCHAR)
  (String EndsWith : UNICODE_STRING) :
  KexRtlUnicodeStringEndsWith up String EndsWith true = true <->
  suffix_ci up String EndsWith.
Proof.
  unfold KexRtlUnicodeStringEndsWith, KexRtlUnicodeStringCch,
    RtlEqualUnicodeString, suffix_ci.
  destruct (Z.ltb_spec (Z.of_nat (length String) - Z.of_nat (length EndsWith)) 0)
    as [Hlt | Hge].
  - split; [discriminate |].
    intros (front & back & -> & Hmap).
    apply (f_equal (@length _)) in Hmap. rewrite !length_map in Hmap.
    rewrite length_app in Hlt. lia.
  - rewrite wstr_eqb_true.
    replace (Z.to_nat (Z.of_nat (length String) - Z.of_nat (length EndsWith)))
      with (length String - length EndsWith)%nat by lia.
    assert (Hlen : length (skipn (length String - length EndsWith) String)
                   = length EndsWith) by (rewrite length_skipn; lia).
    rewrite firstn_all2 by lia.
    split.
    + intros Hmap.
      exists (firstn (length String - length EndsWith) String),
             (skipn (length String - length EndsWith) String).
      split; [symmetry; apply firstn_skipn | exact Hmap].
    + intros (front & back & -> & Hmap).
      assert (length back = length EndsWith)
        by (apply (f_equal (@length _)) in Hmap;
            rewrite !length_map in Hmap; exact Hmap).
      rewrite length_app.
      replace (length front + length back - length EndsWith)%nat
        with (length front) by lia.
      rewrite drop_app_length. exact Hmap.
Qed.

Lemma suffix_ci_same_upcase (up : WCHAR -> WCHAR) (path a b : UNICODE_STRING) :
  map up a = map up b -> suffix_ci up path a -> suffix_ci up path b.
Proof.
  intros Hab (front & back & -> & Hmap).
  exists front, back. split; [reflexivity | congruence].
Qed.

(** ** Pointer-sized arithmetic *)

Lemma ULONG_PTR_small (host : Host) (x : Z) :
  0 <= x < 2 ^ 32 -> ULONG_PTR host x = x.
Proof.
  intros Hx. unfold ULONG_PTR, KexRtlCurrentProcessBitness.
  apply Z.mod_small.
  destruct (CurrentProcess host); simpl bitness_value; lia.
Qed.

(** ** KexRtlGetNativeSystemDllBase *)

Section Locator.

Context {St : Type}.
Variable api : NtApi St.
Variable host : Host.
Variable up : WCHAR -> WCHAR.

(** One probe, case by case. *)
Lemma probe_run (a : PVOID) (w : World St) :
  probe api host up a w =
    if negb (NT_SUCCESS (fst (fst (name_query api a w)))) then
      (Continue a,
       mkWorld (snd (name_query api a w)) (calls w ++ [name_event api a w]))
    else
      let w2 := mkWorld (snd (basic_query api host a w))
                  (calls w ++ [name_event api a w; basic_event api host a w]) in
      if negb (NT_SUCCESS (fst (fst (basic_query api host a w)))) then
        (Continue a, w2)
      else
        let b := ULONG_PTR host (AllocationBase (snd (fst (basic_query api host a w)))) in
        if negb (Type_ (snd (fst (basic_query api host a w))) =? MEM_IMAGE) then
          (Continue b, w2)
        else if KexRtlUnicodeStringEndsWith up (snd (fst (name_query api a w)))
                  NtdllPathFragment true then
          (Return b, w2)
        else
          (Continue b, w2).
Proof.
  unfold probe, name_event, basic_event, basic_query, name_query.
  unfold_calls.
  destruct (NtQueryVirtualMemory api NtCurrentProcess a
              MemoryMappedFilenameInformation MappedFileNameLength (kernel w))
    as [[st1 name] s1]. simpl.
  destruct (NT_SUCCESS st1); simpl; [| reflexivity].
  destruct (NtQueryVirtualMemory api NtCurrentProcess a MemoryBasicInformation
              (sizeof_MEMORY_BASIC_INFORMATION host) s1) as [[st2 info] s2].
  simpl. rewrite <- !app_assoc. simpl.
  destruct (NT_SUCCESS st2); simpl; [| reflexivity].
  destruct (Type_ info =? MEM_IMAGE); simpl; [| reflexivity].
  destruct (KexRtlUnicodeStringEndsWith up name NtdllPathFragment true);
    reflexivity.
Qed.

(** Under the allocation-base contract a probe hands on an address that
    is in user space and not above the probed one. *)
Lemma probe_candidate_below (a : PVOID) (w : World St) :
  AllocationBaseContract api ->
  MM_LOWEST_USER_ADDRESS <= a < 2 ^ 32 ->
  match fst (probe api host up a w) with
  | Continue c | Return c => MM_LOWEST_USER_ADDRESS <= c <= a
  end.
Proof.
  intros HC Ha. rewrite probe_run.
  pose proof (HC a MappedFileNameLength
                (sizeof_MEMORY_BASIC_INFORMATION host) (kernel w)) as Hb.
  cbv zeta in Hb. fold (name_query api a w) in Hb. fold (basic_query api host a w) in Hb.
  destruct (NT_SUCCESS (fst (fst (name_query api a w)))); simpl; [| lia].
  match goal with
  | |- context [negb (NT_SUCCESS ?x)] => destruct (NT_SUCCESS x) eqn:Hst2
  end; simpl; [| lia].
  specialize (Hb eq_refl Hst2). cbn [MemoryInformation] in *.
  rewrite ULONG_PTR_small by (unfold MM_LOWEST_USER_ADDRESS in *; lia).
  destruct (Type_ _ =? MEM_IMAGE); simpl; [| lia].
  destruct (KexRtlUnicodeStringEndsWith _ _ _ _); simpl; lia.
Qed.


End Locator.



(** The reference kernel honours the allocation-base contract. *)
Lemma ref_region_at_in (k : Ref.Kernel) (a : Z) (r : Ref.Region) :
  Ref.region_at k a = Some r ->
  In r (Ref.address_space k) /\
  MM_LOWEST_USER_ADDRESS <= Ref.rg_base r <= a /\
  a < Ref.rg_base r + Ref.rg_size r.
Proof.
  unfold Ref.region_at. intros H. apply find_some in H as [Hin Hr].
  unfold Ref.in_region in Hr.
  apply andb_true_iff in Hr as [Hr H3]. apply andb_true_iff in Hr as [H1 H2].
  apply Z.leb_le in H1, H2. apply Z.ltb_lt in H3. auto.
Qed.

Lemma ref_query_name_success (k : Ref.Kernel) (a len : Z) :
  NT_SUCCESS (fst (Ref.query_mapped_filename k a len)) = true ->
  exists r f,
    Ref.region_at k a = Some r /\ Ref.rg_file r = Some f /\
    Ref.query_mapped_filename k a len = (STATUS_SUCCESS, f).
Proof.
  unfold Ref.query_mapped_filename.
  destruct (Ref.region_at k a) as [r |]; [| discriminate].
  destruct (Ref.rg_file r) as [f |] eqn:Hf; [| discriminate].
  destruct (len <? _); [discriminate |]. intros _.
  exists r, f. auto.
Qed.

Lemma ref_allocation_base_contract : AllocationBaseContract Ref.api.
Proof.
  intros a len1 len2 s. simpl. intros H1 _.
  apply ref_query_name_success in H1 as (r & f & Hr & _ & _).
  unfold Ref.query_basic. rewrite Hr. simpl.
  apply ref_region_at_in in Hr. lia.
Qed.


Section NotFound.

Context {St : Type}.
Variable api : NtApi St.
Variable host : Host.
Variable up : WCHAR -> WCHAR.
Variable inv : St -> Prop.

(** When no probe of the range matches, the loop runs to the end of the
    range. *)
Lemma scan_exhausts (fuel : nat) :
  AllocationBaseContract api ->
  (forall a w0, 0x70000000 < a <= 0x7FFD0000 -> inv (kernel w0) ->
     inv (kernel (snd (probe api host up a w0))) /\
     forall b, fst (probe api host up a w0) <> Return b) ->
  forall (a : Z) (w : World St),
    inv (kernel w) ->
    a <= 0x7FFD0000 ->
    a - 0x70000000 <= 0x10000 * Z.of_nat fuel ->
    fst (scan api host up fuel a w) = Exhausted.
Proof.
  intros HC Hquiet.
  induction fuel as [| fuel IH]; intros a w Hinv Hhi Hfuel; simpl.
  - destruct (Z.gtb_spec a 0x70000000); [lia | reflexivity].
  - destruct (Z.gtb_spec a 0x70000000) as [Hgt | Hle]; [| reflexivity].
    unfold bind.
    pose proof (probe_candidate_below api host up a w HC
                  ltac:(unfold MM_LOWEST_USER_ADDRESS; lia)) as Hc.
    destruct (Hquiet a w (conj Hgt Hhi) Hinv) as [Hinv' Hno].
    destruct (probe api host up a w) as [[c | b] w1]; simpl in *;
      [| exfalso; exact (Hno b eq_refl)].
    unfold MM_LOWEST_USER_ADDRESS in Hc.
    rewrite ULONG_PTR_small by lia.
    apply IH; [exact Hinv' | lia | lia].
Qed.

End NotFound.

(** C6.  Let the kernel honour the allocation-base contract and let [inv]
    describe kernel states, kept by the loader call and by the probes of
    the scanned range, in which no probe at an address above 0x70000000
    and not above 0x7FFD0000 ends with a match; nothing is asked of the
    addresses outside that range.  If KexRtlGetNativeSystemDllBase starts
    in such a state and the loader does not supply the base (the widths
    differ or the loader call fails), the routine returns, and what it
    returns is NULL. *)
Theorem KexRtlGetNativeSystemDllBase_not_found :
  forall (St : Type) (api : NtApi St) (host : Host) (up : WCHAR -> WCHAR)
         (inv : St -> Prop) (fuel : nat) (w : World St),
    AllocationBaseContract api ->
    (forall a w0, 0x70000000 < a <= 0x7FFD0000 -> inv (kernel w0) ->
       inv (kernel (snd (probe api host up a w0))) /\
       forall b, fst (probe api host up a w0) <> Return b) ->
    (forall s, inv s -> inv (snd (LdrGetDllHandleByName api NtdllBaseName s))) ->
    inv (kernel w) ->
    (4093 <= fuel)%nat ->
    KexRtlCurrentProcessBitness host <> KexRtlOperatingSystemBitness host \/
    NT_SUCCESS (fst (fst (LdrGetDllHandleByName api NtdllBaseName (kernel w))))
      = false ->
    fst (KexRtlGetNativeSystemDllBase api host up fuel w) = Some NULL.
Proof.
  intros St api host up inv fuel w HC Hquiet Hldr Hinv Hfuel Hslow.
  assert (Hsearch : forall w0, inv (kernel w0) ->
                               fst (search api host up fuel w0) = Some NULL).
  { intros w0 Hw0. unfold search, bind, ret.
    pose proof (scan_exhausts api host up inv fuel HC Hquiet 0x7FFD0000 w0 Hw0
                  ltac:(lia) ltac:(lia)) as He.
    destruct (scan api host up fuel 0x7FFD0000 w0) as [e w1].
    simpl in He. subst e. reflexivity. }
  unfold KexRtlGetNativeSystemDllBase.
  destruct (Z.eqb_spec (KexRtlCurrentProcessBitness host)
                       (KexRtlOperatingSystemBitness host)) as [Heq | Hne];
    [| apply Hsearch, Hinv].
  destruct Hslow as [Hne | Hfail]; [contradiction |].
  unfold_calls. specialize (Hldr (kernel w) Hinv).
  destruct (LdrGetDllHandleByName api NtdllBaseName (kernel w))
    as [[st b] s1]. simpl in *. rewrite Hfail.
  apply Hsearch. exact Hldr.
Qed.

(** On the reference kernel a probe leaves the kernel as it is, and a
    probe that ends with a match has found the probed address in an
    allocation whose file name ends with the path fragment. *)
Lemma ref_probe_matches (host : Host) (a : Z) (w0 : World Ref.Kernel) :
  kernel (snd (probe Ref.api host Ref.upcase a w0)) = kernel w0 /\
  forall b, fst (probe Ref.api host Ref.upcase a w0) = Return b ->
    exists r f,
      In r (Ref.address_space (kernel w0)) /\
      Ref.rg_base r <= a < Ref.rg_base r + Ref.rg_size r /\
      Ref.rg_type r = MEM_IMAGE /\
      Ref.rg_file r = Some f /\
      KexRtlUnicodeStringEndsWith Ref.upcase f NtdllPathFragment true = true.
Proof.
  rewrite probe_run. unfold basic_query, name_query. simpl.
  unfold Ref.query_mapped_filename, Ref.query_basic.
  destruct (Ref.region_at (kernel w0) a) as [r |] eqn:Hr; simpl;
    [| split; [reflexivity | discriminate]].
  destruct (Ref.rg_file r) as [f |] eqn:Hf; simpl;
    [| split; [reflexivity | discriminate]].
  destruct (MappedFileNameLength <? _); simpl;
    [split; [reflexivity | discriminate] |].
  destruct (Ref.rg_type r =? MEM_IMAGE) eqn:Hty; simpl;
    [| split; [reflexivity | discriminate]].
  destruct (KexRtlUnicodeStringEndsWith Ref.upcase f NtdllPathFragment true)
    eqn:Hends; simpl; [| split; [reflexivity | discriminate]].
  split; [reflexivity |]. intros b _.
  apply ref_region_at_in in Hr as (Hin & Hlo & Hhi).
  apply Z.eqb_eq in Hty.
  exists r, f. repeat split; [exact Hin | lia | exact Hhi | exact Hty |
                              exact Hf | exact Hends].
Qed.

(** In the address space [RefLocator.low_space] no probe of the scanned
    range matches: the native ntdll.dll lies below the range, and the
    file names of the allocations inside it do not end with the
    fragment. *)
Lemma ref_low_quiet (host : Host) (a : Z) (w0 : World Ref.Kernel) :
  0x70000000 < a <= 0x7FFD0000 ->
  Ref.address_space (kernel w0) = RefLocator.low_space ->
  Ref.address_space (kernel (snd (probe Ref.api host Ref.upcase a w0)))
  = RefLocator.low_space /\
  forall b, fst (probe Ref.api host Ref.upcase a w0) <> Return b.
Proof.
  intros Ha Hspace.
  destruct (ref_probe_matches host a w0) as [Hk Hmatch].
  split; [rewrite Hk; exact Hspace |].
  intros b Hb.
  destruct (Hmatch b Hb) as (r & f & Hin & Hat & _ & Hf & Hends).
  rewrite Hspace in Hin. unfold RefLocator.low_space in Hin. simpl in Hin.
  destruct Hin as [<- | [<- | [<- | [<- | [<- | []]]]]]; simpl in Hat, Hf;
    try lia; try discriminate;
    injection Hf as <-; vm_compute in Hends; discriminate.
Qed.

Lemma ref_loader_keeps_space (n : UNICODE_STRING) (k : Ref.Kernel) :
  snd (LdrGetDllHandleByName Ref.api n k) = k.
Proof.
  simpl. unfold Ref.get_dll_handle_by_name. destruct (find _ _); reflexivity.
Qed.

(** What the sample kernel [RefLocator.low] holds: the native ntdll.dll is
    an image at 0x6F000000 whose file name ends with the fragment. *)
Lemma ref_low_holds_native_image :
  image_named Ref.api Ref.wow64 Ref.upcase RefLocator.low 0x6F000000
    NtdllPathFragment.
Proof.
  unfold image_named. cbv zeta.
  repeat split; try (vm_compute; reflexivity).
  apply KexRtlUnicodeStringEndsWith_suffix_ci. vm_compute. reflexivity.
Qed.

(** C6 on the kernel [RefLocator.low], where the native ntdll.dll is
    mapped below the scanned range and the 32-bit one inside it: a 32-bit
    caller on a 64-bit system gets NULL. *)
Lemma KexRtlGetNativeSystemDllBase_not_found_witness :
  image_named Ref.api Ref.wow64 Ref.upcase RefLocator.low 0x6F000000
    NtdllPathFragment /\
  fst (KexRtlGetNativeSystemDllBase Ref.api Ref.wow64 Ref.upcase 4093
         (Ref.boot RefLocator.low)) = Some NULL.
Proof.
  split; [exact ref_low_holds_native_image |].
  apply (KexRtlGetNativeSystemDllBase_not_found Ref.Kernel Ref.api Ref.wow64
           Ref.upcase
           (fun k => Ref.address_space k = RefLocator.low_space)).
  - exact ref_allocation_base_contract.
  - intros a w0. apply ref_low_quiet.
  - intros s Hs. rewrite ref_loader_keeps_space. exact Hs.
  - reflexivity.
  - lia.
  - left. vm_compute. discriminate.
Defined.

Section EveryProbeFails.

Context {St : Type}.
Variable api : NtApi St.
Variable host : Host.
Variable up : WCHAR -> WCHAR.
Variable inv : St -> Prop.

Hypothesis refused :
  forall a s, inv s ->
    let q := NtQueryVirtualMemory api NtCurrentProcess a
               MemoryMappedFilenameInformation MappedFileNameLength s in
    NT_SUCCESS (fst (fst q)) = false /\ inv (snd q).

(** [n] candidates remain above the lower bound: [n] queries are made. *)
Lemma scan_all_refused (n : nat) :
  forall (fuel : nat) (a : Z) (w : World St),
    inv (kernel w) ->
    (n <= fuel)%nat ->
    a <= 0x7FFD0000 ->
    0x10000 * (Z.of_nat n - 1) < a - 0x70000000 <= 0x10000 * Z.of_nat n ->
    exists log,
      fst (scan api host up fuel a w) = Exhausted /\
      calls (snd (scan api host up fuel a w)) = calls w ++ log /\
      length log = n /\ Forall is_name_query log.
Proof using refused.
  induction n as [| n IH]; intros fuel a w Hinv Hfuel Hhi Ha.
  - exists []. rewrite app_nil_r.
    destruct fuel; simpl; destruct (Z.gtb_spec a 0x70000000); try lia;
      repeat split; constructor.
  - destruct fuel as [| fuel]; [lia |]. simpl.
    destruct (Z.gtb_spec a 0x70000000) as [Hgt | Hle]; [| lia].
    unfold bind. rewrite probe_run.
    destruct (refused a (kernel w) Hinv) as [Hst Hinv'].
    fold (name_query api a w) in Hst, Hinv'. rewrite Hst. simpl.
    rewrite ULONG_PTR_small by lia.
    destruct (IH fuel (a - 0x10000)
                (mkWorld (snd (name_query api a w))
                         (calls w ++ [name_event api a w]))
                Hinv' ltac:(lia) ltac:(lia) ltac:(lia))
      as (log & He & Hlog & Hlen & Hall).
    exists (name_event api a w :: log).
    split; [exact He |]. split; [| split].
    + etransitivity; [exact Hlog |]. simpl. rewrite <- app_assoc. reflexivity.
    + simpl. congruence.
    + constructor; [eexists; reflexivity | exact Hall].
Qed.

End EveryProbeFails.

(** C9, what the code does.  Let the widths differ and let every query
    for a mapped file name be refused (in all kernel states described by
    [inv], which the queries keep).  Then KexRtlGetNativeSystemDllBase
    returns NULL after exactly 4093 queries, one for every 64K step from
    0x7FFD0000 down to 0x70010000. *)
Theorem KexRtlGetNativeSystemDllBase_worst_case_queries :
  forall (St : Type) (api : NtApi St) (host : Host) (up : WCHAR -> WCHAR)
         (inv : St -> Prop) (fuel : nat) (w : World St),
    (forall a s, inv s ->
       let q := NtQueryVirtualMemory api NtCurrentProcess a
                  MemoryMappedFilenameInformation MappedFileNameLength s in
       NT_SUCCESS (fst (fst q)) = false /\ inv (snd q)) ->
    inv (kernel w) ->
    (4093 <= fuel)%nat ->
    KexRtlCurrentProcessBitness host <> KexRtlOperatingSystemBitness host ->
    exists log,
      fst (KexRtlGetNativeSystemDllBase api host up fuel w) = Some NULL /\
      calls (snd (KexRtlGetNativeSystemDllBase api host up fuel w))
        = calls w ++ log /\
      length log = 4093%nat /\
      Forall is_name_query log.
Proof.
  intros St api host up inv fuel w Hrefused Hinv Hfuel Hne.
  destruct (scan_all_refused api host up inv Hrefused 4093 fuel 0x7FFD0000 w
              Hinv Hfuel ltac:(lia) ltac:(lia))
    as (log & He & Hlog & Hlen & Hall).
  exists log. unfold KexRtlGetNativeSystemDllBase.
  apply Z.eqb_neq in Hne. rewrite Hne.
  unfold search, bind, ret.
  destruct (scan api host up fuel 0x7FFD0000 w) as [e w1]. simpl in *.
  subst e. simpl. auto.
Qed.

(** C9 on a kernel without allocations: 4093 calls are recorded. *)
Lemma KexRtlGetNativeSystemDllBase_worst_case_queries_witness :
  exists log,
    fst (KexRtlGetNativeSystemDllBase Ref.api Ref.wow64 Ref.upcase 4093
           (Ref.boot Ref.bare)) = Some NULL /\
    calls (snd (KexRtlGetNativeSystemDllBase Ref.api Ref.wow64 Ref.upcase 4093
                  (Ref.boot Ref.bare))) = [] ++ log /\
    length log = 4093%nat /\
    Forall is_name_query log.
Proof.
  apply (KexRtlGetNativeSystemDllBase_worst_case_queries Ref.Kernel Ref.api
           Ref.wow64 Ref.upcase (fun k => Ref.address_space k = [])).
  - intros a s Hs. simpl. unfold Ref.query_mapped_filename, Ref.region_at.
    rewrite Hs. simpl. split; reflexivity.
  - reflexivity.
  - lia.
  - vm_compute. discriminate.
Defined.

(** The number of calls of that run, computed. *)
Example worst_case_on_bare_kernel :
  length (calls (snd (KexRtlGetNativeSystemDllBase Ref.api Ref.wow64
                        Ref.upcase 4093 (Ref.boot Ref.bare)))) = 4093%nat.
Proof. vm_compute. reflexivity. Qed.

Section ReturnsImage.

Context {St : Type}.
Variable api : NtApi St.
Variable host : Host.
Variable up : WCHAR -> WCHAR.
Variable good : St -> Prop.

Hypothesis SC : ScanContract api good.
Hypothesis AC : AllocationBaseContract api.







End ReturnsImage.


(** The reference kernel honours the scan contract wherever its
    allocations do not overlap. *)
Lemma ref_region_at_base (l : list Ref.Region) (a : Z) (r : Ref.Region) :
  Ref.disjoint_regions l = true ->
  find (Ref.in_region a) l = Some r ->
  find (Ref.in_region (Ref.rg_base r)) l = Some r.
Proof.
  induction l as [| r0 l IH]; simpl; [discriminate |].
  intros Hd Hf.
  apply andb_true_iff in Hd as [Hd Hd3]. apply andb_true_iff in Hd as [Hd1 Hd2].
  apply Z.ltb_lt in Hd1.
  destruct (Ref.in_region a r0) eqn:Hin.
  - injection Hf as <-.
    unfold Ref.in_region in *.
    apply andb_true_iff in Hin as [Hin H3].
    apply andb_true_iff in Hin as [H1 H2].
    rewrite H1. simpl.
    replace (Ref.rg_base r0 <=? Ref.rg_base r0) with true
      by (symmetry; apply Z.leb_le; lia).
    replace (Ref.rg_base r0 <? Ref.rg_base r0 + Ref.rg_size r0) with true
      by (symmetry; apply Z.ltb_lt; lia).
    reflexivity.
  - pose proof (find_some _ _ Hf) as [Hmem Hr].
    rewrite forallb_forall in Hd2. specialize (Hd2 r Hmem).
    unfold Ref.in_region in Hr.
    apply andb_true_iff in Hr as [Hr H3].
    apply andb_true_iff in Hr as [H1 H2].
    apply Z.leb_le in H2. apply Z.ltb_lt in H3.
    replace (Ref.in_region (Ref.rg_base r) r0) with false.
    + apply IH; assumption.
    + symmetry. unfold Ref.in_region.
      apply orb_true_iff in Hd2 as [Hd2 | Hd2]; apply Z.leb_le in Hd2.
      * replace (Ref.rg_base r <? Ref.rg_base r0 + Ref.rg_size r0) with false
          by (symmetry; apply Z.ltb_ge; lia).
        apply andb_false_r.
      * replace (Ref.rg_base r0 <=? Ref.rg_base r) with false
          by (symmetry; apply Z.leb_gt; lia).
        rewrite andb_false_r. reflexivity.
Qed.

Lemma ref_scan_contract : ScanContract Ref.api RefLocator.coherent.
Proof.
  split.
  - intros h a c len s. destruct c; simpl;
      destruct (h =? NtCurrentProcess); reflexivity.
  - intros n s Hs. rewrite ref_loader_keeps_space. exact Hs.
  - intros a len1 len2 s Hdisj. simpl. intros H1 _.
    apply ref_query_name_success in H1 as (r & f & Hr & Hf & Hq).
    assert (Hbase : Ref.region_at s (Ref.rg_base r) = Some r)
      by (apply (ref_region_at_base _ a); assumption).
    unfold Ref.query_basic. rewrite Hr. simpl.
    unfold Ref.query_mapped_filename. rewrite Hbase, Hr.
    repeat split; reflexivity.
Qed.

(** The loader contract, which asks more: on the reference kernel it
    holds in the states whose loader table names images only. *)
Lemma ref_locator_contract (host : Host) :
  LocatorContract Ref.api host Ref.upcase Ref.good.
Proof.
  split.
  - intros h a c len s. destruct c; simpl;
      destruct (h =? NtCurrentProcess); reflexivity.
  - intros n s Hs. rewrite ref_loader_keeps_space. exact Hs.
  - intros n s [_ Hsound]. simpl. unfold Ref.get_dll_handle_by_name.
    destruct (find _ (Ref.loader_table s)) as [e |] eqn:Hfind;
      [| discriminate].
    simpl. intros _.
    apply find_some in Hfind as [Hmem Hname].
    rewrite forallb_forall in Hsound. specialize (Hsound e Hmem).
    unfold Ref.loader_entry_sound in Hsound.
    destruct (Ref.region_at s (snd e)) as [r |] eqn:Hr; [| discriminate].
    apply andb_true_iff in Hsound as [Hty Hfile].
    destruct (Ref.rg_file r) as [f |] eqn:Hf; [| discriminate].
    apply andb_true_iff in Hfile as [Hlen Hends].
    apply Z.eqb_eq in Hty. apply Z.leb_le in Hlen.
    unfold image_named. simpl.
    unfold Ref.query_mapped_filename, Ref.query_basic. rewrite Hr, Hf.
    replace (MappedFileNameLength <? 16 + 2 * KexRtlUnicodeStringCch f)
      with false by (symmetry; apply Z.ltb_ge; lia).
    simpl. repeat split; [| exact Hty].
    apply KexRtlUnicodeStringEndsWith_suffix_ci in Hends.
    unfold RtlEqualUnicodeString in Hname. apply wstr_eqb_true in Hname.
    exact (suffix_ci_same_upcase _ _ _ _ Hname Hends).
  - intros a len1 len2 s [Hdisj _].
    exact (allocation_reports_alike _ _ ref_scan_contract a len1 len2 s Hdisj).
Qed.

Lemma ref_sample_good : Ref.good Ref.sample.
Proof. split; vm_compute; reflexivity. Qed.

(** The loader contract does not follow from the scan contract: the
    allocations of [RefLocator.stale] do not overlap, and its loader names
    a base at which no file is mapped. *)
Lemma ref_loader_contract_needs_sound_table :
  ~ LocatorContract Ref.api Ref.native64 Ref.upcase RefLocator.coherent.
Proof.
  intros LC.
  destruct (loader_reports_image _ _ _ _ LC NtdllBaseName RefLocator.stale
              ltac:(vm_compute; reflexivity) ltac:(vm_compute; reflexivity))
    as (Hst & _).
  vm_compute in Hst. discriminate.
Qed.






(** ** Memory *)

Lemma length_encode_le (n : nat) (v : Z) : length (encode_le n v) = n.
Proof. revert v. induction n as [| n IH]; intros v; simpl; auto. Qed.

Lemma decode_le_range (bs : list Z) :
  0 <= decode_le bs < 256 ^ Z.of_nat (length bs).
Proof.
  induction bs as [| b bs IH]; simpl decode_le; simpl length.
  - simpl. lia.
  - rewrite Nat2Z.inj_succ, Z.pow_succ_r by lia.
    pose proof (Z.mod_pos_bound b 256 ltac:(lia)). lia.
Qed.

Lemma decode_encode_le (n : nat) (v : Z) :
  decode_le (encode_le n v) = v mod 256 ^ Z.of_nat n.
Proof.
  revert v. induction n as [| n IH]; intros v.
  - simpl. rewrite Z.mod_1_r. reflexivity.
  - simpl encode_le. simpl decode_le. rewrite IH.
    rewrite Nat2Z.inj_succ, Z.pow_succ_r by lia.
    rewrite Z.mod_mod by lia.
    rewrite Z.rem_mul_r by lia. reflexivity.
Qed.

Lemma load_bytes_length (n : nat) (m : gmap Z Z) (a : Z) (bs : list Z) :
  load_bytes n m a = Some bs -> length bs = n.
Proof.
  revert a bs. induction n as [| n IH]; intros a bs; simpl.
  - intros H. injection H as <-. reflexivity.
  - destruct (m !! a); [| discriminate].
    destruct (load_bytes n m (a + 1)) eqn:Hl; [| discriminate].
    intros H. injection H as <-. simpl. f_equal. eauto.
Qed.

Lemma load_int_range (n : nat) (m : gmap Z Z) (a v : Z) :
  load_int n m a = Some v -> 0 <= v < 256 ^ Z.of_nat n.
Proof.
  unfold load_int. destruct (load_bytes n m a) as [bs |] eqn:Hl; [| discriminate].
  simpl. intros H. injection H as <-.
  rewrite <- (load_bytes_length _ _ _ _ Hl). apply decode_le_range.
Qed.

Lemma store_bytes_lookup (bs : list Z) :
  forall (m m' : gmap Z Z) (a x : Z),
    store_bytes m a bs = Some m' ->
    (x < a \/ a + Z.of_nat (length bs) <= x -> m' !! x = m !! x) /\
    (is_Some (m' !! x) <-> is_Some (m !! x)).
Proof.
  induction bs as [| b bs IH]; intros m m' a x; simpl.
  - intros H. injection H as <-. tauto.
  - destruct (m !! a) as [old |] eqn:Ha; [| discriminate].
    intros H. destruct (IH _ _ _ x H) as [Hout Hdom]. split.
    + intros Hx. rewrite Hout by lia. apply lookup_insert_ne. lia.
    + rewrite Hdom. destruct (decide (a = x)) as [-> | Hne].
      * rewrite lookup_insert_eq, Ha. split; eauto.
      * rewrite lookup_insert_ne by exact Hne. reflexivity.
Qed.

Lemma store_bytes_load (bs : list Z) :
  forall (m m' : gmap Z Z) (a : Z),
    store_bytes m a bs = Some m' ->
    load_bytes (length bs) m' a = Some bs.
Proof.
  induction bs as [| b bs IH]; intros m m' a; simpl; [reflexivity |].
  destruct (m !! a) as [old |] eqn:Ha; [| discriminate].
  intros H. rewrite (IH _ _ _ H).
  destruct (store_bytes_lookup bs _ _ _ a H) as [Hout _].
  rewrite Hout by lia. rewrite lookup_insert_eq. reflexivity.
Qed.

Lemma store_bytes_mapped (bs : list Z) :
  forall (m : gmap Z Z) (a : Z),
    is_Some (store_bytes m a bs) <->
    forall i, 0 <= i < Z.of_nat (length bs) -> is_Some (m !! (a + i)).
Proof.
  induction bs as [| b bs IH]; intros m a; simpl.
  - split; [intros _ i Hi; lia | eauto].
  - destruct (m !! a) as [old |] eqn:Ha.
    + rewrite IH. split.
      * intros H i Hi. destruct (decide (i = 0)) as [-> | Hne].
        -- rewrite Z.add_0_r, Ha. eauto.
        -- specialize (H (i - 1) ltac:(lia)).
           replace (a + 1 + (i - 1)) with (a + i) in H by lia.
           rewrite lookup_insert_ne in H by lia. exact H.
      * intros H i Hi. specialize (H (i + 1) ltac:(lia)).
        replace (a + (i + 1)) with (a + 1 + i) in H by lia.
        rewrite lookup_insert_ne by lia. exact H.
    + split; [intros [? ?]; discriminate |].
      intros H. specialize (H 0 ltac:(lia)).
      rewrite Z.add_0_r, Ha in H. destruct H; discriminate.
Qed.

(** A cell that was stored to can be stored to again, and holds what was
    stored. *)
Lemma store_int_again (n : nat) (m m' : gmap Z Z) (a v v' : Z) :
  store_int n m a v = Some m' -> is_Some (store_int n m' a v').
Proof.
  unfold store_int. intros H.
  apply store_bytes_mapped. rewrite length_encode_le.
  intros i Hi.
  apply (store_bytes_lookup _ _ _ _ (a + i) H).
  assert (Hs : is_Some (store_bytes m a (encode_le n v))) by (rewrite H; eauto).
  rewrite store_bytes_mapped, length_encode_le in Hs. auto.
Qed.

Lemma store_int_load (n : nat) (m m' : gmap Z Z) (a v : Z) :
  store_int n m a v = Some m' ->
  load_int n m' a = Some (v mod 256 ^ Z.of_nat n).
Proof.
  unfold store_int, load_int. intros H.
  apply store_bytes_load in H. rewrite length_encode_le in H.
  rewrite H. simpl. rewrite decode_encode_le. reflexivity.
Qed.

(** ** Byte strings *)

Lemma holds_cstring_mapped (s : list Z) :
  forall (m : gmap Z Z) (a : Z),
    holds_cstring m a s ->
    forall k, k ∈ seqZ a (Z.of_nat (length s) + 1) -> k ∈ dom m.
Proof.
  induction s as [| c s IH]; intros m a; simpl.
  - intros H k Hk. apply elem_of_seqZ in Hk.
    assert (k = a) as -> by lia. apply elem_of_dom. eauto.
  - intros (Hc & _ & Hs) k Hk. apply elem_of_seqZ in Hk.
    destruct (decide (k = a)) as [-> | Hne].
    + apply elem_of_dom. eauto.
    + apply (IH _ _ Hs). apply elem_of_seqZ. lia.
Qed.

(** A byte string in memory is shorter than the memory is large. *)
Lemma holds_cstring_size (m : gmap Z Z) (a : Z) (s : list Z) :
  holds_cstring m a s -> (length s < size m)%nat.
Proof.
  intros H.
  pose proof (holds_cstring_mapped s m a H) as Hsub.
  assert (Hle : (size (list_to_set (C := gset Z)
                         (seqZ a (Z.of_nat (length s) + 1)))
                 <= size (dom m))%nat).
  { apply subseteq_size. intros k Hk. apply elem_of_list_to_set in Hk. auto. }
  rewrite size_list_to_set in Hle by apply NoDup_seqZ.
  rewrite length_seqZ, size_dom in Hle. lia.
Qed.

Lemma strings_equal_decides (s : list Z) :
  forall (fuel : nat) (m : gmap Z Z) (a b : Z) (t : list Z),
    holds_cstring m a s -> holds_cstring m b t ->
    (length s < fuel)%nat ->
    strings_equal fuel m a b = Some (bool_decide (s = t)).
Proof.
  induction s as [| c s IH]; intros fuel m a b t Hs Ht Hfuel;
    (destruct fuel as [| fuel]; [simpl in Hfuel; lia |]);
    cbn [strings_equal holds_cstring length] in *.
  - rewrite Hs. destruct t as [| d t]; cbn [holds_cstring] in Ht.
    + rewrite Ht. reflexivity.
    + destruct Ht as (Hd & Hd0 & _). rewrite Hd.
      destruct (Z.eqb_spec 0 d); [congruence | reflexivity].
  - destruct Hs as (Hc & Hc0 & Hs). rewrite Hc.
    destruct t as [| d t]; cbn [holds_cstring] in Ht.
    + rewrite Ht. destruct (Z.eqb_spec c 0); [congruence | reflexivity].
    + destruct Ht as (Hd & Hd0 & Ht). rewrite Hd.
      destruct (Z.eqb_spec c d) as [-> | Hne].
      * destruct (Z.eqb_spec d 0); [congruence |].
        rewrite (IH fuel m (a + 1) (b + 1) t Hs Ht ltac:(lia)).
        f_equal. apply bool_decide_ext. split; congruence.
      * f_equal. symmetry. apply bool_decide_eq_false. congruence.
Qed.

(** What the comparison of the routine decides: equality of the two
    byte strings. *)
Lemma StringEqualA_exact (String1 String2 : PVOID) (w : Image)
  (s t : list Z) :
  holds_cstring (memory w) String1 s ->
  holds_cstring (memory w) String2 t ->
  StringEqualA String1 String2 w =
    (Ok (bool_decide (s = t)),
     mkImage (memory w) (accesses w ++ [CallStringEqualA String1 String2])).
Proof.
  intros Hs Ht. unfold StringEqualA.
  rewrite (strings_equal_decides s _ _ _ _ t Hs Ht); [reflexivity |].
  pose proof (holds_cstring_size _ _ _ Hs). lia.
Qed.

(** ** KexRtlMiniGetProcedureAddress *)

Lemma load_ok (n : nat) (a : PVOID) (w : Image) (v : Z) :
  load_int n (memory w) a = Some v ->
  load n a w = (Ok v, mkImage (memory w) (accesses w ++ [Load a (Z.of_nat n)])).
Proof. unfold load. intros ->. reflexivity. Qed.

Lemma store_ok (n : nat) (a : PVOID) (v : Z) (w : Image) (m' : gmap Z Z) :
  store_int n (memory w) a v = Some m' ->
  store n a v w = (Ok tt, mkImage m' (accesses w ++ [Store a (Z.of_nat n)])).
Proof. unfold store. intros ->. reflexivity. Qed.

Lemma RVA_TO_VA_range (host : Host) (Base Rva : Z) :
  0 <= RVA_TO_VA host Base Rva < 256 ^ Z.of_nat (sizeof_PVOID host).
Proof.
  unfold RVA_TO_VA, ULONG_PTR, sizeof_PVOID, KexRtlCurrentProcessBitness.
  destruct (CurrentProcess host); simpl bitness_value;
    apply Z.mod_pos_bound; lia.
Qed.

Section FirstMatch.

Variable host : Host.
Variable DllBase ProcedureName ProcedureAddress ExportDirectory : PVOID.
Variable m : gmap Z Z.
Variable name : list Z.
Variable n NameRvas FunctionRvas NameOrdinals : Z.

Hypothesis Hcount : number_of_names host m ExportDirectory = Some n.
Hypothesis Hnames : name_table host m DllBase ExportDirectory = Some NameRvas.
Hypothesis Hfuncs :
  address_table host m DllBase ExportDirectory = Some FunctionRvas.
Hypothesis Hords :
  ordinal_table host m DllBase ExportDirectory = Some NameOrdinals.
Hypothesis Hname : holds_cstring m ProcedureName name.

Local Abbreviation loop fuel Index :=
  (names_loop host fuel DllBase ProcedureName ProcedureAddress ExportDirectory
     NameRvas FunctionRvas NameOrdinals Index).

(** A pass over a name that differs goes on to the next index and leaves
    memory alone. *)
Lemma names_loop_skip (fuel : nat) (Index : Z) (w : Image) (s : list Z) :
  memory w = m -> 0 <= Index < n ->
  exported_name host m DllBase ExportDirectory Index s -> s <> name ->
  exists log,
    loop (S fuel) Index w = loop fuel (Index + 1) (mkImage m log).
Proof using Hcount Hnames Hname.
  intros Hm Hi (p & Hp & Hs) Hne.
  destruct w as [mem acc]. simpl in Hm. subst mem.
  simpl names_loop. unfold bindR, load_ULONG.
  pose proof (load_int_range _ _ _ _ Hcount) as Hn.
  rewrite (load_ok 4 _ _ n) by exact Hcount.
  replace (Index <? n) with true by (symmetry; apply Z.ltb_lt; lia).
  unfold name_pointer in Hp. rewrite Hnames in Hp. simpl in Hp.
  destruct (load_int 4 m (element host NameRvas 4 Index)) as [rva |] eqn:Hrva;
    [| discriminate].
  simpl in Hp. injection Hp as <-.
  rewrite (load_ok 4 _ _ rva) by (simpl; exact Hrva).
  rewrite (StringEqualA_exact _ _ _ name s) by (simpl; assumption).
  rewrite bool_decide_eq_false_2 by congruence.
  simpl memory.
  replace ((Index + 1) mod 2 ^ 32) with (Index + 1)
    by (symmetry; apply Z.mod_small; simpl in Hn; lia).
  eexists. reflexivity.
Qed.

(** All names below [i] differ: the loop reaches [i]. *)
Lemma names_loop_reaches (k : nat) :
  forall (fuel : nat) (Index i : Z) (w : Image),
    memory w = m -> 0 <= Index -> i <= n ->
    Index + Z.of_nat k = i ->
    (forall j, Index <= j < i ->
       exists s, exported_name host m DllBase ExportDirectory j s /\ s <> name) ->
    exists log,
      loop (k + fuel) Index w = loop fuel i (mkImage m log).
Proof using Hcount Hnames Hname.
  induction k as [| k IH]; intros fuel Index i w Hm H0 Hin Hk Hbelow.
  - exists (accesses w). replace i with Index by lia.
    destruct w; simpl in *; subst; reflexivity.
  - destruct (Hbelow Index ltac:(lia)) as (s & Hs & Hne).
    destruct (names_loop_skip (k + fuel) Index w s Hm ltac:(lia) Hs Hne)
      as (log & Hstep).
    simpl Nat.add. rewrite Hstep.
    apply (IH fuel (Index + 1) i (mkImage m log)); simpl; auto; try lia.
    intros j Hj. apply Hbelow. lia.
Qed.

(** A pass over the name sought stores its address and returns. *)
Lemma names_loop_match (fuel : nat) (i : Z) (w : Image) (target : PVOID)
  (m' : gmap Z Z) :
  memory w = m -> 0 <= i < n ->
  exported_name host m DllBase ExportDirectory i name ->
  exported_address host m DllBase ExportDirectory i = Some target ->
  store_int (sizeof_PVOID host) m ProcedureAddress target = Some m' ->
  exists log,
    loop (S fuel) i w = (Ok STATUS_SUCCESS, mkImage m' log).
Proof using Hcount Hnames Hfuncs Hords Hname.
  intros Hm Hi (p & Hp & Hs) Haddr Hstore.
  destruct w as [mem acc]. simpl in Hm. subst mem.
  simpl names_loop. unfold bindR, load_ULONG, load_USHORT.
  rewrite (load_ok 4 _ _ n) by exact Hcount.
  replace (i <? n) with true by (symmetry; apply Z.ltb_lt; lia).
  unfold name_pointer in Hp. rewrite Hnames in Hp. simpl in Hp.
  destruct (load_int 4 m (element host NameRvas 4 i)) as [rva |] eqn:Hrva;
    [| discriminate].
  simpl in Hp. injection Hp as <-.
  rewrite (load_ok 4 _ _ rva) by (simpl; exact Hrva).
  rewrite (StringEqualA_exact _ _ _ name name) by (simpl; assumption).
  rewrite bool_decide_eq_true_2 by reflexivity.
  unfold exported_address in Haddr. rewrite Hords, Hfuncs in Haddr.
  simpl in Haddr.
  destruct (load_int 2 m (element host NameOrdinals 2 i)) as [ord |] eqn:Hord;
    [| discriminate].
  simpl in Haddr.
  destruct (load_int 4 m (element host FunctionRvas 4 ord)) as [frva |]
    eqn:Hfrva; [| discriminate].
  simpl in Haddr. injection Haddr as <-.
  rewrite (load_ok 2 _ _ ord) by (simpl; exact Hord).
  rewrite (load_ok 4 _ _ frva) by (simpl; exact Hfrva).
  unfold store_PVOID.
  rewrite (store_ok _ _ _ _ m') by (simpl; exact Hstore).
  eexists. reflexivity.
Qed.

(** Past the last name the loop ends with the entry point not found. *)
Lemma names_loop_end (fuel : nat) (w : Image) :
  memory w = m ->
  exists log,
    loop fuel n w = (Ok STATUS_ENTRYPOINT_NOT_FOUND, mkImage m log).
Proof using Hcount.
  intros Hm. destruct w as [mem acc]. simpl in Hm. subst mem.
  destruct fuel; simpl names_loop; unfold bindR, load_ULONG;
    rewrite (load_ok 4 _ _ n) by exact Hcount;
    rewrite Z.ltb_irrefl; eexists; reflexivity.
Qed.

End FirstMatch.

Lemma exported_address_range (host : Host) (m : gmap Z Z)
  (DllBase ExportDirectory : PVOID) (i : Z) (target : PVOID) :
  exported_address host m DllBase ExportDirectory i = Some target ->
  0 <= target < 256 ^ Z.of_nat (sizeof_PVOID host).
Proof.
  unfold exported_address.
  destruct (ordinal_table _ _ _ _) as [ords |]; [| discriminate].
  destruct (address_table _ _ _ _) as [funcs |]; [| discriminate]. simpl.
  destruct (load_int 2 m _) as [ord |]; [| discriminate]. simpl.
  destruct (load_int 4 m _) as [frva |]; [| discriminate]. simpl.
  intros H. injection H as <-. apply RVA_TO_VA_range.
Qed.

(** The routine up to the loop: the slot is cleared, the directory is
    looked up and the three tables are located. *)
Lemma KexRtlMiniGetProcedureAddress_prologue (host : Host)
  (dir : gmap Z Z -> PVOID -> bool -> Z -> PVOID * Z) (fuel : nat)
  (DllBase ProcedureName ProcedureAddress : PVOID) (w : Image)
  (m1 : gmap Z Z) (NameRvas FunctionRvas NameOrdinals : PVOID) :
  let ExportDirectory := fst (dir m1 DllBase true IMAGE_DIRECTORY_ENTRY_EXPORT) in
  DllBase <> NULL -> ProcedureName <> NULL -> ProcedureAddress <> NULL ->
  store_int (sizeof_PVOID host) (memory w) ProcedureAddress NULL = Some m1 ->
  ExportDirectory <> NULL ->
  name_table host m1 DllBase ExportDirectory = Some NameRvas ->
  address_table host m1 DllBase ExportDirectory = Some FunctionRvas ->
  ordinal_table host m1 DllBase ExportDirectory = Some NameOrdinals ->
  exists log,
    KexRtlMiniGetProcedureAddress host dir fuel DllBase ProcedureName
      ProcedureAddress w =
    names_loop host fuel DllBase ProcedureName ProcedureAddress
      ExportDirectory NameRvas FunctionRvas NameOrdinals 0 (mkImage m1 log).
Proof.
  intros E H1 H2 H3 Hstore HE Hn Hf Ho. subst E.
  unfold KexRtlMiniGetProcedureAddress.
  unfold NULL in *.
  apply Z.eqb_neq in H1, H2, H3, HE. rewrite H1, H2, H3. cbn [orb].
  unfold bindR at 1, store_PVOID.
  rewrite (store_ok _ _ _ _ m1 Hstore).
  unfold bindR at 1, call_RtlImageDirectoryEntryToData.
  cbv beta iota zeta. cbn [memory accesses fst]. rewrite HE.
  unfold name_table, address_table, ordinal_table in *.
  destruct (load_int 4 m1 (field host _ OFFSET_AddressOfNames))
    as [x1 |] eqn:L1; [| discriminate].
  destruct (load_int 4 m1 (field host _ OFFSET_AddressOfFunctions))
    as [x2 |] eqn:L2; [| discriminate].
  destruct (load_int 4 m1 (field host _ OFFSET_AddressOfNameOrdinals))
    as [x3 |] eqn:L3; [| discriminate].
  simpl in Hn, Hf, Ho. injection Hn as <-. injection Hf as <-.
  injection Ho as <-.
  unfold bindR, load_ULONG.
  rewrite (load_ok 4 _ _ x1) by exact L1.
  rewrite (load_ok 4 _ _ x2) by exact L2.
  rewrite (load_ok 4 _ _ x3) by exact L3.
  eexists. reflexivity.
Qed.

(** C3.  Let the arguments be non-null, let the export directory be found
    and its tables be readable once the output slot has been cleared, and
    let the procedure name be the byte string [name].  If [i] is the first
    index of the name table whose name equals [name] exactly,
    KexRtlMiniGetProcedureAddress returns success and the output slot
    holds the base plus the entry of the address table selected by the
    ordinal of name [i].  If no name of the table equals [name], it
    returns STATUS_ENTRYPOINT_NOT_FOUND and the slot holds NULL. *)
Theorem KexRtlMiniGetProcedureAddress_first_match :
  forall (host : Host) (dir : gmap Z Z -> PVOID -> bool -> Z -> PVOID * Z)
         (fuel : nat) (DllBase ProcedureName ProcedureAddress : PVOID)
         (w : Image) (m1 : gmap Z Z) (ExportDirectory : PVOID) (n : Z)
         (name : list Z),
    DllBase <> NULL -> ProcedureName <> NULL -> ProcedureAddress <> NULL ->
    store_int (sizeof_PVOID host) (memory w) ProcedureAddress NULL = Some m1 ->
    fst (dir m1 DllBase true IMAGE_DIRECTORY_ENTRY_EXPORT) = ExportDirectory ->
    ExportDirectory <> NULL ->
    is_Some (name_table host m1 DllBase ExportDirectory) ->
    is_Some (address_table host m1 DllBase ExportDirectory) ->
    is_Some (ordinal_table host m1 DllBase ExportDirectory) ->
    number_of_names host m1 ExportDirectory = Some n ->
    holds_cstring m1 ProcedureName name ->
    (Z.to_nat n <= fuel)%nat ->
    let r := KexRtlMiniGetProcedureAddress host dir fuel DllBase ProcedureName
               ProcedureAddress w in
    (forall (i : Z) (target : PVOID),
        0 <= i < n ->
        (forall j, 0 <= j < i ->
           exists s, exported_name host m1 DllBase ExportDirectory j s /\
                     s <> name) ->
        exported_name host m1 DllBase ExportDirectory i name ->
        exported_address host m1 DllBase ExportDirectory i = Some target ->
        fst r = Ok STATUS_SUCCESS /\
        load_int (sizeof_PVOID host) (memory (snd r)) ProcedureAddress
          = Some target) /\
    ((forall j, 0 <= j < n ->
        exists s, exported_name host m1 DllBase ExportDirectory j s /\
                  s <> name) ->
     fst r = Ok STATUS_ENTRYPOINT_NOT_FOUND /\
     load_int (sizeof_PVOID host) (memory (snd r)) ProcedureAddress
       = Some NULL).
Proof.
  intros host dir fuel DllBase ProcedureName ProcedureAddress w m1
         ExportDirectory n name H1 H2 H3 Hstore HE HEnn
         [NameRvas Hn] [FunctionRvas Hf] [NameOrdinals Ho] Hcount Hname Hfuel r.
  subst ExportDirectory.
  destruct (KexRtlMiniGetProcedureAddress_prologue host dir fuel DllBase
              ProcedureName ProcedureAddress w m1 NameRvas FunctionRvas
              NameOrdinals H1 H2 H3 Hstore HEnn Hn Hf Ho) as (log0 & Hrun).
  subst r. rewrite Hrun. clear Hrun.
  pose proof (load_int_range _ _ _ _ Hcount) as Hnr.
  split.
  - intros i target Hi Hbelow Hat Haddr.
    destruct (store_int_again _ _ _ _ _ target Hstore) as [m2 Hm2].
    replace fuel with (Z.to_nat i + S (fuel - Z.to_nat i - 1))%nat by lia.
    destruct (names_loop_reaches host DllBase ProcedureName ProcedureAddress
                _ m1 name n NameRvas FunctionRvas NameOrdinals Hcount Hn Hname
                (Z.to_nat i) (S (fuel - Z.to_nat i - 1)) 0 i (mkImage m1 log0)
                eq_refl ltac:(lia) ltac:(lia) ltac:(lia) Hbelow)
      as (log1 & ->).
    destruct (names_loop_match host DllBase ProcedureName ProcedureAddress
                _ m1 name n NameRvas FunctionRvas NameOrdinals Hcount Hn Hf Ho
                Hname (fuel - Z.to_nat i - 1) i (mkImage m1 log1) target m2
                eq_refl Hi Hat Haddr Hm2) as (log2 & ->).
    simpl. split; [reflexivity |].
    rewrite (store_int_load _ _ _ _ _ Hm2). f_equal.
    apply Z.mod_small. exact (exported_address_range _ _ _ _ _ _ Haddr).
  - intros Hall.
    replace fuel with (Z.to_nat n + (fuel - Z.to_nat n))%nat by lia.
    destruct (names_loop_reaches host DllBase ProcedureName ProcedureAddress
                _ m1 name n NameRvas FunctionRvas NameOrdinals Hcount Hn Hname
                (Z.to_nat n) (fuel - Z.to_nat n) 0 n (mkImage m1 log0)
                eq_refl ltac:(lia) ltac:(lia) ltac:(lia) Hall)
      as (log1 & ->).
    destruct (names_loop_end host DllBase ProcedureName ProcedureAddress
                _ m1 n NameRvas FunctionRvas NameOrdinals Hcount
                (fuel - Z.to_nat n) (mkImage m1 log1) eq_refl) as (log2 & ->).
    simpl. split; [reflexivity |].
    rewrite (store_int_load _ _ _ _ _ Hstore). reflexivity.
Qed.

(** C8.  If the image base, the procedure name or the output slot is
    NULL, KexRtlMiniGetProcedureAddress returns STATUS_INVALID_PARAMETER
    and leaves the world as it found it: memory is unchanged and no load,
    store or call has been recorded. *)
Theorem KexRtlMiniGetProcedureAddress_null_argument :
  forall (host : Host) (dir : gmap Z Z -> PVOID -> bool -> Z -> PVOID * Z)
         (fuel : nat) (DllBase ProcedureName ProcedureAddress : PVOID)
         (w : Image),
    DllBase = NULL \/ ProcedureName = NULL \/ ProcedureAddress = NULL ->
    KexRtlMiniGetProcedureAddress host dir fuel DllBase ProcedureName
      ProcedureAddress w = (Ok STATUS_INVALID_PARAMETER, w).
Proof.
  intros host dir fuel DllBase ProcedureName ProcedureAddress w H.
  unfold KexRtlMiniGetProcedureAddress, NULL in *.
  replace ((DllBase =? 0) || (ProcedureName =? 0) || (ProcedureAddress =? 0))
    with true; [reflexivity |].
  symmetry. rewrite !orb_true_iff, !Z.eqb_eq. tauto.
Qed.

(** C8 on the sample image, one null argument at a time. *)
Lemma KexRtlMiniGetProcedureAddress_null_argument_witness :
  KexRtlMiniGetProcedureAddress Ref.wow64
    RefImage.image_directory_entry_to_data 8 NULL 0x20000 0x20100
    RefImage.sample = (Ok STATUS_INVALID_PARAMETER, RefImage.sample) /\
  KexRtlMiniGetProcedureAddress Ref.wow64
    RefImage.image_directory_entry_to_data 8 RefImage.B NULL 0x20100
    RefImage.sample = (Ok STATUS_INVALID_PARAMETER, RefImage.sample) /\
  KexRtlMiniGetProcedureAddress Ref.wow64
    RefImage.image_directory_entry_to_data 8 RefImage.B 0x20000 NULL
    RefImage.sample = (Ok STATUS_INVALID_PARAMETER, RefImage.sample).
Proof.
  split; [| split];
    apply KexRtlMiniGetProcedureAddress_null_argument; auto.
Defined.

(** Goals about byte strings and tables of a concrete memory. *)
Ltac concrete_memory :=
  vm_compute;
  repeat split;
  first [reflexivity | discriminate | intro; discriminate | eauto].

Lemma sample_cleared : store_int (sizeof_PVOID Ref.wow64)
                     (memory RefImage.sample) 0x20100 NULL = Some RefImage.cleared.
Proof. vm_compute. reflexivity. Qed.

Lemma sample_directory :
  fst (RefImage.image_directory_entry_to_data RefImage.cleared RefImage.B true
         IMAGE_DIRECTORY_ENTRY_EXPORT) = RefImage.B + 0x1000.
Proof. vm_compute. reflexivity. Qed.

Lemma sample_tables :
  is_Some (name_table Ref.wow64 RefImage.cleared RefImage.B (RefImage.B + 0x1000)) /\
  is_Some (address_table Ref.wow64 RefImage.cleared RefImage.B (RefImage.B + 0x1000)) /\
  is_Some (ordinal_table Ref.wow64 RefImage.cleared RefImage.B (RefImage.B + 0x1000)) /\
  number_of_names Ref.wow64 RefImage.cleared (RefImage.B + 0x1000) = Some 2.
Proof. concrete_memory. Qed.

Lemma sample_names :
  exported_name Ref.wow64 RefImage.cleared RefImage.B (RefImage.B + 0x1000) 0
    (RefImage.cstring_bytes "Bar") /\
  exported_name Ref.wow64 RefImage.cleared RefImage.B (RefImage.B + 0x1000) 1
    (RefImage.cstring_bytes "Foo") /\
  exported_address Ref.wow64 RefImage.cleared RefImage.B (RefImage.B + 0x1000) 1
    = Some (RefImage.B + 0x2000) /\
  holds_cstring RefImage.cleared 0x20000 (RefImage.cstring_bytes "Foo") /\
  holds_cstring RefImage.cleared 0x20010 (RefImage.cstring_bytes "Zed").
Proof.
  split; [exists (RefImage.B + 0x1400); concrete_memory |].
  split; [exists (RefImage.B + 0x1410); concrete_memory |].
  concrete_memory.
Qed.

(** C3 on the sample image: "Foo", second in the name table, has ordinal
    0 and resolves to [B + 0x2000]; "Zed" is not exported. *)
Lemma KexRtlMiniGetProcedureAddress_first_match_witness :
  (fst (KexRtlMiniGetProcedureAddress Ref.wow64
          RefImage.image_directory_entry_to_data 8 RefImage.B 0x20000 0x20100
          RefImage.sample) = Ok STATUS_SUCCESS /\
   load_int (sizeof_PVOID Ref.wow64)
     (memory (snd (KexRtlMiniGetProcedureAddress Ref.wow64
                     RefImage.image_directory_entry_to_data 8 RefImage.B
                     0x20000 0x20100 RefImage.sample))) 0x20100
     = Some (RefImage.B + 0x2000)) /\
  (fst (KexRtlMiniGetProcedureAddress Ref.wow64
          RefImage.image_directory_entry_to_data 8 RefImage.B 0x20010 0x20100
          RefImage.sample) = Ok STATUS_ENTRYPOINT_NOT_FOUND /\
   load_int (sizeof_PVOID Ref.wow64)
     (memory (snd (KexRtlMiniGetProcedureAddress Ref.wow64
                     RefImage.image_directory_entry_to_data 8 RefImage.B
                     0x20010 0x20100 RefImage.sample))) 0x20100
     = Some NULL).
Proof.
  destruct sample_tables as (Hn & Hf & Ho & Hcount).
  destruct sample_names as (Hbar & Hfoo & Haddr & Hname & Hzed).
  assert (HB : RefImage.B <> NULL) by discriminate.
  assert (HE : RefImage.B + 0x1000 <> NULL) by discriminate.
  assert (Hfoo_ptr : 0x20000 <> NULL) by discriminate.
  assert (Hzed_ptr : 0x20010 <> NULL) by discriminate.
  assert (Hslot : 0x20100 <> NULL) by discriminate.
  split.
  - apply (proj1 (KexRtlMiniGetProcedureAddress_first_match Ref.wow64
              RefImage.image_directory_entry_to_data 8 RefImage.B 0x20000
              0x20100 RefImage.sample RefImage.cleared (RefImage.B + 0x1000) 2
              (RefImage.cstring_bytes "Foo")
              HB Hfoo_ptr Hslot sample_cleared sample_directory HE
              Hn Hf Ho Hcount Hname ltac:(simpl; lia))
              1 (RefImage.B + 0x2000)); [lia | | exact Hfoo | exact Haddr].
    intros j Hj. assert (j = 0) as -> by lia.
    exists (RefImage.cstring_bytes "Bar"). split; [exact Hbar | discriminate].
  - apply (proj2 (KexRtlMiniGetProcedureAddress_first_match Ref.wow64
              RefImage.image_directory_entry_to_data 8 RefImage.B 0x20010
              0x20100 RefImage.sample RefImage.cleared (RefImage.B + 0x1000) 2
              (RefImage.cstring_bytes "Zed")
              HB Hzed_ptr Hslot sample_cleared sample_directory HE
              Hn Hf Ho Hcount Hzed ltac:(simpl; lia))).
    intros j Hj. assert (j = 0 \/ j = 1) as [-> | ->] by lia.
    + exists (RefImage.cstring_bytes "Bar"). split; [exact Hbar | discriminate].
    + exists (RefImage.cstring_bytes "Foo"). split; [exact Hfoo | discriminate].
Defined.

(* ===================================================================== *)
(** * Part III.  Further properties of the routines                       *)
(* ===================================================================== *)

(** ** KexRtlUnicodeStringEndsWith *)

(** X1.  KexRtlUnicodeStringEndsWith answers TRUE exactly when [String]
    is some front part followed by a back part that equals [EndsWith]
    character by character, after upper-casing when the comparison is
    case-insensitive.  Compared case-sensitively this is: [EndsWith] is a
    suffix of [String].  In particular the empty string ends every
    string, and no string ends with a longer one. *)
Theorem KexRtlUnicodeStringEndsWith_spec :
  forall (up : WCHAR -> WCHAR) (String EndsWith : UNICODE_STRING)
         (CaseInsensitive : bool),
    let f := if CaseInsensitive then up else fun c => c in
    (KexRtlUnicodeStringEndsWith up String EndsWith CaseInsensitive = true <->
     exists front back,
       String = front ++ back /\ map f back = map f EndsWith) /\
    (KexRtlUnicodeStringEndsWith up String EndsWith false = true <->
     exists front, String = front ++ EndsWith) /\
    KexRtlUnicodeStringEndsWith up String [] CaseInsensitive = true /\
    ((length String < length EndsWith)%nat ->
     KexRtlUnicodeStringEndsWith up String EndsWith CaseInsensitive = false).
Proof.
  intros up String EndsWith CaseInsensitive f.
  assert (Hgen : forall (g : WCHAR -> WCHAR) (ci : bool) (E : UNICODE_STRING),
             g = (if ci then up else fun c => c) ->
             KexRtlUnicodeStringEndsWith up String E ci = true <->
             exists front back, String = front ++ back /\ map g back = map g E).
  { intros g ci E Hg.
    unfold KexRtlUnicodeStringEndsWith, KexRtlUnicodeStringCch,
      RtlEqualUnicodeString. rewrite <- Hg.
    destruct (Z.ltb_spec (Z.of_nat (length String) - Z.of_nat (length E)) 0)
      as [Hlt | Hge].
    - split; [discriminate |].
      intros (front & back & -> & Hmap).
      apply (f_equal (@length _)) in Hmap. rewrite !length_map in Hmap.
      rewrite length_app in Hlt. lia.
    - rewrite wstr_eqb_true.
      replace (Z.to_nat (Z.of_nat (length String) - Z.of_nat (length E)))
        with (length String - length E)%nat by lia.
      rewrite firstn_all2 by (rewrite length_skipn; lia).
      split.
      + intros Hmap.
        exists (firstn (length String - length E) String),
               (skipn (length String - length E) String).
        split; [symmetry; apply firstn_skipn | exact Hmap].
      + intros (front & back & -> & Hmap).
        assert (length back = length E)
          by (apply (f_equal (@length _)) in Hmap;
              rewrite !length_map in Hmap; exact Hmap).
        rewrite length_app.
        replace (length front + length back - length E)%nat
          with (length front) by lia.
        rewrite drop_app_length. exact Hmap. }
  split; [apply Hgen; reflexivity |].
  split.
  - rewrite (Hgen (fun c => c) false EndsWith eq_refl). split.
    + intros (front & back & -> & Hmap). rewrite !map_id in Hmap.
      subst back. eauto.
    + intros (front & ->). exists front, EndsWith. auto.
  - split.
    + apply (Hgen f CaseInsensitive [] eq_refl).
      exists String, []. rewrite app_nil_r. auto.
    + intros Hlen.
      destruct (KexRtlUnicodeStringEndsWith up String EndsWith CaseInsensitive)
        eqn:He; [| reflexivity].
      apply (Hgen f CaseInsensitive EndsWith eq_refl) in He
        as (front & back & -> & Hmap).
      apply (f_equal (@length _)) in Hmap. rewrite !length_map in Hmap.
      rewrite length_app in Hlen. lia.
Qed.

(** X1 at work: a path in capitals ends with "ntdll.dll" when case is
    ignored; a shorter string does not. *)
Lemma KexRtlUnicodeStringEndsWith_spec_witness :
  KexRtlUnicodeStringEndsWith Ref.upcase (wide "C:\NTDLL.DLL") NtdllBaseName
    true = true /\
  KexRtlUnicodeStringEndsWith Ref.upcase (wide "dll") NtdllBaseName true
    = false.
Proof.
  destruct (KexRtlUnicodeStringEndsWith_spec Ref.upcase (wide "C:\NTDLL.DLL")
              NtdllBaseName true) as (H1 & _).
  destruct (KexRtlUnicodeStringEndsWith_spec Ref.upcase (wide "dll")
              NtdllBaseName true) as (_ & _ & _ & H2).
  split.
  - apply H1. exists (wide "C:\"), (wide "NTDLL.DLL"). split; reflexivity.
  - apply H2. vm_compute. lia.
Defined.

(** ** KexRtlWriteProcessMemory *)

(** X2.  Let the kernel honour [MemoryContract] and let every address of
    the destination have the same protection [p0] before the call.  If
    KexRtlWriteProcessMemory gets as far as its three calls and the third,
    the restoring protection change, succeeds, then every destination
    address has protection [p0] again after the call, whatever the status
    of the write was: a failed write does not leave the pages writable. *)
Theorem KexRtlWriteProcessMemory_restores_after_failed_write :
  forall (St : Type) (api : NtApi St)
         (protection_at byte_at : St -> HANDLE -> Z -> option Z)
         (h : HANDLE) (Dest : Z) (Src : PVOID) (Cb p0 : Z) (w w' : World St)
         (Status : NTSTATUS) (c1 c2 c3 : Syscall * NTSTATUS),
    MemoryContract api protection_at byte_at ->
    (forall x, Dest <= x < Dest + Cb ->
       protection_at (kernel w) h x = Some p0) ->
    KexRtlWriteProcessMemory api h Dest Src Cb w = (Status, w') ->
    calls w' = calls w ++ [c1; c2; c3] ->
    NT_SUCCESS (snd c3) = true ->
    Status = snd c2 /\
    forall x, Dest <= x < Dest + Cb ->
      protection_at (kernel w') h x = Some p0.
Proof.
  intros St api protection_at byte_at h Dest Src Cb p0 w w' Status c1 c2 c3
         MC Huni Hrun Hcalls Hrestore.
  destruct (NtProtectVirtualMemory api h Dest Cb PAGE_READWRITE (kernel w))
    as [[st1 [[a' size'] old]] s1] eqn:H1.
  rewrite (KexRtlWriteProcessMemory_run api h Dest Src Cb w _ _ _ _ _ H1)
    in Hrun.
  destruct (NT_SUCCESS st1) eqn:Hst1.
  - cbv zeta in Hrun.
    destruct (NtWriteVirtualMemory api h Dest Src Cb s1) as [st2 s2] eqn:H2.
    simpl in Hrun.
    destruct (NtProtectVirtualMemory api h a' size' old s2)
      as [[st3 [[a'' size''] old']] s3] eqn:H3.
    simpl in Hrun. injection Hrun as <- <-. simpl in *.
    apply app_inv_head in Hcalls. injection Hcalls as <- <- <-.
    simpl in Hrestore. split; [reflexivity |].
    intros x Hx.
    assert (Hcb : 0 < Cb) by lia.
    pose proof (protect_covers _ _ _ MC _ _ _ _ _ _ _ _ _ _ H1 Hst1 Hcb) as Hc1.
    pose proof (protect_old _ _ _ MC _ _ _ _ _ _ _ _ _ _ H1 Hst1 Hcb) as Hold.
    rewrite (Huni Dest ltac:(lia)) in Hold. injection Hold as <-.
    assert (Hsz : 0 < size') by lia.
    pose proof (protect_covers _ _ _ MC _ _ _ _ _ _ _ _ _ _ H3 Hrestore Hsz)
      as Hc2.
    apply (protect_sets _ _ _ MC _ _ _ _ _ _ _ _ _ _ H3 Hrestore). lia.
  - injection Hrun as <- <-. simpl in Hcalls.
    apply app_inv_head in Hcalls. discriminate.
Qed.

Lemma ref_checked_write_cases (h : HANDLE) (dst src : PVOID) (cb : Z)
  (s s' : Ref.Kernel) (st : NTSTATUS) :
  RefChecked.write_virtual_memory h dst src cb s = (st, s') ->
  (NT_SUCCESS st = false /\ s' = s) \/
  Ref.write_virtual_memory h dst src cb s = (st, s').
Proof.
  unfold RefChecked.write_virtual_memory.
  destruct (Ref.processes s NtCurrentProcess); [| auto].
  destruct (_ && _); [| auto].
  intros H. injection H as <- <-. left. split; reflexivity.
Qed.

(** The checking kernel honours the memory contract as well. *)
Lemma ref_checked_memory_contract :
  MemoryContract RefChecked.api Ref.protection_at Ref.byte_at.
Proof.
  pose proof ref_memory_contract as MC.
  split.
  - exact (protect_covers _ _ _ MC).
  - exact (protect_sets _ _ _ MC).
  - exact (protect_old _ _ _ MC).
  - exact (protect_keeps_bytes _ _ _ MC).
  - intros h dst src cb s st s' H Hst.
    destruct (ref_checked_write_cases _ _ _ _ _ _ _ H) as [[Hf _] | Hr];
      [simpl in H; congruence |].
    exact (write_copies _ _ _ MC h dst src cb s st s' Hr Hst).
  - intros h dst src cb s st s' H h' x.
    destruct (ref_checked_write_cases _ _ _ _ _ _ _ H) as [[_ ->] | Hr];
      [reflexivity |].
    exact (write_keeps_protection _ _ _ MC h dst src cb s st s' Hr h' x).
Qed.

(** X2 on the sample kernel with the checking write: the caller cannot
    read its source buffer at 0x500000, the write is refused, and the
    page at 0x401000 is read-only again. *)
Lemma KexRtlWriteProcessMemory_restores_after_failed_write_witness :
  fst (KexRtlWriteProcessMemory RefChecked.api 7 0x401234 0x500000 4
         (Ref.boot Ref.sample)) = STATUS_ACCESS_VIOLATION /\
  Ref.protection_at
    (kernel (snd (KexRtlWriteProcessMemory RefChecked.api 7 0x401234 0x500000
                    4 (Ref.boot Ref.sample)))) 7 0x401237
    = Some PAGE_READONLY.
Proof.
  destruct (KexRtlWriteProcessMemory_restores_after_failed_write Ref.Kernel
              RefChecked.api Ref.protection_at Ref.byte_at 7 0x401234 0x500000
              4 PAGE_READONLY (Ref.boot Ref.sample)
              (snd (KexRtlWriteProcessMemory RefChecked.api 7 0x401234
                      0x500000 4 (Ref.boot Ref.sample)))
              STATUS_ACCESS_VIOLATION
              (SysProtectVirtualMemory 7 0x401234 4 PAGE_READWRITE,
               STATUS_SUCCESS)
              (SysWriteVirtualMemory 7 0x401234 0x500000 4,
               STATUS_ACCESS_VIOLATION)
              (SysProtectVirtualMemory 7 0x401000 0x1000 PAGE_READONLY,
               STATUS_SUCCESS)
              ref_checked_memory_contract) as [_ Hprot];
    try reflexivity.
  - intros x Hx. unfold Ref.protection_at. simpl.
    replace (x / Ref.PAGE_SIZE) with 0x401; [reflexivity |].
    pose proof (ref_page_of x 0x401 0x401 ltac:(unfold Ref.PAGE_SIZE; lia)).
    lia.
  - split; [reflexivity | apply Hprot; lia].
Defined.

(** ** KexRtlGetNativeSystemDllBase *)

Section LocatorCalls.

Context {St : Type}.
Variable api : NtApi St.
Variable host : Host.
Variable up : WCHAR -> WCHAR.

(** A probe leaves one or two entries in the log, both for the probed
    address. *)
Lemma probe_calls (a : PVOID) (w : World St) :
  calls (snd (probe api host up a w)) = calls w ++ [name_event api a w] \/
  calls (snd (probe api host up a w))
    = calls w ++ [name_event api a w; basic_event api host a w].
Proof.
  rewrite probe_run.
  destruct (negb (NT_SUCCESS _)); [left; reflexivity |].
  cbv zeta.
  destruct (negb (NT_SUCCESS _)); [right; reflexivity |].
  destruct (negb (_ =? MEM_IMAGE)); [right; reflexivity |].
  destruct (KexRtlUnicodeStringEndsWith _ _ _ _); right; reflexivity.
Qed.

Lemma scan_calls (fuel : nat) :
  AllocationBaseContract api ->
  forall (a k : Z) (w : World St),
    a <= 0x7FFD0000 -> 0 <= k ->
    a - 0x70000000 <= 0x10000 * k ->
    exists probes,
      calls (snd (scan api host up fuel a w)) = calls w ++ probes /\
      Forall is_probe_query probes /\
      Z.of_nat (length probes) <= 2 * k.
Proof.
  intros HC. induction fuel as [| fuel IH]; intros a k w Hhi Hk Hrange; simpl.
  - exists []. rewrite app_nil_r.
    destruct (a >? 0x70000000); simpl; repeat split; try constructor; lia.
  - destruct (Z.gtb_spec a 0x70000000) as [Hgt | Hle].
    2: { exists []. rewrite app_nil_r. simpl.
         repeat split; try constructor; lia. }
    unfold bind.
    pose proof (probe_candidate_below api host up a w HC
                  ltac:(unfold MM_LOWEST_USER_ADDRESS; lia)) as Hc.
    pose proof (probe_calls a w) as Hcalls.
    assert (Hq1 : is_probe_query (name_event api a w))
      by (exists a, MemoryMappedFilenameInformation, MappedFileNameLength;
          split; [reflexivity | lia]).
    assert (Hq2 : is_probe_query (basic_event api host a w))
      by (exists a, MemoryBasicInformation,
                 (sizeof_MEMORY_BASIC_INFORMATION host);
          split; [reflexivity | lia]).
    assert (Hevs : exists evs,
               calls (snd (probe api host up a w)) = calls w ++ evs /\
               Forall is_probe_query evs /\ Z.of_nat (length evs) <= 2).
    { destruct Hcalls as [-> | ->]; eexists; (split; [reflexivity |]);
        split; try (repeat constructor; assumption); simpl; lia. }
    destruct Hevs as (evs & Hevs & Hall & Hlen).
    destruct (probe api host up a w) as [[c | b] w1]; simpl in *.
    + unfold MM_LOWEST_USER_ADDRESS in Hc.
      rewrite ULONG_PTR_small by lia.
      destruct (IH (c - 0x10000) (k - 1) w1 ltac:(lia) ltac:(lia) ltac:(lia))
        as (probes & Hp & Hallp & Hlenp).
      exists (evs ++ probes). rewrite Hp, Hevs, <- app_assoc.
      split; [reflexivity |]. split; [apply Forall_app; auto |].
      rewrite length_app. lia.
    + exists evs. repeat split; auto. lia.
Qed.

End LocatorCalls.

(** X3.  Let the kernel honour the allocation-base contract.  The calls
    of KexRtlGetNativeSystemDllBase are: first, and only when the caller
    has the width of the system, one loader call for "ntdll.dll"; then,
    unless that call succeeded, queries of the calling process's own
    address space at probe addresses above 0x70000000 and not above
    0x7FFD0000, at most 8186 of them.  When the widths differ the loader
    is not called. *)
Theorem KexRtlGetNativeSystemDllBase_calls :
  forall (St : Type) (api : NtApi St) (host : Host) (up : WCHAR -> WCHAR)
         (fuel : nat) (w : World St),
    AllocationBaseContract api ->
    exists first probes,
      calls (snd (KexRtlGetNativeSystemDllBase api host up fuel w))
        = calls w ++ first ++ probes /\
      Forall is_probe_query probes /\
      Z.of_nat (length probes) <= 8186 /\
      ((KexRtlCurrentProcessBitness host <> KexRtlOperatingSystemBitness host
        /\ first = []) \/
       (KexRtlCurrentProcessBitness host = KexRtlOperatingSystemBitness host
        /\ exists st,
             first = [(SysLdrGetDllHandleByName NtdllBaseName, st)] /\
             (NT_SUCCESS st = true -> probes = []))).
Proof.
  intros St api host up fuel w HC.
  assert (Hsearch : forall w0, exists probes,
             calls (snd (search api host up fuel w0)) = calls w0 ++ probes /\
             Forall is_probe_query probes /\ Z.of_nat (length probes) <= 8186).
  { intros w0.
    destruct (scan_calls api host up fuel HC 0x7FFD0000 4093 w0
                ltac:(lia) ltac:(lia) ltac:(lia)) as (probes & Hp & Hall & Hlen).
    exists probes. unfold search, bind, ret.
    destruct (scan api host up fuel 0x7FFD0000 w0) as [[b | |] w1];
      simpl in *; repeat split; auto; lia. }
  unfold KexRtlGetNativeSystemDllBase.
  destruct (Z.eqb_spec (KexRtlCurrentProcessBitness host)
                       (KexRtlOperatingSystemBitness host)) as [Heq | Hne].
  - unfold_calls.
    destruct (LdrGetDllHandleByName api NtdllBaseName (kernel w))
      as [[st b] s1]. simpl.
    destruct (NT_SUCCESS st) eqn:Hst.
    + exists [(SysLdrGetDllHandleByName NtdllBaseName, st)], [].
      simpl.
      split; [reflexivity |]. split; [constructor |]. split; [lia |].
      right. split; [exact Heq |]. exists st. auto.
    + destruct (Hsearch
                  (mkWorld s1 (calls w ++
                     [(SysLdrGetDllHandleByName NtdllBaseName, st)])))
        as (probes & Hp & Hall & Hlen).
      exists [(SysLdrGetDllHandleByName NtdllBaseName, st)], probes.
      split; [rewrite Hp; simpl; rewrite <- app_assoc; reflexivity |].
      split; [exact Hall |]. split; [exact Hlen |].
      right. split; [exact Heq |]. exists st.
      split; [reflexivity | congruence].
  - destruct (Hsearch w) as (probes & Hp & Hall & Hlen).
    exists [], probes. simpl.
    split; [exact Hp |]. split; [exact Hall |]. split; [exact Hlen |].
    left. auto.
Qed.

(** X3 on the sample kernel, for a 32-bit caller on a 64-bit system. *)
Lemma KexRtlGetNativeSystemDllBase_calls_witness :
  exists first probes,
    calls (snd (KexRtlGetNativeSystemDllBase Ref.api Ref.wow64 Ref.upcase 4093
                  (Ref.boot Ref.sample)))
      = [] ++ first ++ probes /\
    Forall is_probe_query probes /\
    Z.of_nat (length probes) <= 8186 /\
    ((KexRtlCurrentProcessBitness Ref.wow64
        <> KexRtlOperatingSystemBitness Ref.wow64 /\ first = []) \/
     (KexRtlCurrentProcessBitness Ref.wow64
        = KexRtlOperatingSystemBitness Ref.wow64 /\
      exists st,
        first = [(SysLdrGetDllHandleByName NtdllBaseName, st)] /\
        (NT_SUCCESS st = true -> probes = []))).
Proof.
  exact (KexRtlGetNativeSystemDllBase_calls Ref.Kernel Ref.api Ref.wow64
           Ref.upcase 4093 (Ref.boot Ref.sample) ref_allocation_base_contract).
Defined.

(** ** KexRtlMiniGetProcedureAddress *)

Lemma load_memory (n : nat) (a : PVOID) (w : Image) :
  memory (snd (load n a w)) = memory w.
Proof. unfold load. destruct (load_int n (memory w) a); reflexivity. Qed.

Lemma StringEqualA_memory (a b : PVOID) (w : Image) :
  memory (snd (StringEqualA a b w)) = memory w.
Proof. unfold StringEqualA. destruct (strings_equal _ _ _ _); reflexivity. Qed.

Lemma store_memory (n : nat) (a : PVOID) (v : Z) (w : Image) :
  match fst (store n a v w) with
  | Ok _ => store_int n (memory w) a v = Some (memory (snd (store n a v w)))
  | _ => memory (snd (store n a v w)) = memory w
  end.
Proof. unfold store. destruct (store_int n (memory w) a v); reflexivity. Qed.

Section ResolverMemory.

Variable host : Host.
Variable dir : gmap Z Z -> PVOID -> bool -> Z -> PVOID * Z.
Variable DllBase ProcedureName ProcedureAddress ExportDirectory : PVOID.
Variable NameRvas FunctionRvas NameOrdinals : PVOID.

Local Abbreviation loop fuel Index :=
  (names_loop host fuel DllBase ProcedureName ProcedureAddress ExportDirectory
     NameRvas FunctionRvas NameOrdinals Index).

(** What the loop does to memory: nothing, unless it ends with success,
    and then a single store to the output slot. *)
Lemma names_loop_memory (fuel : nat) :
  forall (Index : Z) (w : Image),
    match fst (loop fuel Index w) with
    | Ok st =>
        (st = STATUS_SUCCESS /\
         exists v, store_int (sizeof_PVOID host) (memory w) ProcedureAddress v
                   = Some (memory (snd (loop fuel Index w)))) \/
        (st = STATUS_ENTRYPOINT_NOT_FOUND /\
         memory (snd (loop fuel Index w)) = memory w)
    | _ => memory (snd (loop fuel Index w)) = memory w
    end.
Proof.
  induction fuel as [| fuel IH]; intros Index w; simpl names_loop;
    unfold bindR, load_ULONG, load_USHORT, store_PVOID.
  - pose proof (load_memory 4 (field host ExportDirectory OFFSET_NumberOfNames) w)
      as H1.
    destruct (load 4 _ w) as [[n | |] w1]; simpl in *; auto.
    destruct (Index <? n); simpl; auto.
  - pose proof (load_memory 4 (field host ExportDirectory OFFSET_NumberOfNames) w)
      as H1.
    destruct (load 4 _ w) as [[n | |] w1]; simpl in *; auto.
    destruct (Index <? n); simpl; [| auto].
    pose proof (load_memory 4 (element host NameRvas 4 Index) w1) as H2.
    destruct (load 4 _ w1) as [[rva | |] w2]; simpl in *; try congruence.
    pose proof (StringEqualA_memory ProcedureName
                  (RVA_TO_VA host DllBase rva) w2) as H3.
    destruct (StringEqualA _ _ w2) as [[[|] | |] w3]; simpl in *;
      try congruence.
    + pose proof (load_memory 2 (element host NameOrdinals 2 Index) w3) as H4.
      destruct (load 2 _ w3) as [[ord | |] w4]; simpl in *; try congruence.
      pose proof (load_memory 4 (element host FunctionRvas 4 ord) w4) as H5.
      destruct (load 4 _ w4) as [[frva | |] w5]; simpl in *; try congruence.
      pose proof (store_memory (sizeof_PVOID host) ProcedureAddress
                    (RVA_TO_VA host DllBase frva) w5) as H6.
      destruct (store _ _ _ w5) as [[[] | |] w6]; simpl in *; try congruence.
      left. split; [reflexivity |]. eexists.
      rewrite <- H1, <- H2, <- H3, <- H4, <- H5. exact H6.
    + specialize (IH ((Index + 1) mod 2 ^ 32) w3).
      rewrite H3, H2, H1 in IH. exact IH.
Qed.

End ResolverMemory.

(** The memory the routine leaves, case by case. *)
Lemma KexRtlMiniGetProcedureAddress_memory (host : Host)
  (dir : gmap Z Z -> PVOID -> bool -> Z -> PVOID * Z) (fuel : nat)
  (DllBase ProcedureName ProcedureAddress : PVOID) (w : Image) :
  let r := KexRtlMiniGetProcedureAddress host dir fuel DllBase ProcedureName
             ProcedureAddress w in
  if (DllBase =? 0) || (ProcedureName =? 0) || (ProcedureAddress =? 0) then
    memory (snd r) = memory w
  else
    match store_int (sizeof_PVOID host) (memory w) ProcedureAddress NULL with
    | None => memory (snd r) = memory w
    | Some m1 =>
        (fst r <> Ok STATUS_SUCCESS /\ memory (snd r) = m1) \/
        (fst r = Ok STATUS_SUCCESS /\
         exists v, store_int (sizeof_PVOID host) m1 ProcedureAddress v
                   = Some (memory (snd r)))
    end.
Proof.
  cbv zeta. unfold KexRtlMiniGetProcedureAddress.
  destruct (_ || _ || _); [reflexivity |].
  unfold bindR, store_PVOID, store, call_RtlImageDirectoryEntryToData,
    load_ULONG.
  cbv beta zeta.
  destruct (store_int (sizeof_PVOID host) (memory w) ProcedureAddress NULL)
    as [m1 |]; cbv beta iota zeta; [| reflexivity].
  cbn [fst memory].
  destruct (_ =? 0); [left; split; [discriminate | reflexivity] |].
  set (w1 := mkImage m1 _).
  assert (Hw1 : memory w1 = m1) by reflexivity.
  clearbody w1.
  pose proof (load_memory 4 (field host (fst (dir m1 DllBase true
                IMAGE_DIRECTORY_ENTRY_EXPORT)) OFFSET_AddressOfNames) w1) as H1.
  destruct (load 4 _ w1) as [[x1 | |] w2]; simpl in *;
    try (left; split; [discriminate | congruence]).
  pose proof (load_memory 4 (field host (fst (dir m1 DllBase true
                IMAGE_DIRECTORY_ENTRY_EXPORT)) OFFSET_AddressOfFunctions) w2)
    as H2.
  destruct (load 4 _ w2) as [[x2 | |] w3]; simpl in *;
    try (left; split; [discriminate | congruence]).
  pose proof (load_memory 4 (field host (fst (dir m1 DllBase true
                IMAGE_DIRECTORY_ENTRY_EXPORT)) OFFSET_AddressOfNameOrdinals) w3)
    as H3.
  destruct (load 4 _ w3) as [[x3 | |] w4]; simpl in *;
    try (left; split; [discriminate | congruence]).
  assert (Hw4 : memory w4 = m1) by congruence.
  pose proof (names_loop_memory host DllBase ProcedureName ProcedureAddress
                (fst (dir m1 DllBase true IMAGE_DIRECTORY_ENTRY_EXPORT))
                (RVA_TO_VA host DllBase x1) (RVA_TO_VA host DllBase x2)
                (RVA_TO_VA host DllBase x3) fuel 0 w4) as Hloop.
  destruct (names_loop _ _ _ _ _ _ _ _ _ _ w4) as [[st | |] w5];
    simpl in *; rewrite Hw4 in Hloop.
  - destruct Hloop as [[-> Hv] | [-> Hm]].
    + right. split; [reflexivity | exact Hv].
    + left. split; [discriminate | exact Hm].
  - left. split; [discriminate | exact Hloop].
  - left. split; [discriminate | exact Hloop].
Qed.

(** X4.  Once the arguments have passed the null check and the output
    slot has been cleared, every outcome of KexRtlMiniGetProcedureAddress
    other than success leaves the slot cleared and the rest of memory as
    it was: the slot holds NULL after a failure.  When the image has no
    export directory the outcome is STATUS_INVALID_IMAGE_FORMAT. *)
Theorem KexRtlMiniGetProcedureAddress_failure_clears_slot :
  forall (host : Host) (dir : gmap Z Z -> PVOID -> bool -> Z -> PVOID * Z)
         (fuel : nat) (DllBase ProcedureName ProcedureAddress : PVOID)
         (w : Image) (m1 : gmap Z Z),
    DllBase <> NULL -> ProcedureName <> NULL -> ProcedureAddress <> NULL ->
    store_int (sizeof_PVOID host) (memory w) ProcedureAddress NULL = Some m1 ->
    let r := KexRtlMiniGetProcedureAddress host dir fuel DllBase ProcedureName
               ProcedureAddress w in
    (fst r <> Ok STATUS_SUCCESS ->
       memory (snd r) = m1 /\
       load_int (sizeof_PVOID host) (memory (snd r)) ProcedureAddress
         = Some NULL) /\
    (fst (dir m1 DllBase true IMAGE_DIRECTORY_ENTRY_EXPORT) = NULL ->
       fst r = Ok STATUS_INVALID_IMAGE_FORMAT).
Proof.
  intros host dir fuel DllBase ProcedureName ProcedureAddress w m1
         H1 H2 H3 Hstore r.
  split.
  - intros Hfail.
    assert (Hm : memory (snd r) = m1).
    { pose proof (KexRtlMiniGetProcedureAddress_memory host dir fuel DllBase
                    ProcedureName ProcedureAddress w) as Hc.
      cbv zeta in Hc. fold r in Hc. unfold NULL in *.
      apply Z.eqb_neq in H1, H2, H3. rewrite H1, H2, H3 in Hc.
      cbn [orb] in Hc. rewrite Hstore in Hc.
      destruct Hc as [[_ Hm] | [Hok _]]; [exact Hm | contradiction]. }
    split; [exact Hm |]. rewrite Hm.
    apply (store_int_load _ _ _ _ _ Hstore).
  - intros Hdir. subst r. unfold KexRtlMiniGetProcedureAddress, NULL in *.
    apply Z.eqb_neq in H1, H2, H3. rewrite H1, H2, H3. cbn [orb].
    unfold bindR at 1, store_PVOID.
    rewrite (store_ok _ _ _ _ m1 Hstore).
    unfold bindR at 1, call_RtlImageDirectoryEntryToData.
    cbv beta iota zeta. cbn [memory fst]. rewrite Hdir. reflexivity.
Qed.

Lemma sample_no_directory :
  fst (RefImage.image_directory_entry_to_data RefImage.cleared 0x20000 true
         IMAGE_DIRECTORY_ENTRY_EXPORT) = NULL.
Proof. vm_compute. reflexivity. Qed.

(** X4 on the sample memory: the bytes at 0x20000 are no image, so the
    lookup of the export directory fails; the slot has been cleared. *)
Lemma KexRtlMiniGetProcedureAddress_failure_clears_slot_witness :
  fst (KexRtlMiniGetProcedureAddress Ref.wow64
         RefImage.image_directory_entry_to_data 8 0x20000 0x20010 0x20100
         RefImage.sample) = Ok STATUS_INVALID_IMAGE_FORMAT /\
  memory (snd (KexRtlMiniGetProcedureAddress Ref.wow64
                 RefImage.image_directory_entry_to_data 8 0x20000 0x20010
                 0x20100 RefImage.sample)) = RefImage.cleared /\
  load_int (sizeof_PVOID Ref.wow64)
    (memory (snd (KexRtlMiniGetProcedureAddress Ref.wow64
                    RefImage.image_directory_entry_to_data 8 0x20000 0x20010
                    0x20100 RefImage.sample))) 0x20100 = Some NULL.
Proof.
  assert (HB : 0x20000 <> NULL) by discriminate.
  assert (HN : 0x20010 <> NULL) by discriminate.
  assert (HS : 0x20100 <> NULL) by discriminate.
  destruct (KexRtlMiniGetProcedureAddress_failure_clears_slot Ref.wow64
              RefImage.image_directory_entry_to_data 8 0x20000 0x20010 0x20100
              RefImage.sample RefImage.cleared HB HN HS sample_cleared)
    as [Hfail Hdir].
  specialize (Hdir sample_no_directory).
  split; [exact Hdir |].
  apply Hfail. rewrite Hdir. discriminate.
Defined.

(** X5.  Whatever its outcome, KexRtlMiniGetProcedureAddress writes
    nowhere but into the output slot: every byte outside the slot is
    after the call what it was before, and no byte is mapped or
    unmapped. *)
Theorem KexRtlMiniGetProcedureAddress_writes_only_slot :
  forall (host : Host) (dir : gmap Z Z -> PVOID -> bool -> Z -> PVOID * Z)
         (fuel : nat) (DllBase ProcedureName ProcedureAddress : PVOID)
         (w : Image) (x : Z),
    let r := KexRtlMiniGetProcedureAddress host dir fuel DllBase ProcedureName
               ProcedureAddress w in
    (x < ProcedureAddress \/
     ProcedureAddress + Z.of_nat (sizeof_PVOID host) <= x ->
     memory (snd r) !! x = memory w !! x) /\
    (is_Some (memory (snd r) !! x) <-> is_Some (memory w !! x)).
Proof.
  intros host dir fuel DllBase ProcedureName ProcedureAddress w x r.
  pose proof (KexRtlMiniGetProcedureAddress_memory host dir fuel DllBase
                ProcedureName ProcedureAddress w) as Hc.
  cbv zeta in Hc. fold r in Hc.
  destruct (_ || _ || _); [rewrite Hc; tauto |].
  destruct (store_int _ (memory w) _ NULL) as [m1 |] eqn:Hclear;
    [| rewrite Hc; tauto].
  unfold store_int in Hclear.
  pose proof (store_bytes_lookup _ _ _ _ x Hclear) as [Hout1 Hdom1].
  rewrite length_encode_le in Hout1.
  destruct Hc as [[_ ->] | [_ [v Hv]]]; [tauto |].
  unfold store_int in Hv.
  pose proof (store_bytes_lookup _ _ _ _ x Hv) as [Hout2 Hdom2].
  rewrite length_encode_le in Hout2.
  split.
  - intros Hx. rewrite Hout2, Hout1 by exact Hx. reflexivity.
  - rewrite Hdom2, Hdom1. tauto.
Qed.

(** X5 on the sample image: resolving "Foo" succeeds and leaves the first
    byte of the caller's string, below the slot, as it was. *)
Lemma KexRtlMiniGetProcedureAddress_writes_only_slot_witness :
  memory (snd (KexRtlMiniGetProcedureAddress Ref.wow64
                 RefImage.image_directory_entry_to_data 8 RefImage.B 0x20000
                 0x20100 RefImage.sample)) !! 0x20000
  = memory RefImage.sample !! 0x20000.
Proof.
  apply (proj1 (KexRtlMiniGetProcedureAddress_writes_only_slot Ref.wow64
                  RefImage.image_directory_entry_to_data 8 RefImage.B 0x20000
                  0x20100 RefImage.sample 0x20000)).
  left. lia.
Defined.

(** ** Counted strings as structures *)

Lemma ULONG_PTR_idemp (host : Host) (a b : Z) :
  ULONG_PTR host (ULONG_PTR host a + b) = ULONG_PTR host (a + b).
Proof. unfold ULONG_PTR. apply Zplus_mod_idemp_l. Qed.

Lemma PWCHAR_add_add (host : Host) (p i j : Z) :
  Counted.PWCHAR_add host (Counted.PWCHAR_add host p i) j
  = Counted.PWCHAR_add host p (i + j).
Proof.
  unfold Counted.PWCHAR_add, element. rewrite ULONG_PTR_idemp.
  f_equal. lia.
Qed.

Lemma PWCHAR_add_0 (host : Host) (p : Z) :
  0 <= p < 2 ^ KexRtlCurrentProcessBitness host ->
  Counted.PWCHAR_add host p 0 = p.
Proof.
  intros Hp. unfold Counted.PWCHAR_add, element, ULONG_PTR.
  rewrite Z.mul_0_r, Z.add_0_r. apply Z.mod_small. exact Hp.
Qed.

Lemma USHORT_idemp_sub_add (a b : Z) :
  0 <= a < 2 ^ 16 -> Counted.USHORT (Counted.USHORT (a - b) + b) = a.
Proof.
  intros Ha. unfold Counted.USHORT. rewrite Zplus_mod_idemp_l.
  replace (a - b + b) with a by lia. apply Z.mod_small. exact Ha.
Qed.

Lemma USHORT_idemp_add_sub (a b : Z) :
  0 <= a < 2 ^ 16 -> Counted.USHORT (Counted.USHORT (a + b) - b) = a.
Proof.
  intros Ha. unfold Counted.USHORT. rewrite Zminus_mod_idemp_l.
  replace (a + b - b) with a by lia. apply Z.mod_small. exact Ha.
Qed.

(** X6.  KexRtlRetreatUnicodeString undoes KexRtlAdvanceUnicodeString by
    the same byte count, and the other way round, for every byte count:
    also for one larger than the length, where the counts wrap, and for
    an odd one. *)
Theorem KexRtlAdvanceUnicodeString_round_trip :
  forall (host : Host) (String : Counted.UNICODE_STRING) (Cb : Z),
    0 <= Counted.Length String < 2 ^ 16 ->
    0 <= Counted.MaximumLength String < 2 ^ 16 ->
    0 <= Counted.Buffer String < 2 ^ KexRtlCurrentProcessBitness host ->
    Counted.KexRtlRetreatUnicodeString host
      (Counted.KexRtlAdvanceUnicodeString host String Cb) Cb = String /\
    Counted.KexRtlAdvanceUnicodeString host
      (Counted.KexRtlRetreatUnicodeString host String Cb) Cb = String.
Proof.
  intros host [L M B] Cb HL HM HB. simpl in *.
  unfold Counted.KexRtlRetreatUnicodeString,
    Counted.KexRtlAdvanceUnicodeString. simpl.
  rewrite !PWCHAR_add_add, Z.add_opp_diag_r, Z.add_opp_diag_l,
    !(PWCHAR_add_0 host B HB), !USHORT_idemp_sub_add, !USHORT_idemp_add_sub
    by assumption.
  split; reflexivity.
Qed.

(** X6 for a string of eight bytes at 0x20000, advanced by ten bytes: the
    length wraps to 65534 and comes back. *)
Lemma KexRtlAdvanceUnicodeString_round_trip_witness :
  Counted.KexRtlRetreatUnicodeString Ref.wow64
    (Counted.KexRtlAdvanceUnicodeString Ref.wow64
       (Counted.mkString 8 8 0x20000) 10) 10
  = Counted.mkString 8 8 0x20000 /\
  Counted.Length (Counted.KexRtlAdvanceUnicodeString Ref.wow64
                    (Counted.mkString 8 8 0x20000) 10) = 65534.
Proof.
  split.
  - apply (proj1 (KexRtlAdvanceUnicodeString_round_trip Ref.wow64
                    (Counted.mkString 8 8 0x20000) 10
                    ltac:(simpl; lia) ltac:(simpl; lia)
                    ltac:(vm_compute; split; [discriminate | reflexivity]))).
  - reflexivity.
Defined.

(** The characters of a structure whose buffer is [k] characters further
    and whose length is [2 * k] bytes less. *)
Lemma characters_shift (host : Host) (m : gmap Z Z)
  (String String' : Counted.UNICODE_STRING) (k : Z) (l : list WCHAR) :
  0 <= k <= Counted.Length String / 2 ->
  Counted.Buffer String' = Counted.PWCHAR_add host (Counted.Buffer String) k ->
  Counted.Length String' / 2 = Counted.Length String / 2 - k ->
  Counted.characters host m String = Some l ->
  Counted.characters host m String' = Some (drop (Z.to_nat k) l).
Proof.
  unfold Counted.characters. intros Hk HB HL Hl.
  rewrite HB, HL. apply mapM_Some. apply mapM_Some in Hl.
  assert (Hsplit : seqZ 0 (Counted.Length String / 2)
                   = seqZ 0 k ++ seqZ k (Counted.Length String / 2 - k)).
  { replace (Counted.Length String / 2)
      with (k + (Counted.Length String / 2 - k)) at 1 by lia.
    rewrite seqZ_app by lia. reflexivity. }
  rewrite Hsplit in Hl.
  apply Forall2_app_inv_l in Hl as (l1 & l2 & H1 & H2 & ->).
  assert (Hlen : length l1 = Z.to_nat k).
  { apply Forall2_length in H1. rewrite length_seqZ in H1. lia. }
  rewrite <- Hlen, drop_app_length.
  replace (seqZ k (Counted.Length String / 2 - k))
    with ((fun i => k + i) <$> seqZ 0 (Counted.Length String / 2 - k)) in H2
    by (rewrite fmap_add_seqZ; f_equal; lia).
  apply Forall2_fmap_l in H2.
  eapply Forall2_impl; [exact H2 |].
  intros i c. simpl. rewrite PWCHAR_add_add. auto.
Qed.

(** X7.  Advancing a string by an even number of bytes within its length
    drops that many bytes' worth of leading characters and keeps the
    rest. *)
Theorem KexRtlAdvanceUnicodeString_characters :
  forall (host : Host) (m : gmap Z Z) (String : Counted.UNICODE_STRING)
         (AdvanceCb : Z) (l : list WCHAR),
    0 <= AdvanceCb <= Counted.Length String ->
    Counted.Length String < 2 ^ 16 ->
    AdvanceCb mod 2 = 0 ->
    Counted.characters host m String = Some l ->
    Counted.characters host m
      (Counted.KexRtlAdvanceUnicodeString host String AdvanceCb)
    = Some (drop (Z.to_nat (AdvanceCb / 2)) l).
Proof.
  intros host m String AdvanceCb l Hcb HL Heven Hl.
  apply (characters_shift host m String); [| reflexivity | | exact Hl].
  - split; [apply Z.div_pos; lia | apply Z.div_le_mono; lia].
  - simpl. unfold Counted.USHORT. rewrite Z.mod_small by lia.
    rewrite (Z.div_mod AdvanceCb 2) at 1 by lia. rewrite Heven, Z.add_0_r.
    replace (Counted.Length String - 2 * (AdvanceCb / 2))
      with (Counted.Length String + (- (AdvanceCb / 2)) * 2) by lia.
    rewrite Z.div_add by lia. lia.
Qed.

Lemma sample_path_characters :
  Counted.characters Ref.wow64 RefText.sample_memory RefText.Path
  = Some (wide "C:\Windows\notepad.exe").
Proof. vm_compute. reflexivity. Qed.

(** X7 on the sample path: advanced by the 22 bytes of its directory, it
    reads "notepad.exe". *)
Lemma KexRtlAdvanceUnicodeString_characters_witness :
  Counted.characters Ref.wow64 RefText.sample_memory
    (Counted.KexRtlAdvanceUnicodeString Ref.wow64 RefText.Path 22)
  = Some (wide "notepad.exe").
Proof.
  apply (KexRtlAdvanceUnicodeString_characters Ref.wow64 RefText.sample_memory
           RefText.Path 22 (wide "C:\Windows\notepad.exe")
           ltac:(simpl; lia) ltac:(simpl; lia) ltac:(reflexivity)
           sample_path_characters).
Defined.

(** X8.  With both pointers given, KexRtlPathFindFileName succeeds
    whatever the status of the helper, and the structure it fills in is
    the path advanced by the characters the helper counted: it reads the
    path without its first [LengthWithoutLastElement] characters. *)
Theorem KexRtlPathFindFileName_characters :
  forall (host : Host) (helper : Z -> Counted.UNICODE_STRING -> NTSTATUS * Z)
         (m : gmap Z Z) (Path FileName : Counted.UNICODE_STRING)
         (l : list WCHAR),
    let LengthWithoutLastElement := snd (helper 0 Path) in
    0 <= 2 * LengthWithoutLastElement <= Counted.Length Path ->
    Counted.Length Path < 2 ^ 16 ->
    Counted.characters host m Path = Some l ->
    exists FileName',
      Counted.KexRtlPathFindFileName host helper (Some Path) (Some FileName)
      = (STATUS_SUCCESS, Some FileName') /\
      Counted.characters host m FileName'
      = Some (drop (Z.to_nat LengthWithoutLastElement) l).
Proof.
  intros host helper m Path FileName l L HL HP Hl.
  unfold Counted.KexRtlPathFindFileName. fold L.
  eexists. split; [reflexivity |].
  assert (Hlen : Counted.USHORT (Counted.Length Path - Counted.USHORT (L * 2))
                 = Counted.Length Path - 2 * L).
  { unfold Counted.USHORT. rewrite (Z.mod_small (L * 2)) by lia.
    rewrite Z.mod_small by lia. lia. }
  apply (characters_shift host m Path); [| reflexivity | | exact Hl].
  - split; [lia | apply Z.div_le_lower_bound; lia].
  - cbn [Counted.Length]. rewrite Hlen.
    replace (Counted.Length Path - 2 * L)
      with (Counted.Length Path + (- L) * 2) by lia.
    rewrite Z.div_add by lia. lia.
Qed.

Lemma sample_path_helper :
  snd (RefText.length_without_last_element RefText.sample_memory 0
         RefText.Path) = 11.
Proof. vm_compute. reflexivity. Qed.

(** X8 on the sample path: the file name is "notepad.exe". *)
Lemma KexRtlPathFindFileName_characters_witness :
  exists FileName',
    Counted.KexRtlPathFindFileName Ref.wow64
      (RefText.length_without_last_element RefText.sample_memory)
      (Some RefText.Path) (Some (Counted.mkString 0 0 0))
    = (STATUS_SUCCESS, Some FileName') /\
    Counted.characters Ref.wow64 RefText.sample_memory FileName'
    = Some (wide "notepad.exe").
Proof.
  destruct (KexRtlPathFindFileName_characters Ref.wow64
              (RefText.length_without_last_element RefText.sample_memory)
              RefText.sample_memory RefText.Path (Counted.mkString 0 0 0)
              (wide "C:\Windows\notepad.exe")
              ltac:(rewrite sample_path_helper; simpl; lia)
              ltac:(simpl; lia) sample_path_characters)
    as (F & Hrun & Hchars).
  exists F. split; [exact Hrun |].
  rewrite Hchars, sample_path_helper. reflexivity.
Defined.

(** ** The substring search *)

(** Clearing the lowest bit of a byte count. *)
Lemma land_lnot_1 (x : Z) : Z.land x (Z.lnot 1) = 2 * (x / 2).
Proof.
  apply Z.bits_inj'. intros n Hn.
  rewrite Z.land_spec, Z.lnot_spec by lia.
  rewrite <- Z.shiftr_div_pow2 with (n := 1) by lia.
  change (2 * Z.shiftr x 1) with (2 ^ 1 * Z.shiftr x 1).
  rewrite Z.mul_comm, <- Z.shiftl_mul_pow2 by lia.
  destruct (decide (n = 0)) as [-> | Hne].
  - rewrite Z.shiftl_spec_low by lia. simpl. apply andb_false_r.
  - rewrite Z.shiftl_spec by lia. rewrite Z.shiftr_spec by lia.
    replace (n - 1 + 1) with n by lia.
    replace (Z.testbit 1 n) with false; [apply andb_true_r |].
    symmetry. apply (Z.bits_above_log2 1 n); simpl; lia.
Qed.

(** X9.  KexRtlFindUnicodeSubstring answers NULL without reading any
    memory when the needle has no whole character, when the haystack has
    none, or when the needle has more whole characters than the
    haystack. *)
Theorem KexRtlFindUnicodeSubstring_guard :
  forall (host : Host) (ToUpper : WCHAR -> WCHAR) (fuel : nat)
         (Haystack Needle : Counted.UNICODE_STRING) (CaseInsensitive : bool)
         (w : Image),
    Counted.Length Needle / 2 = 0 \/
    Counted.Length Haystack / 2 = 0 \/
    Counted.Length Needle / 2 > Counted.Length Haystack / 2 ->
    Counted.KexRtlFindUnicodeSubstring host ToUpper fuel Haystack Needle
      CaseInsensitive w = (Ok NULL, w).
Proof.
  intros host ToUpper fuel Haystack Needle CaseInsensitive w H.
  unfold Counted.KexRtlFindUnicodeSubstring. rewrite !land_lnot_1.
  replace ((2 * (Counted.Length Needle / 2) >?
            2 * (Counted.Length Haystack / 2))
           || (2 * (Counted.Length Haystack / 2) =? 0)
           || (2 * (Counted.Length Needle / 2) =? 0)) with true;
    [reflexivity |].
  symmetry. rewrite !orb_true_iff, Z.gtb_gt, !Z.eqb_eq. lia.
Qed.

(** X9 on the sample memory: a needle of one byte has no whole
    character. *)
Lemma KexRtlFindUnicodeSubstring_guard_witness :
  Counted.KexRtlFindUnicodeSubstring Ref.wow64 Ref.upcase 0 RefText.Path
    (Counted.mkString 1 2 0x30100) true RefText.sample
  = (Ok NULL, RefText.sample).
Proof.
  apply KexRtlFindUnicodeSubstring_guard. left. reflexivity.
Defined.

Section SubstringSearch.

Variable host : Host.
Variable ToUpper : WCHAR -> WCHAR.
Variable m : gmap Z Z.
Hypothesis Hspace : Counted.in_address_space host m.

(** A readable character lies in the address space together with the
    address after it. *)
Lemma load_WCHAR_space (a c : Z) :
  load_int 2 m a = Some c ->
  0 <= a /\ a + 2 < 2 ^ KexRtlCurrentProcessBitness host.
Proof using Hspace.
  unfold load_int. simpl load_bytes.
  destruct (m !! a) as [b0 |] eqn:H0; [| discriminate].
  destruct (m !! (a + 1)) as [b1 |] eqn:H1; [| discriminate].
  intros _. apply Hspace in H0, H1. simpl in *. lia.
Qed.

Lemma load_WCHAR_inv (a : PVOID) (w w' : Image) (c : WCHAR) :
  memory w = m ->
  Counted.load_WCHAR a w = (Ok c, w') ->
  load_int 2 m a = Some c /\ memory w' = m /\
  Counted.PWCHAR_add host a 1 = a + 2.
Proof using Hspace.
  intros Hm. unfold Counted.load_WCHAR, load. rewrite Hm.
  destruct (load_int 2 m a) as [v |] eqn:Hl; [| discriminate].
  intros H. injection H as <- <-.
  split; [reflexivity |]. split; [reflexivity |].
  apply load_WCHAR_space in Hl.
  unfold Counted.PWCHAR_add, element, ULONG_PTR. apply Z.mod_small. lia.
Qed.

(** The locals of a run of the search. *)
Variable NeedleFirst : WCHAR.
Variable NeedleBufferEnd HaystackBufferEnd HaystackBufferRealEnd : PVOID.

Local Abbreviation rest_post f :=
  (Counted.rest_post m f NeedleBufferEnd HaystackBufferRealEnd).
Local Abbreviation first_at f := (Counted.first_at m f NeedleFirst).
Local Abbreviation found_at f :=
  (Counted.found_at m f NeedleFirst NeedleBufferEnd HaystackBufferRealEnd).

Lemma agree_one (f : WCHAR -> WCHAR) (H N : PVOID) (h n : WCHAR) :
  load_int 2 m H = Some h -> load_int 2 m N = Some n -> f h = f n ->
  Counted.agree m f H N 1.
Proof.
  intros Lh Ln E i Hi. assert (i = 0) as -> by lia.
  rewrite !Z.mul_0_r, !Z.add_0_r. eauto.
Qed.

Lemma agree_step (f : WCHAR -> WCHAR) (H N : PVOID) (j : Z) :
  Counted.agree m f H N 1 -> Counted.agree m f (H + 2) (N + 2) j ->
  Counted.agree m f H N (j + 1).
Proof.
  intros Hone Hagree i Hi. destruct (decide (i = 0)) as [-> | Hne].
  - apply Hone. lia.
  - destruct (Hagree (i - 1) ltac:(lia)) as (h' & n' & L1 & L2 & E').
    exists h', n'.
    replace (H + 2 * i) with (H + 2 + 2 * (i - 1)) by lia.
    replace (N + 2 * i) with (N + 2 + 2 * (i - 1)) by lia.
    auto.
Qed.

Lemma rest_post_step (f : WCHAR -> WCHAR) (Start H N : PVOID)
  (r : Counted.Flow) :
  Counted.agree m f H N 1 ->
  rest_post f Start (H + 2) (N + 2) r -> rest_post f Start H N r.
Proof.
  intros Hone. destruct r as [H' | p]; simpl.
  - intros [Hle Hpar]. split; [lia |].
    replace (H' - H) with ((H' - (H + 2)) + 1 * 2) by lia.
    rewrite Z.mod_add by lia. exact Hpar.
  - intros [-> (j & Hj & Hreal & Hend & Hagree)].
    split; [reflexivity |]. exists (j + 1).
    split; [lia |]. split; [lia |]. split; [lia |].
    apply agree_step; assumption.
Qed.

Lemma rest_insensitive_spec (Start : PVOID) (fuel : nat) :
  forall (H N : PVOID) (w w' : Image) (r : Counted.Flow),
    memory w = m ->
    Counted.rest_insensitive host ToUpper NeedleBufferEnd
      HaystackBufferRealEnd fuel Start H N w = (Ok r, w') ->
    memory w' = m /\ rest_post ToUpper Start H N r.
Proof using Hspace.
  induction fuel as [| fuel IH]; intros H N w w' r Hm; simpl;
    [discriminate |].
  unfold bindR at 1.
  destruct (Counted.load_WCHAR H w) as [[h | |] w1] eqn:Eh; try discriminate.
  destruct (load_WCHAR_inv _ _ _ _ Hm Eh) as (Lh & Hm1 & HH).
  unfold bindR at 1.
  destruct (Counted.load_WCHAR N w1) as [[n | |] w2] eqn:En; try discriminate.
  destruct (load_WCHAR_inv _ _ _ _ Hm1 En) as (Ln & Hm2 & HN).
  rewrite HH, HN.
  destruct (ToUpper h =? ToUpper n) eqn:Eq.
  - apply Z.eqb_eq in Eq.
    pose proof (agree_one ToUpper _ _ _ _ Lh Ln Eq) as Hone.
    destruct (H + 2 >? HaystackBufferRealEnd) eqn:Ereal.
    + intros E. injection E as <- <-. split; [exact Hm2 |]. simpl.
      split; [lia |]. replace (H + 2 - H) with 2 by lia. reflexivity.
    + rewrite Z.gtb_ltb in Ereal. apply Z.ltb_ge in Ereal.
      destruct (N + 2 >=? NeedleBufferEnd) eqn:Eend.
      * apply Z.geb_le in Eend.
        intros E. injection E as <- <-. split; [exact Hm2 |]. simpl.
        split; [reflexivity |]. exists 1.
        split; [lia |]. split; [lia |]. split; [lia | exact Hone].
      * intros E. destruct (IH _ _ _ _ _ Hm2 E) as [Hm' Hpost].
        split; [exact Hm' |]. apply rest_post_step; assumption.
  - intros E. injection E as <- <-. split; [exact Hm2 |]. simpl.
    split; [lia |]. rewrite Z.sub_diag. reflexivity.
Qed.

Lemma rest_sensitive_spec (Start : PVOID) (fuel : nat) :
  forall (H N : PVOID) (w w' : Image) (r : Counted.Flow),
    memory w = m ->
    Counted.rest_sensitive host NeedleBufferEnd HaystackBufferRealEnd
      fuel Start H N w = (Ok r, w') ->
    memory w' = m /\ rest_post (fun c => c) Start H N r.
Proof using Hspace.
  induction fuel as [| fuel IH]; intros H N w w' r Hm; simpl;
    [discriminate |].
  unfold bindR at 1.
  destruct (Counted.load_WCHAR H w) as [[h | |] w1] eqn:Eh; try discriminate.
  destruct (load_WCHAR_inv _ _ _ _ Hm Eh) as (Lh & Hm1 & HH).
  unfold bindR at 1.
  destruct (Counted.load_WCHAR N w1) as [[n | |] w2] eqn:En; try discriminate.
  destruct (load_WCHAR_inv _ _ _ _ Hm1 En) as (Ln & Hm2 & HN).
  rewrite HH, HN.
  destruct (h =? n) eqn:Eq.
  - apply Z.eqb_eq in Eq.
    pose proof (agree_one (fun c => c) _ _ _ _ Lh Ln Eq) as Hone.
    destruct (H + 2 >? HaystackBufferRealEnd) eqn:Ereal.
    + intros E. injection E as <- <-. split; [exact Hm2 |]. simpl.
      split; [lia |]. replace (H + 2 - H) with 2 by lia. reflexivity.
    + rewrite Z.gtb_ltb in Ereal. apply Z.ltb_ge in Ereal.
      destruct (N + 2 >=? NeedleBufferEnd) eqn:Eend.
      * apply Z.geb_le in Eend.
        intros E. injection E as <- <-. split; [exact Hm2 |]. simpl.
        split; [reflexivity |]. exists 1.
        split; [lia |]. split; [lia |]. split; [lia | exact Hone].
      * intros E. destruct (IH _ _ _ _ _ Hm2 E) as [Hm' Hpost].
        split; [exact Hm' |]. apply rest_post_step; assumption.
  - intros E. injection E as <- <-. split; [exact Hm2 |]. simpl.
    split; [lia |]. replace (H + 2 - H) with 2 by lia. reflexivity.
Qed.

(** The loops that look for the first character leave with the pointer
    on a character that is the first of the needle (the case-sensitive
    loop: one past it), or return NULL. *)
Lemma first_insensitive_spec (fuel : nat) :
  forall (H : PVOID) (w w' : Image) (r : Counted.Flow),
    memory w = m ->
    Counted.first_insensitive host ToUpper NeedleFirst HaystackBufferEnd
      fuel H w = (Ok r, w') ->
    memory w' = m /\
    match r with
    | Counted.Return p => p = NULL
    | Counted.Leave H1 =>
        H <= H1 /\ (H1 - H) mod 2 = 0 /\ first_at ToUpper H1 /\
        Counted.PWCHAR_add host H1 1 = H1 + 2
    end.
Proof using Hspace.
  induction fuel as [| fuel IH]; intros H w w' r Hm; simpl;
    [discriminate |].
  unfold bindR at 1.
  destruct (Counted.load_WCHAR H w) as [[c | |] w1] eqn:Ec; try discriminate.
  destruct (load_WCHAR_inv _ _ _ _ Hm Ec) as (Lc & Hm1 & HH).
  rewrite HH.
  destruct (ToUpper c =? NeedleFirst) eqn:Eq; simpl negb; cbv iota.
  - apply Z.eqb_eq in Eq. intros E. injection E as <- <-.
    split; [exact Hm1 |]. split; [lia |].
    split; [rewrite Z.sub_diag; reflexivity |].
    split; [exists c; auto | exact HH].
  - destruct (H + 2 >? HaystackBufferEnd).
    + intros E. injection E as <- <-. split; [exact Hm1 | reflexivity].
    + intros E. destruct (IH _ _ _ _ Hm1 E) as [Hm' Hpost].
      split; [exact Hm' |]. destruct r as [H1 | p]; [| exact Hpost].
      destruct Hpost as (Hle & Hpar & Hfirst & Hadd).
      split; [lia |]. split; [| auto].
      replace (H1 - H) with ((H1 - (H + 2)) + 1 * 2) by lia.
      rewrite Z.mod_add by lia. exact Hpar.
Qed.

Lemma first_sensitive_spec (fuel : nat) :
  forall (H : PVOID) (w w' : Image) (r : Counted.Flow),
    memory w = m ->
    Counted.first_sensitive host NeedleFirst HaystackBufferEnd
      fuel H w = (Ok r, w') ->
    memory w' = m /\
    match r with
    | Counted.Return p => p = NULL
    | Counted.Leave H1 =>
        H <= H1 - 2 /\ (H1 - 2 - H) mod 2 = 0 /\
        first_at (fun c => c) (H1 - 2) /\
        Counted.PWCHAR_add host H1 (-1) = H1 - 2
    end.
Proof using Hspace.
  induction fuel as [| fuel IH]; intros H w w' r Hm; simpl;
    [discriminate |].
  unfold bindR at 1.
  destruct (Counted.load_WCHAR H w) as [[c | |] w1] eqn:Ec; try discriminate.
  destruct (load_WCHAR_inv _ _ _ _ Hm Ec) as (Lc & Hm1 & HH).
  rewrite HH.
  destruct (c =? NeedleFirst) eqn:Eq; simpl negb; cbv iota.
  - apply Z.eqb_eq in Eq. intros E. injection E as <- <-.
    split; [exact Hm1 |]. replace (H + 2 - 2) with H by lia.
    split; [lia |]. split; [rewrite Z.sub_diag; reflexivity |].
    split; [exists c; auto |].
    apply load_WCHAR_space in Lc.
    unfold Counted.PWCHAR_add, element, ULONG_PTR.
    replace (H + 2 + 2 * -1) with H by lia. apply Z.mod_small. lia.
  - destruct (H + 2 >? HaystackBufferEnd).
    + intros E. injection E as <- <-. split; [exact Hm1 | reflexivity].
    + intros E. destruct (IH _ _ _ _ Hm1 E) as [Hm' Hpost].
      split; [exact Hm' |]. destruct r as [H1 | p]; [| exact Hpost].
      destruct Hpost as (Hle & Hpar & Hfirst & Hadd).
      split; [lia |]. split; [| auto].
      replace (H1 - 2 - H) with ((H1 - 2 - (H + 2)) + 1 * 2) by lia.
      rewrite Z.mod_add by lia. exact Hpar.
Qed.

(** The outer loops: a result other than NULL is a place where the
    needle has been found. *)
Lemma search_insensitive_spec (Base : PVOID) (Needle : Counted.UNICODE_STRING)
  (fuel : nat) :
  forall (H : PVOID) (w w' : Image) (p : PVOID),
    memory w = m -> Base <= H -> (H - Base) mod 2 = 0 ->
    Counted.search_insensitive host ToUpper NeedleFirst NeedleBufferEnd
      HaystackBufferEnd HaystackBufferRealEnd fuel Needle H w = (Ok p, w') ->
    p <> NULL ->
    memory w' = m /\
    found_at ToUpper Base
      (Counted.PWCHAR_add host (Counted.Buffer Needle) 1) p.
Proof using Hspace.
  induction fuel as [| fuel IH]; intros H w w' p Hm Hbase Hpar;
    [discriminate |].
  cbn [Counted.search_insensitive]. cbv zeta.
  unfold bindR at 1.
  destruct (Counted.first_insensitive _ _ _ _ _ H w)
    as [[[H1 | q] | |] w1] eqn:E1; try discriminate.
  - destruct (first_insensitive_spec _ _ _ _ _ Hm E1)
      as (Hm1 & Hle & Hpar1 & Hfirst & Hadd).
    rewrite Hadd. unfold bindR at 1.
    destruct (Counted.rest_insensitive _ _ _ _ _ H1 (H1 + 2) _ w1)
      as [[[H3 | q] | |] w2] eqn:E2; try discriminate.
    + destruct (rest_insensitive_spec _ _ _ _ _ _ _ Hm1 E2)
        as (Hm2 & Hle3 & Hpar3).
      apply IH; [exact Hm2 | lia |].
      replace (H3 - Base) with ((H3 - (H1 + 2)) + ((H1 - H) + ((H - Base) + 2)))
        by lia.
      rewrite <- Zplus_mod_idemp_l, Hpar3, Z.add_0_l.
      rewrite <- Zplus_mod_idemp_l, Hpar1, Z.add_0_l.
      rewrite <- Zplus_mod_idemp_l, Hpar, Z.add_0_l. reflexivity.
    + destruct (rest_insensitive_spec _ _ _ _ _ _ _ Hm1 E2)
        as (Hm2 & -> & j & Hj & Hreal & Hend & Hagree).
      intros E _. injection E as <- <-. split; [exact Hm2 |].
      split; [lia |]. split.
      { replace (H1 - Base) with ((H1 - H) + (H - Base)) by lia.
        rewrite <- Zplus_mod_idemp_l, Hpar1, Z.add_0_l. exact Hpar. }
      split; [exact Hfirst |]. exists j. auto.
  - destruct (first_insensitive_spec _ _ _ _ _ Hm E1) as (Hm1 & ->).
    intros E Hp. injection E as <- <-. contradiction.
Qed.

Lemma search_sensitive_spec (Base : PVOID) (Needle : Counted.UNICODE_STRING)
  (fuel : nat) :
  forall (H : PVOID) (w w' : Image) (p : PVOID),
    memory w = m -> Base <= H -> (H - Base) mod 2 = 0 ->
    Counted.search_sensitive host NeedleFirst NeedleBufferEnd
      HaystackBufferEnd HaystackBufferRealEnd fuel Needle H w = (Ok p, w') ->
    p <> NULL ->
    memory w' = m /\
    found_at (fun c => c) Base
      (Counted.PWCHAR_add host (Counted.Buffer Needle) 1) p.
Proof using Hspace.
  induction fuel as [| fuel IH]; intros H w w' p Hm Hbase Hpar;
    [discriminate |].
  cbn [Counted.search_sensitive]. cbv zeta.
  unfold bindR at 1.
  destruct (Counted.first_sensitive _ _ _ _ H w)
    as [[[H1 | q] | |] w1] eqn:E1; try discriminate.
  - destruct (first_sensitive_spec _ _ _ _ _ Hm E1)
      as (Hm1 & Hle & Hpar1 & Hfirst & Hadd).
    rewrite Hadd. unfold bindR at 1.
    destruct (Counted.rest_sensitive _ _ _ _ (H1 - 2) H1 _ w1)
      as [[[H3 | q] | |] w2] eqn:E2; try discriminate.
    + destruct (rest_sensitive_spec _ _ _ _ _ _ _ Hm1 E2)
        as (Hm2 & Hle3 & Hpar3).
      apply IH; [exact Hm2 | lia |].
      replace (H3 - Base)
        with ((H3 - H1) + ((H1 - 2 - H) + ((H - Base) + 2))) by lia.
      rewrite <- Zplus_mod_idemp_l, Hpar3, Z.add_0_l.
      rewrite <- Zplus_mod_idemp_l, Hpar1, Z.add_0_l.
      rewrite <- Zplus_mod_idemp_l, Hpar, Z.add_0_l. reflexivity.
    + destruct (rest_sensitive_spec _ _ _ _ _ _ _ Hm1 E2)
        as (Hm2 & -> & j & Hj & Hreal & Hend & Hagree).
      intros E _. injection E as <- <-. split; [exact Hm2 |].
      split; [lia |]. split.
      { replace (H1 - 2 - Base) with ((H1 - 2 - H) + (H - Base)) by lia.
        rewrite <- Zplus_mod_idemp_l, Hpar1, Z.add_0_l. exact Hpar. }
      split; [exact Hfirst |]. exists j.
      replace (H1 - 2 + 2) with H1 by lia. auto.
  - destruct (first_sensitive_spec _ _ _ _ _ Hm E1) as (Hm1 & ->).
    intros E Hp. injection E as <- <-. contradiction.
Qed.

End SubstringSearch.

(** The characters of a readable string sit at consecutive addresses,
    none of which wraps around the address space. *)
Lemma characters_lookup (host : Host) (m : gmap Z Z)
  (String : Counted.UNICODE_STRING) (l : list WCHAR) :
  Counted.in_address_space host m ->
  0 <= Counted.Buffer String < 2 ^ KexRtlCurrentProcessBitness host ->
  Counted.characters host m String = Some l ->
  length l = Z.to_nat (Counted.Length String / 2) /\
  forall (i : nat) (c : WCHAR),
    l !! i = Some c ->
    load_int 2 m (Counted.Buffer String + 2 * Z.of_nat i) = Some c /\
    Counted.Buffer String + 2 * Z.of_nat i + 2
      < 2 ^ KexRtlCurrentProcessBitness host.
Proof.
  intros Hspace HB Hl. unfold Counted.characters in Hl.
  apply mapM_Some in Hl.
  pose proof (Forall2_length _ _ _ Hl) as Hlen. rewrite length_seqZ in Hlen.
  split; [lia |].
  assert (Hread : forall (i : nat) (c : WCHAR), l !! i = Some c ->
            load_int 2 m (Counted.PWCHAR_add host (Counted.Buffer String)
                            (Z.of_nat i)) = Some c).
  { intros i c Hi.
    destruct (Forall2_lookup_r _ _ _ _ _ Hl Hi) as (x & Hx & Hload).
    apply lookup_seqZ in Hx as [-> _]. exact Hload. }
  assert (Hwrap : forall i : nat, (i < length l)%nat ->
            Counted.Buffer String + 2 * Z.of_nat i + 2
              < 2 ^ KexRtlCurrentProcessBitness host /\
            Counted.PWCHAR_add host (Counted.Buffer String) (Z.of_nat i)
              = Counted.Buffer String + 2 * Z.of_nat i).
  { induction i as [| i IH]; intros Hi.
    - destruct (lookup_lt_is_Some_2 l 0%nat Hi) as [c Hc].
      pose proof (Hread _ _ Hc) as Hload.
      assert (Hadd : Counted.PWCHAR_add host (Counted.Buffer String)
                       (Z.of_nat 0) = Counted.Buffer String + 2 * Z.of_nat 0).
      { unfold Counted.PWCHAR_add, element, ULONG_PTR.
        apply Z.mod_small. simpl. lia. }
      rewrite Hadd in Hload.
      apply (load_WCHAR_space host m Hspace) in Hload. split; [lia | exact Hadd].
    - destruct (IH ltac:(lia)) as [Hlt _].
      destruct (lookup_lt_is_Some_2 l (S i) Hi) as [c Hc].
      pose proof (Hread _ _ Hc) as Hload.
      assert (Hadd : Counted.PWCHAR_add host (Counted.Buffer String)
                       (Z.of_nat (S i))
                     = Counted.Buffer String + 2 * Z.of_nat (S i)).
      { unfold Counted.PWCHAR_add, element, ULONG_PTR.
        apply Z.mod_small. lia. }
      rewrite Hadd in Hload.
      apply (load_WCHAR_space host m Hspace) in Hload. split; [lia | exact Hadd]. }
  intros i c Hc.
  destruct (Hwrap i (lookup_lt_Some _ _ _ Hc)) as [Hlt Hadd].
  split; [| exact Hlt]. rewrite <- Hadd. apply Hread. exact Hc.
Qed.

(** A place where the needle has been found, in terms of the characters
    of the two strings. *)
Lemma found_at_characters (host : Host) (m : gmap Z Z) (f : WCHAR -> WCHAR)
  (Haystack Needle : Counted.UNICODE_STRING) (hs ns : list WCHAR)
  (c : WCHAR) (p : PVOID) :
  Counted.in_address_space host m ->
  0 <= Counted.Buffer Haystack < 2 ^ KexRtlCurrentProcessBitness host ->
  0 <= Counted.Buffer Needle < 2 ^ KexRtlCurrentProcessBitness host ->
  Counted.characters host m Haystack = Some hs ->
  Counted.characters host m Needle = Some ns ->
  1 <= Counted.Length Needle / 2 <= Counted.Length Haystack / 2 ->
  load_int 2 m (Counted.Buffer Needle) = Some c ->
  Counted.found_at m f (f c)
    (Counted.Buffer Needle + 2 * (Counted.Length Needle / 2))
    (Counted.Buffer Haystack + 2 * (Counted.Length Haystack / 2))
    (Counted.Buffer Haystack) (Counted.Buffer Needle + 2) p ->
  exists pre mid post,
    hs = pre ++ mid ++ post /\
    p = Counted.Buffer Haystack + 2 * Z.of_nat (length pre) /\
    map f mid = map f ns.
Proof.
  intros Hspace HBH HBN Hhs Hns Hlen Hc
         (Hbase & Hpar & (c0 & Lc0 & Ec0) & j & Hj & Hreal & Hend & Hagree).
  destruct (characters_lookup host m Haystack hs Hspace HBH Hhs)
    as [Hlhs Hhs_at].
  destruct (characters_lookup host m Needle ns Hspace HBN Hns)
    as [Hlns Hns_at].
  set (k := (p - Counted.Buffer Haystack) / 2).
  assert (Hp : p = Counted.Buffer Haystack + 2 * k).
  { unfold k.
    pose proof (Z.div_mod (p - Counted.Buffer Haystack) 2 ltac:(lia)). lia. }
  assert (Hk : 0 <= k) by (unfold k; apply Z.div_pos; lia).
  set (n := Counted.Length Needle / 2) in *.
  set (h := Counted.Length Haystack / 2) in *.
  assert (Hfit : k + n <= h) by lia.
  (* the characters at [p + 2 * i] and at [Buffer Needle + 2 * i] agree *)
  assert (Hall : forall i, 0 <= i < n ->
            exists x y, load_int 2 m (p + 2 * i) = Some x /\
                        load_int 2 m (Counted.Buffer Needle + 2 * i) = Some y /\
                        f x = f y).
  { intros i Hi. destruct (decide (i = 0)) as [-> | Hne].
    - exists c0, c. rewrite !Z.mul_0_r, !Z.add_0_r. auto.
    - destruct (Hagree (i - 1) ltac:(lia)) as (x & y & Lx & Ly & E).
      exists x, y.
      replace (p + 2 * i) with (p + 2 + 2 * (i - 1)) by lia.
      replace (Counted.Buffer Needle + 2 * i)
        with (Counted.Buffer Needle + 2 + 2 * (i - 1)) by lia.
      auto. }
  exists (take (Z.to_nat k) hs),
         (take (Z.to_nat n) (drop (Z.to_nat k) hs)),
         (drop (Z.to_nat n) (drop (Z.to_nat k) hs)).
  split; [rewrite !take_drop; reflexivity |].
  split; [rewrite length_take; lia |].
  apply (list_eq_same_length _ _ (Z.to_nat n)).
  - rewrite length_map. lia.
  - rewrite length_map, length_take, length_drop. lia.
  - intros i x y Hi. rewrite !list_lookup_fmap.
    rewrite lookup_take, decide_True by lia. rewrite lookup_drop.
    destruct (hs !! (Z.to_nat k + i)%nat) as [x' |] eqn:Hx;
      [| simpl; discriminate].
    destruct (ns !! i) as [y' |] eqn:Hy; [| simpl; discriminate].
    simpl. intros Ex Ey. injection Ex as <-. injection Ey as <-.
    destruct (Hhs_at _ _ Hx) as [Lx _]. destruct (Hns_at _ _ Hy) as [Ly _].
    destruct (Hall (Z.of_nat i) ltac:(lia)) as (x & y & Lx' & Ly' & E).
    replace (Counted.Buffer Haystack + 2 * Z.of_nat (Z.to_nat k + i))
      with (p + 2 * Z.of_nat i) in Lx by lia.
    congruence.
Qed.

(** X10.  When KexRtlFindUnicodeSubstring returns a pointer other than
    NULL, the needle is really there: the pointer is the address of a
    character of the haystack from which on the characters of the needle
    follow, all within the haystack, compared as they are or, when case
    is ignored, after ToUpper.  The search has read memory only. *)
Theorem KexRtlFindUnicodeSubstring_sound :
  forall (host : Host) (ToUpper : WCHAR -> WCHAR) (fuel : nat)
         (Haystack Needle : Counted.UNICODE_STRING) (CaseInsensitive : bool)
         (w w' : Image) (p : PVOID) (hs ns : list WCHAR),
    Counted.in_address_space host (memory w) ->
    0 <= Counted.Buffer Haystack < 2 ^ KexRtlCurrentProcessBitness host ->
    0 <= Counted.Buffer Needle < 2 ^ KexRtlCurrentProcessBitness host ->
    0 <= Counted.Length Needle ->
    Counted.characters host (memory w) Haystack = Some hs ->
    Counted.characters host (memory w) Needle = Some ns ->
    Counted.KexRtlFindUnicodeSubstring host ToUpper fuel Haystack Needle
      CaseInsensitive w = (Ok p, w') ->
    p <> NULL ->
    memory w' = memory w /\
    exists pre mid post,
      hs = pre ++ mid ++ post /\
      p = Counted.Buffer Haystack + 2 * Z.of_nat (length pre) /\
      map (if CaseInsensitive then ToUpper else fun c => c) mid
      = map (if CaseInsensitive then ToUpper else fun c => c) ns.
Proof.
  intros host ToUpper fuel Haystack Needle CaseInsensitive w w' p hs ns
         Hspace HBH HBN HLN Hhs Hns Hrun Hp.
  unfold Counted.KexRtlFindUnicodeSubstring in Hrun.
  rewrite !land_lnot_1 in Hrun.
  set (n := Counted.Length Needle / 2) in *.
  set (h := Counted.Length Haystack / 2) in *.
  destruct ((2 * n >? 2 * h) || (2 * h =? 0) || (2 * n =? 0)) eqn:Hguard.
  { injection Hrun as <- <-. contradiction. }
  apply orb_false_iff in Hguard as [Hguard Hn0].
  apply orb_false_iff in Hguard as [Hgt Hh0].
  rewrite Z.gtb_ltb in Hgt. apply Z.ltb_ge in Hgt.
  apply Z.eqb_neq in Hn0, Hh0.
  destruct (characters_lookup host _ Haystack hs Hspace HBH Hhs)
    as [Hlhs Hhs_at].
  destruct (characters_lookup host _ Needle ns Hspace HBN Hns)
    as [Hlns Hns_at].
  fold n in Hlns. fold h in Hlhs.
  assert (Hn : 1 <= n).
  { assert (0 <= n) by (unfold n; apply Z.div_pos; lia). lia. }
  assert (Hh : n <= h) by lia.
  (* the last characters of the two strings bound the buffers *)
  destruct (lookup_lt_is_Some_2 ns (Z.to_nat (n - 1)) ltac:(lia)) as [cn Hcn].
  destruct (Hns_at _ _ Hcn) as [_ HNend].
  destruct (lookup_lt_is_Some_2 hs (Z.to_nat (h - 1)) ltac:(lia)) as [ch Hch].
  destruct (Hhs_at _ _ Hch) as [_ HHend].
  rewrite Z2Nat.id in HNend, HHend by lia.
  assert (ENend : Counted.PBYTE_add host (Counted.Buffer Needle) (2 * n)
                  = Counted.Buffer Needle + 2 * n).
  { unfold Counted.PBYTE_add, element, ULONG_PTR. rewrite Z.mod_small; lia. }
  assert (ERend : Counted.PBYTE_add host
                    (Counted.PBYTE_add host
                       (Counted.PBYTE_add host (Counted.Buffer Haystack) (2 * h))
                       (- (2 * n))) (2 * n)
                  = Counted.Buffer Haystack + 2 * h).
  { unfold Counted.PBYTE_add, element.
    rewrite ULONG_PTR_idemp, <- Z.add_assoc, ULONG_PTR_idemp.
    unfold ULONG_PTR. rewrite Z.mod_small; lia. }
  assert (ENone : Counted.PWCHAR_add host (Counted.Buffer Needle) 1
                  = Counted.Buffer Needle + 2).
  { unfold Counted.PWCHAR_add, element, ULONG_PTR. rewrite Z.mod_small; lia. }
  rewrite ENend, ERend in Hrun.
  assert (Hfound : forall f c, load_int 2 (memory w) (Counted.Buffer Needle)
                                 = Some c ->
            Counted.found_at (memory w) f (f c)
              (Counted.Buffer Needle + 2 * n) (Counted.Buffer Haystack + 2 * h)
              (Counted.Buffer Haystack) (Counted.Buffer Needle + 2) p ->
            exists pre mid post,
              hs = pre ++ mid ++ post /\
              p = Counted.Buffer Haystack + 2 * Z.of_nat (length pre) /\
              map f mid = map f ns).
  { intros f c Hc Hf.
    apply (found_at_characters host (memory w) f Haystack Needle hs ns c p);
      auto. }
  destruct CaseInsensitive; revert Hrun; unfold bindR at 1;
    destruct (Counted.load_WCHAR _ w) as [[c | |] w1] eqn:Ec;
    try discriminate;
    destruct (load_WCHAR_inv host _ Hspace _ _ _ _ eq_refl Ec)
      as (Lc & Hm1 & _); intros Hrun.
  - destruct (search_insensitive_spec host ToUpper (memory w) Hspace _ _ _ _
                (Counted.Buffer Haystack) Needle fuel
                (Counted.Buffer Haystack) w1 w' p Hm1
                ltac:(lia) ltac:(rewrite Z.sub_diag; reflexivity) Hrun Hp)
      as [Hm' Hf].
    split; [exact Hm' |]. rewrite ENone in Hf. exact (Hfound _ _ Lc Hf).
  - destruct (search_sensitive_spec host (memory w) Hspace _ _ _ _
                (Counted.Buffer Haystack) Needle fuel
                (Counted.Buffer Haystack) w1 w' p Hm1
                ltac:(lia) ltac:(rewrite Z.sub_diag; reflexivity) Hrun Hp)
      as [Hm' Hf].
    split; [exact Hm' |]. rewrite ENone in Hf.
    exact (Hfound (fun c => c) _ Lc Hf).
Qed.

Lemma sample_text_space :
  Counted.in_address_space Ref.wow64 RefText.sample_memory.
Proof.
  unfold Counted.in_address_space.
  apply (bool_decide_unpack _). vm_compute. exact I.
Qed.

Lemma sample_needle_characters :
  Counted.characters Ref.wow64 RefText.sample_memory RefText.UpperNeedle
  = Some (wide "PAD.").
Proof. vm_compute. reflexivity. Qed.

Lemma sample_search :
  fst (Counted.KexRtlFindUnicodeSubstring Ref.wow64 Ref.upcase 61
         RefText.Path RefText.UpperNeedle true RefText.sample)
  = Ok 0x3001E.
Proof. vm_compute. reflexivity. Qed.

(** X10 on the sample memory: "PAD." is found in the path when case is
    ignored, fifteen characters in. *)
Lemma KexRtlFindUnicodeSubstring_sound_witness :
  exists pre mid post,
    wide "C:\Windows\notepad.exe" = pre ++ mid ++ post /\
    0x3001E = Counted.Buffer RefText.Path + 2 * Z.of_nat (length pre) /\
    map Ref.upcase mid = map Ref.upcase (wide "PAD.").
Proof.
  assert (Hrun : Counted.KexRtlFindUnicodeSubstring Ref.wow64 Ref.upcase 61
                   RefText.Path RefText.UpperNeedle true RefText.sample
                 = (Ok 0x3001E,
                    snd (Counted.KexRtlFindUnicodeSubstring Ref.wow64
                           Ref.upcase 61 RefText.Path RefText.UpperNeedle
                           true RefText.sample))).
  { rewrite <- sample_search. apply surjective_pairing. }
  destruct (KexRtlFindUnicodeSubstring_sound Ref.wow64 Ref.upcase 61
              RefText.Path RefText.UpperNeedle true RefText.sample _ 0x3001E
              (wide "C:\Windows\notepad.exe") (wide "PAD.")
              sample_text_space
              ltac:(vm_compute; split; [discriminate | reflexivity])
              ltac:(vm_compute; split; [discriminate | reflexivity])
              ltac:(simpl; lia)
              sample_path_characters sample_needle_characters Hrun
              ltac:(discriminate)) as [_ H].
  exact H.
Defined.

(** ** The search ends *)

Lemma above_le_size (m : gmap Z Z) (H : PVOID) :
  (Counted.above m H <= size m)%nat.
Proof.
  unfold Counted.above. rewrite <- (size_dom m).
  apply subseteq_size. intros a. rewrite elem_of_filter. tauto.
Qed.

Lemma above_mono (m : gmap Z Z) (H H' : PVOID) :
  H <= H' -> (Counted.above m H' <= Counted.above m H)%nat.
Proof.
  intros Hle. unfold Counted.above. apply subseteq_size.
  intros a. rewrite !elem_of_filter. intros [? ?]. split; [lia | assumption].
Qed.

Lemma above_step (m : gmap Z Z) (H H' : Z) (c : WCHAR) :
  load_int 2 m H = Some c -> H < H' ->
  (Counted.above m H' < Counted.above m H)%nat.
Proof.
  intros Hload Hlt. unfold Counted.above. apply subset_size.
  assert (Hmapped : H ∈ dom m).
  { revert Hload. unfold load_int. simpl load_bytes.
    destruct (m !! H) as [b |] eqn:Hb; [intros _ | discriminate].
    apply elem_of_dom. eauto. }
  split.
  - intros a. rewrite !elem_of_filter. intros [? ?]. split; [lia | assumption].
  - intros Hsub. specialize (Hsub H). rewrite !elem_of_filter in Hsub.
    destruct Hsub as [? _]; [split; [lia | exact Hmapped] | lia].
Qed.

Lemma load_WCHAR_fuel (a : PVOID) (w w' : Image) :
  Counted.load_WCHAR a w = (NoFuel, w') -> False.
Proof.
  unfold Counted.load_WCHAR, load. destruct (load_int _ _ _); discriminate.
Qed.

Section SearchEnds.

Variable host : Host.
Variable ToUpper : WCHAR -> WCHAR.
Variable m : gmap Z Z.
Hypothesis Hspace : Counted.in_address_space host m.

Variable NeedleFirst : WCHAR.
Variable NeedleBufferEnd HaystackBufferEnd HaystackBufferRealEnd : PVOID.

Lemma first_insensitive_ends (fuel : nat) :
  forall (H : PVOID) (w : Image),
    memory w = m -> (Counted.above m H < fuel)%nat ->
    fst (Counted.first_insensitive host ToUpper NeedleFirst HaystackBufferEnd
           fuel H w) <> NoFuel.
Proof using Hspace.
  induction fuel as [| fuel IH]; intros H w Hm Hfuel; [lia |].
  simpl. unfold bindR at 1.
  destruct (Counted.load_WCHAR H w) as [[c | |] w1] eqn:Ec;
    [| simpl; discriminate |].
  - destruct (load_WCHAR_inv host m Hspace _ _ _ _ Hm Ec) as (Lc & Hm1 & HH).
    rewrite HH.
    destruct (negb _); [| simpl; discriminate].
    destruct (_ >? _); [simpl; discriminate |].
    apply IH; [exact Hm1 |].
    pose proof (above_step m H (H + 2) c Lc ltac:(lia)). lia.
  - destruct (load_WCHAR_fuel _ _ _ Ec).
Qed.

Lemma first_sensitive_ends (fuel : nat) :
  forall (H : PVOID) (w : Image),
    memory w = m -> (Counted.above m H < fuel)%nat ->
    fst (Counted.first_sensitive host NeedleFirst HaystackBufferEnd
           fuel H w) <> NoFuel.
Proof using Hspace.
  induction fuel as [| fuel IH]; intros H w Hm Hfuel; [lia |].
  simpl. unfold bindR at 1.
  destruct (Counted.load_WCHAR H w) as [[c | |] w1] eqn:Ec;
    [| simpl; discriminate |].
  - destruct (load_WCHAR_inv host m Hspace _ _ _ _ Hm Ec) as (Lc & Hm1 & HH).
    rewrite HH.
    destruct (negb _); [| simpl; discriminate].
    destruct (_ >? _); [simpl; discriminate |].
    apply IH; [exact Hm1 |].
    pose proof (above_step m H (H + 2) c Lc ltac:(lia)). lia.
  - destruct (load_WCHAR_fuel _ _ _ Ec).
Qed.

Lemma rest_insensitive_ends (Start : PVOID) (fuel : nat) :
  forall (H N : PVOID) (w : Image),
    memory w = m -> (Counted.above m H < fuel)%nat ->
    fst (Counted.rest_insensitive host ToUpper NeedleBufferEnd
           HaystackBufferRealEnd fuel Start H N w) <> NoFuel.
Proof using Hspace.
  induction fuel as [| fuel IH]; intros H N w Hm Hfuel; [lia |].
  simpl. unfold bindR at 1.
  destruct (Counted.load_WCHAR H w) as [[h | |] w1] eqn:Eh;
    [| simpl; discriminate |].
  - destruct (load_WCHAR_inv host m Hspace _ _ _ _ Hm Eh) as (Lh & Hm1 & HH).
    unfold bindR at 1.
    destruct (Counted.load_WCHAR N w1) as [[n | |] w2] eqn:En;
      [| simpl; discriminate |].
    + destruct (load_WCHAR_inv host m Hspace _ _ _ _ Hm1 En)
        as (Ln & Hm2 & HN).
      rewrite HH, HN.
      destruct (_ =? _); [| simpl; discriminate].
      destruct (_ >? _); [simpl; discriminate |].
      destruct (_ >=? _); [simpl; discriminate |].
      apply IH; [exact Hm2 |].
      pose proof (above_step m H (H + 2) h Lh ltac:(lia)). lia.
    + destruct (load_WCHAR_fuel _ _ _ En).
  - destruct (load_WCHAR_fuel _ _ _ Eh).
Qed.

Lemma rest_sensitive_ends (Start : PVOID) (fuel : nat) :
  forall (H N : PVOID) (w : Image),
    memory w = m -> (Counted.above m H < fuel)%nat ->
    fst (Counted.rest_sensitive host NeedleBufferEnd HaystackBufferRealEnd
           fuel Start H N w) <> NoFuel.
Proof using Hspace.
  induction fuel as [| fuel IH]; intros H N w Hm Hfuel; [lia |].
  simpl. unfold bindR at 1.
  destruct (Counted.load_WCHAR H w) as [[h | |] w1] eqn:Eh;
    [| simpl; discriminate |].
  - destruct (load_WCHAR_inv host m Hspace _ _ _ _ Hm Eh) as (Lh & Hm1 & HH).
    unfold bindR at 1.
    destruct (Counted.load_WCHAR N w1) as [[n | |] w2] eqn:En;
      [| simpl; discriminate |].
    + destruct (load_WCHAR_inv host m Hspace _ _ _ _ Hm1 En)
        as (Ln & Hm2 & HN).
      rewrite HH, HN.
      destruct (_ =? _); [| simpl; discriminate].
      destruct (_ >? _); [simpl; discriminate |].
      destruct (_ >=? _); [simpl; discriminate |].
      apply IH; [exact Hm2 |].
      pose proof (above_step m H (H + 2) h Lh ltac:(lia)). lia.
    + destruct (load_WCHAR_fuel _ _ _ En).
  - destruct (load_WCHAR_fuel _ _ _ Eh).
Qed.

Lemma search_insensitive_ends (Needle : Counted.UNICODE_STRING) (fuel : nat) :
  forall (H : PVOID) (w : Image),
    memory w = m -> (Counted.above m H < fuel)%nat ->
    fst (Counted.search_insensitive host ToUpper NeedleFirst NeedleBufferEnd
           HaystackBufferEnd HaystackBufferRealEnd fuel Needle H w)
    <> NoFuel.
Proof using Hspace.
  induction fuel as [| fuel IH]; intros H w Hm Hfuel; [lia |].
  cbn [Counted.search_insensitive]. cbv zeta. unfold bindR at 1.
  pose proof (first_insensitive_ends (S fuel) H w Hm Hfuel) as Hfirst.
  destruct (Counted.first_insensitive _ _ _ _ _ H w)
    as [[[H1 | q] | |] w1] eqn:E1; try (simpl; discriminate); [| contradiction].
  destruct (first_insensitive_spec host ToUpper m Hspace _ _ _ _ _ _ _ Hm E1)
    as (Hm1 & Hle & _ & (c & Lc & _) & Hadd).
  rewrite Hadd. unfold bindR at 1.
  pose proof (above_mono m H H1 Hle) as Hmono.
  pose proof (above_step m H1 (H1 + 2) c Lc ltac:(lia)) as Hstep.
  pose proof (rest_insensitive_ends H1 (S fuel) (H1 + 2)
                (Counted.PWCHAR_add host (Counted.Buffer Needle) 1) w1 Hm1
                ltac:(lia)) as Hrest.
  destruct (Counted.rest_insensitive _ _ _ _ _ H1 (H1 + 2) _ w1)
    as [[[H3 | q] | |] w2] eqn:E2; try (simpl; discriminate); [| contradiction].
  destruct (rest_insensitive_spec host ToUpper m Hspace _ _ _ _ _ _ _ _ _
              Hm1 E2) as (Hm2 & Hle3 & _).
  apply IH; [exact Hm2 |].
  pose proof (above_mono m (H1 + 2) H3 Hle3). lia.
Qed.

Lemma search_sensitive_ends (Needle : Counted.UNICODE_STRING) (fuel : nat) :
  forall (H : PVOID) (w : Image),
    memory w = m -> (Counted.above m H < fuel)%nat ->
    fst (Counted.search_sensitive host NeedleFirst NeedleBufferEnd
           HaystackBufferEnd HaystackBufferRealEnd fuel Needle H w)
    <> NoFuel.
Proof using Hspace.
  induction fuel as [| fuel IH]; intros H w Hm Hfuel; [lia |].
  cbn [Counted.search_sensitive]. cbv zeta. unfold bindR at 1.
  pose proof (first_sensitive_ends (S fuel) H w Hm Hfuel) as Hfirst.
  destruct (Counted.first_sensitive _ _ _ _ H w)
    as [[[H1 | q] | |] w1] eqn:E1; try (simpl; discriminate); [| contradiction].
  destruct (first_sensitive_spec host m Hspace _ _ _ _ _ _ _ Hm E1)
    as (Hm1 & Hle & _ & (c & Lc & _) & Hadd).
  rewrite Hadd. unfold bindR at 1.
  pose proof (above_mono m H (H1 - 2) Hle) as Hmono.
  pose proof (above_step m (H1 - 2) H1 c Lc ltac:(lia)) as Hstep.
  pose proof (rest_sensitive_ends (H1 - 2) (S fuel) H1
                (Counted.PWCHAR_add host (Counted.Buffer Needle) 1) w1 Hm1
                ltac:(lia)) as Hrest.
  destruct (Counted.rest_sensitive _ _ _ _ (H1 - 2) H1 _ w1)
    as [[[H3 | q] | |] w2] eqn:E2; try (simpl; discriminate); [| contradiction].
  destruct (rest_sensitive_spec host m Hspace _ _ _ _ _ _ _ _ _ Hm1 E2)
    as (Hm2 & Hle3 & _).
  apply IH; [exact Hm2 |].
  pose proof (above_mono m H1 H3 Hle3). lia.
Qed.

End SearchEnds.

(** X11.  The search of KexRtlFindUnicodeSubstring ends, also when it
    leaves the haystack: with more fuel than there are mapped bytes it
    returns a pointer or NULL, or it stops on an address it cannot
    read.  The haystack pointer only moves up, and only over readable
    memory. *)
Theorem KexRtlFindUnicodeSubstring_ends :
  forall (host : Host) (ToUpper : WCHAR -> WCHAR) (fuel : nat)
         (Haystack Needle : Counted.UNICODE_STRING) (CaseInsensitive : bool)
         (w : Image),
    Counted.in_address_space host (memory w) ->
    (size (memory w) < fuel)%nat ->
    (exists p, fst (Counted.KexRtlFindUnicodeSubstring host ToUpper fuel
                      Haystack Needle CaseInsensitive w) = Ok p) \/
    fst (Counted.KexRtlFindUnicodeSubstring host ToUpper fuel Haystack Needle
           CaseInsensitive w) = AccessViolation.
Proof.
  intros host ToUpper fuel Haystack Needle CaseInsensitive w Hspace Hfuel.
  assert (Hends : fst (Counted.KexRtlFindUnicodeSubstring host ToUpper fuel
                         Haystack Needle CaseInsensitive w) <> NoFuel).
  { unfold Counted.KexRtlFindUnicodeSubstring.
    destruct (_ || _ || _); [simpl; discriminate |].
    destruct CaseInsensitive; unfold bindR at 1;
      destruct (Counted.load_WCHAR _ w) as [[c | |] w1] eqn:Ec;
      try (simpl; discriminate).
    - destruct (load_WCHAR_inv host _ Hspace _ _ _ _ eq_refl Ec)
        as (_ & Hm1 & _).
      apply (search_insensitive_ends host ToUpper (memory w) Hspace);
        [exact Hm1 |].
      pose proof (above_le_size (memory w) (Counted.Buffer Haystack)). lia.
    - destruct (load_WCHAR_fuel _ _ _ Ec).
    - destruct (load_WCHAR_inv host _ Hspace _ _ _ _ eq_refl Ec)
        as (_ & Hm1 & _).
      apply (search_sensitive_ends host (memory w) Hspace); [exact Hm1 |].
      pose proof (above_le_size (memory w) (Counted.Buffer Haystack)). lia.
    - destruct (load_WCHAR_fuel _ _ _ Ec). }
  destruct (fst _) as [p | |]; [left; eauto | right; reflexivity |
                                 contradiction].
Qed.

Lemma sample_text_size : (size (memory RefText.sample) < 61)%nat.
Proof. apply Nat.ltb_lt. vm_compute. reflexivity. Qed.

(** X11 on the sample memory, which maps sixty bytes: the case-sensitive
    search for "PAD." in the path ends. *)
Lemma KexRtlFindUnicodeSubstring_ends_witness :
  (exists p, fst (Counted.KexRtlFindUnicodeSubstring Ref.wow64 Ref.upcase 61
                    RefText.Path RefText.UpperNeedle false RefText.sample)
             = Ok p) \/
  fst (Counted.KexRtlFindUnicodeSubstring Ref.wow64 Ref.upcase 61
         RefText.Path RefText.UpperNeedle false RefText.sample)
  = AccessViolation.
Proof.
  apply (KexRtlFindUnicodeSubstring_ends Ref.wow64 Ref.upcase 61
           RefText.Path RefText.UpperNeedle false RefText.sample
           sample_text_space sample_text_size).
Defined.

(** ** Registry queries *)

Section RegistryQuery.

Context {St : Type}.
Variable api : Registry.Services St.
Variable LEGAL_REG_RESTRICT_MASK : Z.
Variable sizeof_KEY_VALUE_PARTIAL_INFORMATION : Z.

Local Abbreviation query :=
  (Registry.KexRtlQueryKeyValueData api LEGAL_REG_RESTRICT_MASK
     sizeof_KEY_VALUE_PARTIAL_INFORMATION).

(** The label [Exit] adds the call that frees the buffer, keeps the
    caller's buffer and byte count, and writes the type only on success
    and on a type mismatch. *)
Lemma Exit_done (Status : NTSTATUS) (KeyValueBuffer : PVOID)
  (KeyValueInformation : option Registry.KEY_VALUE_PARTIAL_INFORMATION)
  (a a' : Registry.Pointees) (w w' : Registry.Machine St) (Status' : NTSTATUS) :
  Registry.Exit api Status KeyValueBuffer KeyValueInformation a w
  = (Registry.Done (Status', a'), w') ->
  Status' = Status /\
  Registry.trace w' = Registry.trace w ++ [Registry.CallSafeFree KeyValueBuffer] /\
  Registry.ValueDataCb a' = Registry.ValueDataCb a /\
  Registry.ValueData a' = Registry.ValueData a /\
  (Registry.ValueDataType a' = Registry.ValueDataType a \/
   (NT_SUCCESS Status = true \/ Status = Registry.STATUS_OBJECT_TYPE_MISMATCH) /\
   exists Information,
     KeyValueInformation = Some Information /\
     Registry.ValueDataType a' = Some (Registry.Type_ Information)).
Proof.
  unfold Registry.Exit.
  destruct (NT_SUCCESS Status || (Status =? _)) eqn:Hwrite.
  - destruct (Registry.ValueDataType a) as [t |] eqn:Ht.
    + destruct KeyValueInformation as [Information |]; [| discriminate].
      intros E. injection E as <- <- <-. simpl.
      repeat split; try reflexivity. right. split; [| eauto].
      apply orb_true_iff in Hwrite as [H | H]; [left; exact H |].
      right. apply Z.eqb_eq. exact H.
    + intros E. injection E as <- <- <-. simpl. auto 10.
  - intros E. injection E as <- <- <-. simpl. auto 10.
Qed.

(** The arguments that the routine rejects. *)
Lemma query_rejects (KeyHandle : HANDLE) (ValueName : option UNICODE_STRING)
  (a : Registry.Pointees) (ValueDataTypeRestrict : Z)
  (w : Registry.Machine St) :
  KeyHandle = 0 \/ KeyHandle = Registry.INVALID_HANDLE_VALUE \/
  ValueName = None \/ Registry.ValueDataCb a = None \/
  (Registry.ValueData a <> None /\ Registry.ValueDataCb a = Some 0) \/
  (Registry.ValueData a = None /\ Registry.ValueDataCb a <> Some 0) \/
  ValueDataTypeRestrict = 0 \/
  Z.land ValueDataTypeRestrict (Z.lnot LEGAL_REG_RESTRICT_MASK) <> 0 ->
  exists Status,
    query KeyHandle ValueName a ValueDataTypeRestrict w
    = (Registry.Done (Status, a), w) /\
    In Status [Registry.STATUS_INVALID_PARAMETER_1;
               Registry.STATUS_INVALID_PARAMETER_2;
               Registry.STATUS_INVALID_PARAMETER_3;
               Registry.STATUS_INVALID_PARAMETER_MIX;
               Registry.STATUS_INVALID_PARAMETER_5].
Proof.
  intros Hbad. unfold Registry.KexRtlQueryKeyValueData.
  destruct ((KeyHandle =? 0) || (KeyHandle =? Registry.INVALID_HANDLE_VALUE))
    eqn:Hkey; [eexists; split; [reflexivity | simpl; auto] |].
  apply orb_false_iff in Hkey as [Hk0 Hk1]. apply Z.eqb_neq in Hk0, Hk1.
  destruct ValueName as [name |]; [| eexists; split; [reflexivity | simpl; auto]].
  destruct (Registry.ValueDataCb a) as [Cb |] eqn:HCb;
    [| eexists; split; [reflexivity | simpl; auto]].
  destruct (bool_decide (Registry.ValueData a <> None) && (Cb =? 0)) eqn:Hmix1;
    [eexists; split; [reflexivity | simpl; auto 6] |].
  destruct (bool_decide (Registry.ValueData a = None) && negb (Cb =? 0))
    eqn:Hmix2; [eexists; split; [reflexivity | simpl; auto 6] |].
  destruct ((ValueDataTypeRestrict =? 0) || negb (_ =? 0)) eqn:Hrestrict;
    [eexists; split; [reflexivity | simpl; auto 6] |].
  exfalso.
  apply orb_false_iff in Hrestrict as [Hr0 Hr1].
  apply Z.eqb_neq in Hr0. apply negb_false_iff, Z.eqb_eq in Hr1.
  apply andb_false_iff in Hmix1, Hmix2.
  rewrite bool_decide_eq_false, Z.eqb_neq in Hmix1.
  rewrite bool_decide_eq_false, negb_false_iff, Z.eqb_eq in Hmix2.
  destruct Hbad as [? | [? | [? | [? | [[Hd Hc] | [[Hd Hc] | [? | ?]]]]]]];
    try contradiction; try discriminate.
  - injection Hc as ->. destruct Hmix1; [contradiction | lia].
  - destruct Hmix2 as [? | ->]; contradiction.
Qed.

(** Arguments that pass the checks make the routine call a service. *)
Lemma query_accepts (KeyHandle : HANDLE) (ValueName : option UNICODE_STRING)
  (a : Registry.Pointees) (ValueDataTypeRestrict : Z)
  (w : Registry.Machine St) :
  Registry.trace (snd (query KeyHandle ValueName a ValueDataTypeRestrict w))
  = Registry.trace w ->
  KeyHandle = 0 \/ KeyHandle = Registry.INVALID_HANDLE_VALUE \/
  ValueName = None \/ Registry.ValueDataCb a = None \/
  (Registry.ValueData a <> None /\ Registry.ValueDataCb a = Some 0) \/
  (Registry.ValueData a = None /\ Registry.ValueDataCb a <> Some 0) \/
  ValueDataTypeRestrict = 0 \/
  Z.land ValueDataTypeRestrict (Z.lnot LEGAL_REG_RESTRICT_MASK) <> 0.
Proof.
  unfold Registry.KexRtlQueryKeyValueData.
  destruct ((KeyHandle =? 0) || (KeyHandle =? Registry.INVALID_HANDLE_VALUE))
    eqn:Hkey.
  { intros _. apply orb_true_iff in Hkey as [H | H]; apply Z.eqb_eq in H;
      [left | right; left]; exact H. }
  destruct ValueName as [name |]; [| auto].
  destruct (Registry.ValueDataCb a) as [Cb |] eqn:HCb; [| auto].
  destruct (bool_decide (Registry.ValueData a <> None) && (Cb =? 0)) eqn:Hmix1.
  { intros _. apply andb_true_iff in Hmix1 as [Hd Hc].
    apply bool_decide_eq_true in Hd. apply Z.eqb_eq in Hc. subst Cb.
    do 4 right. left. split; [exact Hd | reflexivity]. }
  destruct (bool_decide (Registry.ValueData a = None) && negb (Cb =? 0))
    eqn:Hmix2.
  { intros _. apply andb_true_iff in Hmix2 as [Hd Hc].
    apply bool_decide_eq_true in Hd. apply negb_true_iff, Z.eqb_neq in Hc.
    do 5 right. left. split; [exact Hd | congruence]. }
  destruct ((ValueDataTypeRestrict =? 0) || negb (_ =? 0)) eqn:Hrestrict.
  { intros _. apply orb_true_iff in Hrestrict as [H | H].
    - apply Z.eqb_eq in H. do 6 right. left. exact H.
    - apply negb_true_iff, Z.eqb_neq in H. do 7 right. exact H. }
  intros Htrace. exfalso.
  match type of Htrace with
  | Registry.trace (snd ?run) = _ =>
      assert (Hgrow : exists c rest,
                Registry.trace (snd run) = Registry.trace w ++ c :: rest)
  end.
  { unfold Registry.sys_NtQueryValueKey, Registry.sys_SafeAlloc,
      Registry.Exit, Registry.sys_SafeFree.
    repeat case_match; simplify_eq/=; rewrite <- ?app_assoc; eauto. }
  destruct Hgrow as (c & rest & Hgrow). rewrite Hgrow in Htrace.
  apply (f_equal length) in Htrace. rewrite length_app in Htrace.
  simpl in Htrace. lia.
Qed.

End RegistryQuery.

(** X12.  KexRtlQueryKeyValueData rejects its arguments, with one of the
    STATUS_INVALID_PARAMETER codes, without calling any service and
    without writing through any pointer, exactly in these cases: the key
    handle is null or INVALID_HANDLE_VALUE, the value name or the byte
    count is a null pointer, a buffer comes with a byte count of zero or
    a byte count other than zero comes without a buffer, or the type
    filter is zero or has a bit outside LEGAL_REG_RESTRICT_MASK. *)
Theorem KexRtlQueryKeyValueData_validation :
  forall (St : Type) (api : Registry.Services St)
         (LEGAL_REG_RESTRICT_MASK sizeof_KEY_VALUE_PARTIAL_INFORMATION : Z)
         (KeyHandle : HANDLE) (ValueName : option UNICODE_STRING)
         (a : Registry.Pointees) (ValueDataTypeRestrict : Z)
         (w : Registry.Machine St),
    (KeyHandle = 0 \/ KeyHandle = Registry.INVALID_HANDLE_VALUE \/
     ValueName = None \/ Registry.ValueDataCb a = None \/
     (Registry.ValueData a <> None /\ Registry.ValueDataCb a = Some 0) \/
     (Registry.ValueData a = None /\ Registry.ValueDataCb a <> Some 0) \/
     ValueDataTypeRestrict = 0 \/
     Z.land ValueDataTypeRestrict (Z.lnot LEGAL_REG_RESTRICT_MASK) <> 0)
    <->
    (exists Status,
       Registry.KexRtlQueryKeyValueData api LEGAL_REG_RESTRICT_MASK
         sizeof_KEY_VALUE_PARTIAL_INFORMATION KeyHandle ValueName a
         ValueDataTypeRestrict w = (Registry.Done (Status, a), w) /\
       In Status [Registry.STATUS_INVALID_PARAMETER_1;
                  Registry.STATUS_INVALID_PARAMETER_2;
                  Registry.STATUS_INVALID_PARAMETER_3;
                  Registry.STATUS_INVALID_PARAMETER_MIX;
                  Registry.STATUS_INVALID_PARAMETER_5]).
Proof.
  intros. split.
  - apply query_rejects.
  - intros (Status & Hrun & _). apply (query_accepts api LEGAL_REG_RESTRICT_MASK
      sizeof_KEY_VALUE_PARTIAL_INFORMATION KeyHandle ValueName a
      ValueDataTypeRestrict w).
    rewrite Hrun. reflexivity.
Qed.

(** X12 on the reference key: a buffer with a byte count of zero. *)
Lemma KexRtlQueryKeyValueData_validation_witness :
  exists Status,
    Registry.KexRtlQueryKeyValueData RefRegistry.api
      RefRegistry.LEGAL_REG_RESTRICT_MASK
      RefRegistry.sizeof_KEY_VALUE_PARTIAL_INFORMATION 0x44
      (Some (wide "Level"))
      (Registry.mkPointees (Some 0) (Some [1; 2; 3; 4]) None) 0x10
      (RefRegistry.boot RefRegistry.sample)
    = (Registry.Done
         (Status, Registry.mkPointees (Some 0) (Some [1; 2; 3; 4]) None),
       RefRegistry.boot RefRegistry.sample) /\
    In Status [Registry.STATUS_INVALID_PARAMETER_1;
               Registry.STATUS_INVALID_PARAMETER_2;
               Registry.STATUS_INVALID_PARAMETER_3;
               Registry.STATUS_INVALID_PARAMETER_MIX;
               Registry.STATUS_INVALID_PARAMETER_5].
Proof.
  apply (proj1 (KexRtlQueryKeyValueData_validation RefRegistry.Key
                  RefRegistry.api RefRegistry.LEGAL_REG_RESTRICT_MASK
                  RefRegistry.sizeof_KEY_VALUE_PARTIAL_INFORMATION 0x44
                  (Some (wide "Level"))
                  (Registry.mkPointees (Some 0) (Some [1; 2; 3; 4]) None) 0x10
                  (RefRegistry.boot RefRegistry.sample))).
  do 4 right. left. split; [discriminate | reflexivity].
Defined.

(** X13.  When KexRtlQueryKeyValueData returns a failure status, the
    caller's buffer holds what it held before the call; the type is
    written only on success and with STATUS_OBJECT_TYPE_MISMATCH. *)
Theorem KexRtlQueryKeyValueData_failure_keeps_buffer :
  forall (St : Type) (api : Registry.Services St)
         (LEGAL_REG_RESTRICT_MASK sizeof_KEY_VALUE_PARTIAL_INFORMATION : Z)
         (KeyHandle : HANDLE) (ValueName : option UNICODE_STRING)
         (a a' : Registry.Pointees) (ValueDataTypeRestrict : Z)
         (w w' : Registry.Machine St) (Status : NTSTATUS),
    Registry.KexRtlQueryKeyValueData api LEGAL_REG_RESTRICT_MASK
      sizeof_KEY_VALUE_PARTIAL_INFORMATION KeyHandle ValueName a
      ValueDataTypeRestrict w = (Registry.Done (Status, a'), w') ->
    NT_SUCCESS Status = false ->
    Registry.ValueData a' = Registry.ValueData a /\
    (Status <> Registry.STATUS_OBJECT_TYPE_MISMATCH ->
     Registry.ValueDataType a' = Registry.ValueDataType a).
Proof.
  intros St api MASK sz KeyHandle ValueName a a' Restrict w w' Status Hrun Hfail.
  assert (Hmismatch : NT_SUCCESS Registry.STATUS_OBJECT_TYPE_MISMATCH = false)
    by reflexivity.
  revert Hrun. unfold Registry.KexRtlQueryKeyValueData.
  unfold Registry.sys_NtQueryValueKey, Registry.sys_SafeAlloc.
  repeat case_match; intros Hrun; simplify_eq/=; try (split; reflexivity);
    try match goal with
        | H : Registry.Exit _ _ _ _ _ _ = _ |- _ =>
            apply Exit_done in H;
            destruct H as (-> & _ & _ & Hdata & Htype); simpl in *
        end;
    try congruence.
  all: try match goal with
           | H : negb (NT_SUCCESS ?n) = false |- _ =>
               rewrite Hfail in H; discriminate H
           end.
  all: split; [congruence |].
  all: intros Hne; destruct Htype as [Htype | [[Hs | Hs] _]]; congruence.
Qed.

Lemma sample_missing_value :
  Registry.KexRtlQueryKeyValueData RefRegistry.api
    RefRegistry.LEGAL_REG_RESTRICT_MASK
    RefRegistry.sizeof_KEY_VALUE_PARTIAL_INFORMATION 0x44
    (Some (wide "Missing"))
    (Registry.mkPointees (Some 4) (Some [1; 2; 3; 4]) (Some 99)) 0x10
    (RefRegistry.boot RefRegistry.sample)
  = (Registry.Done
       (RefRegistry.STATUS_OBJECT_NAME_NOT_FOUND,
        Registry.mkPointees (Some 4) (Some [1; 2; 3; 4]) (Some 99)),
     Registry.mkMachine
       (RefRegistry.mkKey (RefRegistry.values RefRegistry.sample) 7 0x51000 [])
       [Registry.CallSafeAlloc 20 0x50000;
        Registry.CallNtQueryValueKey 0x44 (wide "Missing") 0x50000 20
          RefRegistry.STATUS_OBJECT_NAME_NOT_FOUND;
        Registry.CallSafeFree 0x50000]).
Proof. vm_compute. reflexivity. Qed.

(** X13 on the reference key: the value "Missing" does not exist. *)
Lemma KexRtlQueryKeyValueData_failure_keeps_buffer_witness :
  fst (Registry.KexRtlQueryKeyValueData RefRegistry.api
         RefRegistry.LEGAL_REG_RESTRICT_MASK
         RefRegistry.sizeof_KEY_VALUE_PARTIAL_INFORMATION 0x44
         (Some (wide "Missing"))
         (Registry.mkPointees (Some 4) (Some [1; 2; 3; 4]) (Some 99)) 0x10
         (RefRegistry.boot RefRegistry.sample))
  = Registry.Done
      (RefRegistry.STATUS_OBJECT_NAME_NOT_FOUND,
       Registry.mkPointees (Some 4) (Some [1; 2; 3; 4]) (Some 99)) /\
  Registry.ValueData
    (Registry.mkPointees (Some 4) (Some [1; 2; 3; 4]) (Some 99))
  = Some [1; 2; 3; 4].
Proof.
  split; [rewrite sample_missing_value; reflexivity |].
  apply (KexRtlQueryKeyValueData_failure_keeps_buffer _ _ _ _ _ _ _ _ _ _ _ _
           sample_missing_value).
  reflexivity.
Defined.

(** X14.  A call of KexRtlQueryKeyValueData that returns has called the
    services in one of four ways: not at all; one query without a
    buffer, whose status it returns; one allocation that failed, and
    then it returns STATUS_INSUFFICIENT_RESOURCES; or one allocation,
    one query into the allocated buffer and the release of that
    buffer.  No buffer it allocates outlives the call. *)
Theorem KexRtlQueryKeyValueData_calls :
  forall (St : Type) (api : Registry.Services St)
         (LEGAL_REG_RESTRICT_MASK sizeof_KEY_VALUE_PARTIAL_INFORMATION : Z)
         (KeyHandle : HANDLE) (ValueName : option UNICODE_STRING)
         (a a' : Registry.Pointees) (ValueDataTypeRestrict : Z)
         (w w' : Registry.Machine St) (Status : NTSTATUS),
    Registry.KexRtlQueryKeyValueData api LEGAL_REG_RESTRICT_MASK
      sizeof_KEY_VALUE_PARTIAL_INFORMATION KeyHandle ValueName a
      ValueDataTypeRestrict w = (Registry.Done (Status, a'), w') ->
    exists calls,
      Registry.trace w' = Registry.trace w ++ calls /\
      (calls = [] \/
       (exists name,
          ValueName = Some name /\
          calls = [Registry.CallNtQueryValueKey KeyHandle name NULL 0 Status]) \/
       (exists Cb,
          calls = [Registry.CallSafeAlloc Cb NULL] /\
          Status = Registry.STATUS_INSUFFICIENT_RESOURCES) \/
       (exists name Cb Pointer Queried,
          ValueName = Some name /\ Pointer <> NULL /\
          calls = [Registry.CallSafeAlloc Cb Pointer;
                   Registry.CallNtQueryValueKey KeyHandle name Pointer Cb
                     Queried;
                   Registry.CallSafeFree Pointer])).
Proof.
  intros St api MASK sz KeyHandle ValueName a a' Restrict w w' Status.
  unfold Registry.KexRtlQueryKeyValueData.
  unfold Registry.sys_NtQueryValueKey, Registry.sys_SafeAlloc.
  repeat case_match; intros Hrun; simplify_eq/=;
    try (exists []; split; [rewrite app_nil_r; reflexivity | left; reflexivity]);
    try match goal with
        | H : Registry.Exit _ _ _ _ _ _ = _ |- _ =>
            apply Exit_done in H;
            destruct H as (_ & Htrace & _); simpl in Htrace;
            rewrite <- !app_assoc in Htrace; simpl in Htrace
        end.
  all: eexists; split;
    [first [exact Htrace | rewrite <- ?app_assoc; reflexivity] |].
  all: try (right; left; eexists; split; reflexivity).
  all: try (do 3 right; eexists _, _, _, _;
            split; [reflexivity |]; split; [| reflexivity];
            apply Z.eqb_neq; assumption).
  all: try (right; right; left; eexists; split; [| reflexivity];
            match goal with H : (?p =? 0) = true |- _ =>
              apply Z.eqb_eq in H; subst p end; reflexivity).
Qed.

Lemma sample_level_value :
  Registry.KexRtlQueryKeyValueData RefRegistry.api
    RefRegistry.LEGAL_REG_RESTRICT_MASK
    RefRegistry.sizeof_KEY_VALUE_PARTIAL_INFORMATION 0x44
    (Some (wide "Level"))
    (Registry.mkPointees (Some 4) (Some [1; 2; 3; 4]) (Some 99)) 0x10
    (RefRegistry.boot RefRegistry.sample)
  = (Registry.Done
       (STATUS_SUCCESS,
        Registry.mkPointees (Some 0) (Some [7; 0; 0; 0]) (Some 4)),
     Registry.mkMachine
       (RefRegistry.mkKey (RefRegistry.values RefRegistry.sample) 7 0x51000 [])
       [Registry.CallSafeAlloc 20 0x50000;
        Registry.CallNtQueryValueKey 0x44 (wide "Level") 0x50000 20
          STATUS_SUCCESS;
        Registry.CallSafeFree 0x50000]).
Proof. vm_compute. reflexivity. Qed.

(** X14 on the reference key: the number "Level" is read into a buffer
    of four bytes. *)
Lemma KexRtlQueryKeyValueData_calls_witness :
  exists calls,
    Registry.trace
      (snd (Registry.KexRtlQueryKeyValueData RefRegistry.api
              RefRegistry.LEGAL_REG_RESTRICT_MASK
              RefRegistry.sizeof_KEY_VALUE_PARTIAL_INFORMATION 0x44
              (Some (wide "Level"))
              (Registry.mkPointees (Some 4) (Some [1; 2; 3; 4]) (Some 99)) 0x10
              (RefRegistry.boot RefRegistry.sample)))
    = calls /\
    length calls = 3%nat.
Proof.
  destruct (KexRtlQueryKeyValueData_calls _ _ _ _ _ _ _ _ _ _ _ _
              sample_level_value) as (calls & Htrace & Hshape).
  exists calls. rewrite sample_level_value. split; [exact Htrace |].
  simpl in Htrace. rewrite <- Htrace. reflexivity.
Defined.

(** Testing one bit of the type filter. *)
Lemma land_shiftl_1 (Restrict T : Z) :
  0 <= T ->
  (Z.land Restrict (Z.shiftl 1 T) =? 0) = negb (Z.testbit Restrict T).
Proof.
  intros HT. rewrite Z.shiftl_1_l.
  destruct (Z.testbit Restrict T) eqn:Hbit; simpl.
  - apply Z.eqb_neq. intros H0.
    apply (f_equal (fun x => Z.testbit x T)) in H0.
    rewrite Z.land_spec, Hbit, Z.pow2_bits_eqb, Z.eqb_refl, Z.bits_0 in H0
      by lia.
    discriminate.
  - apply Z.eqb_eq. apply Z.bits_inj'. intros n Hn.
    rewrite Z.land_spec, Z.pow2_bits_eqb, Z.bits_0 by lia.
    destruct (T =? n) eqn:E; [| apply andb_false_r].
    apply Z.eqb_eq in E. subst n. rewrite Hbit. reflexivity.
Qed.

(** X15.  Let the arguments of KexRtlQueryKeyValueData be valid, with a
    buffer, let the allocation succeed and let the query succeed and
    store a value of a type below 32.  If the bit of the type is not set
    in the filter, the routine returns STATUS_OBJECT_TYPE_MISMATCH and
    leaves the caller's buffer; if it is set and the data fit the
    caller's buffer, the routine returns the status of the query and
    the buffer starts with the data.  Either way the byte count is the
    length the query reported less the size of
    KEY_VALUE_PARTIAL_INFORMATION, and the type of the value is stored
    when the caller asked for it. *)
Theorem KexRtlQueryKeyValueData_type_filter :
  forall (St : Type) (api : Registry.Services St)
         (LEGAL_REG_RESTRICT_MASK sizeof_KEY_VALUE_PARTIAL_INFORMATION : Z)
         (KeyHandle : HANDLE) (ValueName : UNICODE_STRING)
         (a : Registry.Pointees) (ValueDataTypeRestrict : Z)
         (w : Registry.Machine St) (Cb : Z) (Destination : list Z)
         (Pointer : PVOID) (s1 s2 : St) (Status : NTSTATUS)
         (Information : Registry.KEY_VALUE_PARTIAL_INFORMATION)
         (ResultLength : Z),
    KeyHandle <> 0 -> KeyHandle <> Registry.INVALID_HANDLE_VALUE ->
    Registry.ValueDataCb a = Some Cb -> Cb <> 0 ->
    Registry.ValueData a = Some Destination ->
    ValueDataTypeRestrict <> 0 ->
    Z.land ValueDataTypeRestrict (Z.lnot LEGAL_REG_RESTRICT_MASK) = 0 ->
    Registry.SafeAlloc api
      (Registry.ULONG (Cb + sizeof_KEY_VALUE_PARTIAL_INFORMATION))
      (Registry.state w) = (Pointer, s1) ->
    Pointer <> NULL ->
    Registry.NtQueryValueKey api KeyHandle ValueName Pointer
      (Registry.ULONG (Cb + sizeof_KEY_VALUE_PARTIAL_INFORMATION)) s1
    = ((Status, Some Information, Some ResultLength), s2) ->
    NT_SUCCESS Status = true ->
    0 <= Registry.Type_ Information < 32 ->
    let r := Registry.KexRtlQueryKeyValueData api LEGAL_REG_RESTRICT_MASK
               sizeof_KEY_VALUE_PARTIAL_INFORMATION KeyHandle (Some ValueName)
               a ValueDataTypeRestrict w in
    let Cb' := Registry.ULONG
                 (ResultLength - sizeof_KEY_VALUE_PARTIAL_INFORMATION) in
    let Type' := match Registry.ValueDataType a with
                 | Some _ => Some (Registry.Type_ Information)
                 | None => None
                 end in
    (Z.testbit ValueDataTypeRestrict (Registry.Type_ Information) = false ->
     fst r = Registry.Done
               (Registry.STATUS_OBJECT_TYPE_MISMATCH,
                Registry.mkPointees (Some Cb') (Some Destination) Type')) /\
    (Z.testbit ValueDataTypeRestrict (Registry.Type_ Information) = true ->
     (length (Registry.Data Information) <= length Destination)%nat ->
     fst r = Registry.Done
               (Status,
                Registry.mkPointees (Some Cb')
                  (Some (Registry.Data Information
                         ++ drop (length (Registry.Data Information))
                              Destination))
                  Type')).
Proof.
  intros St api MASK sz KeyHandle ValueName a Restrict w Cb Destination
         Pointer s1 s2 Status Information ResultLength
         Hk0 Hk1 HCb HCb0 Hdata Hr0 Hr1 Halloc Hp Hquery Hok Htype r Cb' Type'.
  assert (Hrun : r =
    if Z.land Restrict (Z.shiftl 1 (Registry.Type_ Information)) =? 0 then
      Registry.Exit api Registry.STATUS_OBJECT_TYPE_MISMATCH Pointer
        (Some Information)
        (Registry.mkPointees (Some Cb') (Registry.ValueData a)
           (Registry.ValueDataType a))
        (Registry.mkMachine s2
           ((Registry.trace w
             ++ [Registry.CallSafeAlloc (Registry.ULONG (Cb + sz)) Pointer])
            ++ [Registry.CallNtQueryValueKey KeyHandle ValueName Pointer
                  (Registry.ULONG (Cb + sz)) Status]))
    else
      match Registry.RtlCopyMemory Destination (Registry.Data Information) with
      | Registry.Done Copied =>
          Registry.Exit api Status Pointer (Some Information)
            (Registry.mkPointees (Some Cb') (Some Copied)
               (Registry.ValueDataType a))
            (Registry.mkMachine s2
               ((Registry.trace w
                 ++ [Registry.CallSafeAlloc (Registry.ULONG (Cb + sz)) Pointer])
                ++ [Registry.CallNtQueryValueKey KeyHandle ValueName Pointer
                      (Registry.ULONG (Cb + sz)) Status]))
      | Registry.Undefined =>
          (Registry.Undefined,
           Registry.mkMachine s2
             ((Registry.trace w
               ++ [Registry.CallSafeAlloc (Registry.ULONG (Cb + sz)) Pointer])
              ++ [Registry.CallNtQueryValueKey KeyHandle ValueName Pointer
                    (Registry.ULONG (Cb + sz)) Status]))
      end).
  { subst r. unfold Registry.KexRtlQueryKeyValueData. unfold NULL in Hp.
    apply Z.eqb_neq in Hk0, Hk1, HCb0, Hr0, Hp. apply Z.eqb_eq in Hr1.
    rewrite Hk0, Hk1, HCb, HCb0, Hdata, Hr0, Hr1. simpl.
    rewrite ?bool_decide_eq_false_2 by discriminate.
    rewrite ?andb_false_r. simpl.
    unfold Registry.sys_SafeAlloc. rewrite Halloc, Hp.
    unfold Registry.sys_NtQueryValueKey. simpl. rewrite Hquery. simpl.
    rewrite Hok. simpl.
    replace ((0 <=? Registry.Type_ Information)
             && (Registry.Type_ Information <? 32)) with true
      by (symmetry; apply andb_true_iff; split;
          [apply Z.leb_le | apply Z.ltb_lt]; lia).
    simpl. reflexivity. }
  rewrite Hrun, land_shiftl_1 by lia. unfold Registry.Exit.
  split.
  - intros Hbit. rewrite Hbit. simpl. rewrite Hdata.
    subst Type'. destruct (Registry.ValueDataType a); reflexivity.
  - intros Hbit Hfit. rewrite Hbit. simpl.
    unfold Registry.RtlCopyMemory.
    replace (length (Registry.Data Information) <=? length Destination)%nat
      with true by (symmetry; apply Nat.leb_le; exact Hfit).
    rewrite Hok. simpl.
    subst Type'. destruct (Registry.ValueDataType a); reflexivity.
Qed.

(** X15 on the reference key: the filter 0x10 admits REG_DWORD, and the
    four bytes of "Level" are copied. *)
Lemma KexRtlQueryKeyValueData_type_filter_witness :
  fst (Registry.KexRtlQueryKeyValueData RefRegistry.api
         RefRegistry.LEGAL_REG_RESTRICT_MASK
         RefRegistry.sizeof_KEY_VALUE_PARTIAL_INFORMATION 0x44
         (Some (wide "Level"))
         (Registry.mkPointees (Some 4) (Some [1; 2; 3; 4]) (Some 99)) 0x10
         (RefRegistry.boot RefRegistry.sample))
  = Registry.Done
      (STATUS_SUCCESS,
       Registry.mkPointees (Some 0) (Some [7; 0; 0; 0]) (Some 4)).
Proof.
  apply (proj2 (KexRtlQueryKeyValueData_type_filter RefRegistry.Key
                  RefRegistry.api RefRegistry.LEGAL_REG_RESTRICT_MASK
                  RefRegistry.sizeof_KEY_VALUE_PARTIAL_INFORMATION 0x44
                  (wide "Level")
                  (Registry.mkPointees (Some 4) (Some [1; 2; 3; 4]) (Some 99))
                  0x10 (RefRegistry.boot RefRegistry.sample) 4 [1; 2; 3; 4]
                  0x50000
                  (RefRegistry.mkKey (RefRegistry.values RefRegistry.sample)
                     7 0x51000 [0x50000])
                  (RefRegistry.mkKey (RefRegistry.values RefRegistry.sample)
                     7 0x51000 [0x50000])
                  STATUS_SUCCESS
                  {| Registry.TitleIndex := 0;
                     Registry.Type_ := RefRegistry.REG_DWORD;
                     Registry.Data := [7; 0; 0; 0] |}
                  16
                  ltac:(discriminate) ltac:(discriminate) eq_refl
                  ltac:(discriminate) eq_refl ltac:(discriminate) eq_refl
                  eq_refl ltac:(discriminate) eq_refl eq_refl
                  ltac:(simpl; unfold RefRegistry.REG_DWORD; lia)));
    [reflexivity | simpl; lia].
Defined.

(** ** Queries of several values *)

Section RegistryTable.

Context {St : Type}.
Variable api : Registry.Services St.
Variable LEGAL_REG_RESTRICT_MASK : Z.
Variable sizeof_KEY_VALUE_PARTIAL_INFORMATION : Z.

Local Abbreviation loop :=
  (Registry.query_loop api LEGAL_REG_RESTRICT_MASK
     sizeof_KEY_VALUE_PARTIAL_INFORMATION).

Local Abbreviation succeeded :=
  (fun e => NT_SUCCESS (Registry.EntryStatus e) = true).

(** The loop over the table: it ends after [Counter] entries with
    success, or, with the fail-fast flag, at the first entry whose query
    failed. *)
Lemma query_loop_spec (KeyHandle : HANDLE) (Flags : Z) :
  forall (QueryTable QueryTable' : list Registry.ENTRY) (Counter N N' : Z)
         (w w' : Registry.Machine St) (Status : NTSTATUS),
    loop KeyHandle Flags QueryTable Counter N w
    = (Registry.Done (Status, QueryTable', N'), w') ->
    1 <= Counter -> 0 <= N -> N + Counter < 2 ^ 32 ->
    length QueryTable' = length QueryTable /\
    ((Status = STATUS_SUCCESS /\ N' = N + Counter /\
      Counter <= Z.of_nat (length QueryTable) /\
      drop (Z.to_nat Counter) QueryTable'
      = drop (Z.to_nat Counter) QueryTable /\
      (Z.land Flags Registry.QUERY_KEY_MULTIPLE_VALUE_FAIL_FAST <> 0 ->
       Forall succeeded (take (Z.to_nat Counter) QueryTable'))) \/
     (Status = Registry.STATUS_UNSUCCESSFUL /\
      Z.land Flags Registry.QUERY_KEY_MULTIPLE_VALUE_FAIL_FAST <> 0 /\
      exists k : nat,
        Z.of_nat k < Counter /\ N' = N + Z.of_nat k /\
        Forall succeeded (take k QueryTable') /\
        (exists e, QueryTable' !! k = Some e /\
                   NT_SUCCESS (Registry.EntryStatus e) = false) /\
        drop (S k) QueryTable' = drop (S k) QueryTable)).
Proof.
  induction QueryTable as [| e rest IH];
    intros QueryTable' Counter N N' w w' Status; simpl; [discriminate |].
  destruct (Registry.KexRtlQueryKeyValueData _ _ _ _ _ _ _ w)
    as [[[st a] |] w1]; [| discriminate].
  intros Hrun HC HN Hsum.
  assert (EN : Registry.ULONG (N + 1) = N + 1)
    by (unfold Registry.ULONG; apply Z.mod_small; lia).
  assert (EC : Registry.ULONG (Counter - 1) = Counter - 1)
    by (unfold Registry.ULONG; apply Z.mod_small; lia).
  rewrite EN, EC in Hrun.
  destruct (negb (Z.land Flags Registry.QUERY_KEY_MULTIPLE_VALUE_FAIL_FAST =? 0))
    eqn:Hflag; simpl in Hrun.
  - apply negb_true_iff, Z.eqb_neq in Hflag.
    destruct (NT_SUCCESS st) eqn:Hst; simpl in Hrun.
    + destruct (Counter - 1 =? 0) eqn:Hlast.
      * apply Z.eqb_eq in Hlast. injection Hrun as <- <- <- <-.
        split; [reflexivity |]. left.
        replace Counter with 1 by lia. simpl.
        split; [reflexivity |]. split; [lia |]. split; [lia |].
        split; [reflexivity |]. intros _. constructor; [exact Hst |].
        rewrite take_0. constructor.
      * apply Z.eqb_neq in Hlast.
        destruct (loop KeyHandle Flags rest (Counter - 1) (N + 1) w1)
          as [[[[st' T''] n''] |] w2] eqn:Hrest; [| discriminate].
        injection Hrun as <- <- <- <-.
        destruct (IH _ _ _ _ _ _ _ Hrest ltac:(lia) ltac:(lia) ltac:(lia))
          as [Hlen [(-> & -> & Hfit & Hdrop & Hall)
                   | (-> & _ & k & Hk & -> & Hall & Hfail & Hdrop)]].
        -- split; [simpl; lia |]. left.
           split; [reflexivity |]. split; [lia |]. split; [simpl; lia |].
           replace (Z.to_nat Counter) with (S (Z.to_nat (Counter - 1))) by lia.
           simpl. split; [exact Hdrop |].
           intros _. constructor; [exact Hst | apply Hall; exact Hflag].
        -- split; [simpl; lia |]. right.
           split; [reflexivity |]. split; [exact Hflag |].
           exists (S k). split; [lia |]. split; [lia |]. simpl.
           split; [constructor; [exact Hst | exact Hall] |].
           split; [exact Hfail | exact Hdrop].
    + injection Hrun as <- <- <- <-.
      split; [reflexivity |]. right.
      split; [reflexivity |]. split; [exact Hflag |].
      exists 0%nat. split; [lia |]. split; [lia |]. simpl.
      split; [constructor |]. split; [| reflexivity].
      eexists. split; [reflexivity | exact Hst].
  - apply negb_false_iff, Z.eqb_eq in Hflag.
    destruct (Counter - 1 =? 0) eqn:Hlast.
    + apply Z.eqb_eq in Hlast. injection Hrun as <- <- <- <-.
      split; [reflexivity |]. left.
      replace Counter with 1 by lia. simpl.
      split; [reflexivity |]. split; [lia |]. split; [lia |].
      split; [reflexivity |]. intros Hne. contradiction.
    + apply Z.eqb_neq in Hlast.
      destruct (loop KeyHandle Flags rest (Counter - 1) (N + 1) w1)
        as [[[[st' T''] n''] |] w2] eqn:Hrest; [| discriminate].
      injection Hrun as <- <- <- <-.
      destruct (IH _ _ _ _ _ _ _ Hrest ltac:(lia) ltac:(lia) ltac:(lia))
        as [Hlen [(-> & -> & Hfit & Hdrop & Hall)
                 | (-> & Hne & _)]]; [| contradiction].
      split; [simpl; lia |]. left.
      split; [reflexivity |]. split; [lia |]. split; [simpl; lia |].
      replace (Z.to_nat Counter) with (S (Z.to_nat (Counter - 1))) by lia.
      simpl. split; [exact Hdrop |]. intros Hne. contradiction.
Qed.

End RegistryTable.

(** X16.  A call of KexRtlQueryKeyMultipleValueData without the fail-fast
    flag that returns has done one of three things.  Given no table, it
    has returned STATUS_INVALID_PARAMETER_2; given a table but no number
    of elements, or the number zero, it has returned
    STATUS_INVALID_PARAMETER_3; in both cases nothing was called and
    nothing was changed.  Given a table and a number of at least one, it
    has returned STATUS_SUCCESS and has set the number of elements back
    to the number it was given, whatever the status of each query; the
    table had at least that many entries, it has kept its length and the
    entries after that number are as they were. *)
Theorem KexRtlQueryKeyMultipleValueData_default :
  forall (St : Type) (api : Registry.Services St)
         (LEGAL_REG_RESTRICT_MASK sizeof_KEY_VALUE_PARTIAL_INFORMATION : Z)
         (KeyHandle : HANDLE)
         (QueryTable QueryTable' : option (list Registry.ENTRY))
         (NumberOfQueryTableElements N' : option Z)
         (w w' : Registry.Machine St) (Status : NTSTATUS),
    (forall n, NumberOfQueryTableElements = Some n -> 0 <= n < 2 ^ 32) ->
    Registry.KexRtlQueryKeyMultipleValueData api LEGAL_REG_RESTRICT_MASK
      sizeof_KEY_VALUE_PARTIAL_INFORMATION KeyHandle QueryTable
      NumberOfQueryTableElements 0 w
    = (Registry.Done (Status, QueryTable', N'), w') ->
    (QueryTable = None /\
     Status = Registry.STATUS_INVALID_PARAMETER_2 /\
     QueryTable' = None /\ N' = NumberOfQueryTableElements /\ w' = w) \/
    (QueryTable <> None /\
     (NumberOfQueryTableElements = None \/
      NumberOfQueryTableElements = Some 0) /\
     Status = Registry.STATUS_INVALID_PARAMETER_3 /\
     QueryTable' = QueryTable /\ N' = NumberOfQueryTableElements /\ w' = w) \/
    (exists (T T' : list Registry.ENTRY) (n : Z),
       QueryTable = Some T /\ NumberOfQueryTableElements = Some n /\
       1 <= n /\
       Status = STATUS_SUCCESS /\ QueryTable' = Some T' /\ N' = Some n /\
       n <= Z.of_nat (length T) /\
       length T' = length T /\
       drop (Z.to_nat n) T' = drop (Z.to_nat n) T).
Proof.
  intros St api MASK sz KeyHandle QueryTable QueryTable' N N' w w' Status Hn.
  unfold Registry.KexRtlQueryKeyMultipleValueData.
  destruct QueryTable as [T |];
    [| intros E; injection E as <- <- <- <-; left; auto].
  destruct N as [n |];
    [| intros E; injection E as <- <- <- <-; right; left;
       repeat split; auto; try discriminate].
  specialize (Hn n eq_refl).
  destruct (Z.eqb_spec n 0) as [-> | Hn0].
  - intros E. injection E as <- <- <- <-. right. left.
    repeat split; auto; try discriminate.
  - simpl.
    destruct (Registry.query_loop _ _ _ _ _ _ _ _ w)
      as [[[[st T'] k] |] w1] eqn:Hloop; [| discriminate].
    intros E. injection E as <- <- <- <-.
    destruct (query_loop_spec api MASK sz KeyHandle 0 _ _ _ _ _ _ _ _ Hloop
                ltac:(lia) ltac:(lia) ltac:(lia))
      as [Hlen [(-> & -> & Hfit & Hdrop & _) | (_ & Hne & _)]];
      [| contradiction].
    right. right. exists T, T', n.
    repeat split; auto; lia.
Qed.

(** X17.  A call of KexRtlQueryKeyMultipleValueData with the fail-fast
    flag that returns has done one of four things.  Given no table, it
    has returned STATUS_INVALID_PARAMETER_2; given a table but no number
    of elements, or the number zero, it has returned
    STATUS_INVALID_PARAMETER_3; in both cases nothing was called and
    nothing was changed.  Given a table and a number of at least one, it
    has either queried all the entries it was given with success, and
    then it returns STATUS_SUCCESS and their number; or it has stopped at
    the first entry whose query failed, and then it returns
    STATUS_UNSUCCESSFUL, the number of elements is the number of entries
    before that one, their statuses are successes, the entry holds the
    failure status and the entries after it are untouched. *)
Theorem KexRtlQueryKeyMultipleValueData_fail_fast :
  forall (St : Type) (api : Registry.Services St)
         (LEGAL_REG_RESTRICT_MASK sizeof_KEY_VALUE_PARTIAL_INFORMATION : Z)
         (KeyHandle : HANDLE)
         (QueryTable QueryTable' : option (list Registry.ENTRY))
         (NumberOfQueryTableElements N' : option Z)
         (w w' : Registry.Machine St) (Status : NTSTATUS),
    (forall n, NumberOfQueryTableElements = Some n -> 0 <= n < 2 ^ 32) ->
    Registry.KexRtlQueryKeyMultipleValueData api LEGAL_REG_RESTRICT_MASK
      sizeof_KEY_VALUE_PARTIAL_INFORMATION KeyHandle QueryTable
      NumberOfQueryTableElements Registry.QUERY_KEY_MULTIPLE_VALUE_FAIL_FAST w
    = (Registry.Done (Status, QueryTable', N'), w') ->
    (QueryTable = None /\
     Status = Registry.STATUS_INVALID_PARAMETER_2 /\
     QueryTable' = None /\ N' = NumberOfQueryTableElements /\ w' = w) \/
    (QueryTable <> None /\
     (NumberOfQueryTableElements = None \/
      NumberOfQueryTableElements = Some 0) /\
     Status = Registry.STATUS_INVALID_PARAMETER_3 /\
     QueryTable' = QueryTable /\ N' = NumberOfQueryTableElements /\ w' = w) \/
    (exists (T T' : list Registry.ENTRY) (n : Z),
       QueryTable = Some T /\ NumberOfQueryTableElements = Some n /\
       1 <= n /\ QueryTable' = Some T' /\
       length T' = length T /\
       ((Status = STATUS_SUCCESS /\ N' = Some n /\
         n <= Z.of_nat (length T) /\
         Forall (fun e => NT_SUCCESS (Registry.EntryStatus e) = true)
                (take (Z.to_nat n) T') /\
         drop (Z.to_nat n) T' = drop (Z.to_nat n) T) \/
        (Status = Registry.STATUS_UNSUCCESSFUL /\
         exists k : nat,
           Z.of_nat k < n /\ N' = Some (Z.of_nat k) /\
           Forall (fun e => NT_SUCCESS (Registry.EntryStatus e) = true)
                  (take k T') /\
           (exists e, T' !! k = Some e /\
                      NT_SUCCESS (Registry.EntryStatus e) = false) /\
           drop (S k) T' = drop (S k) T))).
Proof.
  intros St api MASK sz KeyHandle QueryTable QueryTable' N N' w w' Status Hn.
  unfold Registry.KexRtlQueryKeyMultipleValueData.
  destruct QueryTable as [T |];
    [| intros E; injection E as <- <- <- <-; left; auto].
  destruct N as [n |];
    [| intros E; injection E as <- <- <- <-; right; left;
       repeat split; auto; try discriminate].
  specialize (Hn n eq_refl).
  destruct (Z.eqb_spec n 0) as [-> | Hn0].
  - intros E. injection E as <- <- <- <-. right. left.
    repeat split; auto; try discriminate.
  - simpl.
    destruct (Registry.query_loop _ _ _ _ _ _ _ _ w)
      as [[[[st T'] k] |] w1] eqn:Hloop; [| discriminate].
    intros E. injection E as <- <- <- <-.
    destruct (query_loop_spec api MASK sz KeyHandle _ _ _ _ _ _ _ _ _ Hloop
                ltac:(lia) ltac:(lia) ltac:(lia))
      as [Hlen [(-> & -> & Hfit & Hdrop & Hall)
               | (-> & Hne & j & Hj & -> & Hall & Hfail & Hdrop)]].
    + right. right. exists T, T', n.
      do 4 (split; [reflexivity || lia |]). split; [exact Hlen |].
      left. split; [reflexivity |]. split; [reflexivity |].
      split; [exact Hfit |].
      split; [apply Hall; discriminate | exact Hdrop].
    + right. right. exists T, T', n.
      do 4 (split; [reflexivity || lia |]). split; [exact Hlen |].
      right. split; [reflexivity |]. exists j. auto.
Qed.

(** A table that asks for "Missing" and then for "Level". *)
Lemma sample_table_default :
  exists QueryTable' w',
    Registry.KexRtlQueryKeyMultipleValueData RefRegistry.api
      RefRegistry.LEGAL_REG_RESTRICT_MASK
      RefRegistry.sizeof_KEY_VALUE_PARTIAL_INFORMATION 0x44
      (Some [Registry.mkENTRY (wide "Missing") 4 (Some [0; 0; 0; 0]) 0x10 0 0;
             Registry.mkENTRY (wide "Level") 4 (Some [0; 0; 0; 0]) 0x10 0 0])
      (Some 2) 0 (RefRegistry.boot RefRegistry.sample)
    = (Registry.Done (STATUS_SUCCESS, Some QueryTable', Some 2), w') /\
    Registry.EntryStatus <$> QueryTable'
    = [RefRegistry.STATUS_OBJECT_NAME_NOT_FOUND; STATUS_SUCCESS].
Proof. vm_compute. eexists _, _. split; reflexivity. Qed.

Lemma sample_table_fail_fast :
  exists QueryTable' w',
    Registry.KexRtlQueryKeyMultipleValueData RefRegistry.api
      RefRegistry.LEGAL_REG_RESTRICT_MASK
      RefRegistry.sizeof_KEY_VALUE_PARTIAL_INFORMATION 0x44
      (Some [Registry.mkENTRY (wide "Missing") 4 (Some [0; 0; 0; 0]) 0x10 0 0;
             Registry.mkENTRY (wide "Level") 4 (Some [0; 0; 0; 0]) 0x10 0 0])
      (Some 2) Registry.QUERY_KEY_MULTIPLE_VALUE_FAIL_FAST
      (RefRegistry.boot RefRegistry.sample)
    = (Registry.Done (Registry.STATUS_UNSUCCESSFUL, Some QueryTable', Some 0),
       w').
Proof. vm_compute. eexists _, _. reflexivity. Qed.

(** The count of a sample call is a ULONG. *)
Lemma sample_count_is_ULONG (c : Z) :
  0 <= c < 2 ^ 32 -> forall n : Z, Some c = Some n -> 0 <= n < 2 ^ 32.
Proof. intros Hc n E. injection E as <-. exact Hc. Qed.

(** X16 on the reference key: the first of two queries fails, and the
    routine still reports success and two elements; with the number zero
    it reports the third parameter and leaves the table alone. *)
Lemma KexRtlQueryKeyMultipleValueData_default_witness :
  (exists QueryTable' w',
     Registry.KexRtlQueryKeyMultipleValueData RefRegistry.api
       RefRegistry.LEGAL_REG_RESTRICT_MASK
       RefRegistry.sizeof_KEY_VALUE_PARTIAL_INFORMATION 0x44
       (Some [Registry.mkENTRY (wide "Missing") 4 (Some [0; 0; 0; 0]) 0x10 0 0;
              Registry.mkENTRY (wide "Level") 4 (Some [0; 0; 0; 0]) 0x10 0 0])
       (Some 2) 0 (RefRegistry.boot RefRegistry.sample)
     = (Registry.Done (STATUS_SUCCESS, Some QueryTable', Some 2), w') /\
     Registry.EntryStatus <$> QueryTable'
     = [RefRegistry.STATUS_OBJECT_NAME_NOT_FOUND; STATUS_SUCCESS] /\
     length QueryTable' = 2%nat) /\
  Registry.KexRtlQueryKeyMultipleValueData RefRegistry.api
    RefRegistry.LEGAL_REG_RESTRICT_MASK
    RefRegistry.sizeof_KEY_VALUE_PARTIAL_INFORMATION 0x44
    (Some [Registry.mkENTRY (wide "Level") 4 (Some [0; 0; 0; 0]) 0x10 0 0])
    (Some 0) 0 (RefRegistry.boot RefRegistry.sample)
  = (Registry.Done
       (Registry.STATUS_INVALID_PARAMETER_3,
        Some [Registry.mkENTRY (wide "Level") 4 (Some [0; 0; 0; 0]) 0x10 0 0],
        Some 0),
     RefRegistry.boot RefRegistry.sample).
Proof.
  split.
  - destruct sample_table_default as (T & w' & Hrun & Hstatus).
    exists T, w'. split; [exact Hrun |]. split; [exact Hstatus |].
    destruct (KexRtlQueryKeyMultipleValueData_default _ _ _ _ _ _ _ _ _ _ _ _
                (sample_count_is_ULONG 2 ltac:(lia)) Hrun)
      as [(H & _) | [(_ & [H | H] & _) | (T0 & T1 & n & H0 & _ & _ & _ & H1 & _
                                          & _ & Hlen & _)]];
      try discriminate.
    injection H0 as <-. injection H1 as <-. exact Hlen.
  - reflexivity.
Defined.

(** X17 on the reference key: with the fail-fast flag the routine stops
    at the first query, which fails, and leaves the second entry. *)
Lemma KexRtlQueryKeyMultipleValueData_fail_fast_witness :
  exists QueryTable' w',
    Registry.KexRtlQueryKeyMultipleValueData RefRegistry.api
      RefRegistry.LEGAL_REG_RESTRICT_MASK
      RefRegistry.sizeof_KEY_VALUE_PARTIAL_INFORMATION 0x44
      (Some [Registry.mkENTRY (wide "Missing") 4 (Some [0; 0; 0; 0]) 0x10 0 0;
             Registry.mkENTRY (wide "Level") 4 (Some [0; 0; 0; 0]) 0x10 0 0])
      (Some 2) Registry.QUERY_KEY_MULTIPLE_VALUE_FAIL_FAST
      (RefRegistry.boot RefRegistry.sample)
    = (Registry.Done (Registry.STATUS_UNSUCCESSFUL, Some QueryTable', Some 0),
       w') /\
    drop 1 QueryTable'
    = [Registry.mkENTRY (wide "Level") 4 (Some [0; 0; 0; 0]) 0x10 0 0].
Proof.
  destruct sample_table_fail_fast as (T & w' & Hrun).
  exists T, w'. split; [exact Hrun |].
  destruct (KexRtlQueryKeyMultipleValueData_fail_fast _ _ _ _ _ _ _ _ _ _ _ _
              (sample_count_is_ULONG 2 ltac:(lia)) Hrun)
    as [(H & _) | [(_ & [H | H] & _)
                  | (T0 & T1 & n & H0 & _ & _ & H1 & _ &
                     [(Hs & _) | (_ & k & _ & Hk & _ & _ & Hdrop)])]];
    try discriminate.
  injection H0 as <-. injection H1 as <-.
  injection Hk as Hk. assert (k = 0%nat) as -> by lia. exact Hdrop.
Defined.

(** ** What the search finds *)

Section SearchFinds.

Variable host : Host.
Variable ToUpper : WCHAR -> WCHAR.
Variable m : gmap Z Z.
Hypothesis Hspace : Counted.in_address_space host m.

Variable NeedleFirst : WCHAR.
Variable NeedleBufferEnd HaystackBufferEnd HaystackBufferRealEnd : PVOID.

Lemma load_WCHAR_ok (a : PVOID) (w : Image) (c : WCHAR) :
  memory w = m -> load_int 2 m a = Some c ->
  exists w', Counted.load_WCHAR a w = (Ok c, w') /\ memory w' = m /\
             Counted.PWCHAR_add host a 1 = a + 2.
Proof using Hspace.
  intros Hm Hload. unfold Counted.load_WCHAR.
  rewrite (load_ok 2 a w c) by (rewrite Hm; exact Hload).
  eexists. split; [reflexivity |]. split; [exact Hm |].
  apply (load_WCHAR_space host m Hspace) in Hload.
  unfold Counted.PWCHAR_add, element, ULONG_PTR. apply Z.mod_small. lia.
Qed.

(** The first loops walk over characters that are not the first of the
    needle and stop at one that is, if it lies at or before
    [HaystackBufferEnd]. *)
Lemma first_insensitive_reaches (i : nat) :
  forall (fuel : nat) (H : PVOID) (w : Image),
    memory w = m -> (i < fuel)%nat ->
    (forall j : nat, (j < i)%nat ->
       exists c, load_int 2 m (H + 2 * Z.of_nat j) = Some c /\
                 ToUpper c <> NeedleFirst) ->
    (exists c, load_int 2 m (H + 2 * Z.of_nat i) = Some c /\
               ToUpper c = NeedleFirst) ->
    H + 2 * Z.of_nat i <= HaystackBufferEnd ->
    exists w',
      Counted.first_insensitive host ToUpper NeedleFirst HaystackBufferEnd
        fuel H w = (Ok (Counted.Leave (H + 2 * Z.of_nat i)), w') /\
      memory w' = m.
Proof using Hspace.
  induction i as [| i IH]; intros fuel H w Hm Hfuel Hbefore Hat Hend;
    (destruct fuel as [| fuel]; [lia |]); simpl Counted.first_insensitive;
    unfold bindR at 1.
  - destruct Hat as (c & Lc & Ec).
    rewrite Z.mul_0_r, Z.add_0_r in *.
    destruct (load_WCHAR_ok H w c Hm Lc) as (w1 & -> & Hm1 & _).
    rewrite Ec, Z.eqb_refl. simpl. eauto.
  - destruct (Hbefore 0%nat ltac:(lia)) as (c & Lc & Ec).
    rewrite Z.mul_0_r, Z.add_0_r in Lc.
    destruct (load_WCHAR_ok H w c Hm Lc) as (w1 & -> & Hm1 & ->).
    replace (ToUpper c =? NeedleFirst) with false
      by (symmetry; apply Z.eqb_neq; exact Ec).
    simpl negb. cbv iota.
    replace (H + 2 >? HaystackBufferEnd) with false
      by (symmetry; rewrite Z.gtb_ltb; apply Z.ltb_ge; lia).
    replace (H + 2 * Z.of_nat (S i)) with (H + 2 + 2 * Z.of_nat i) in * by lia.
    apply IH; [exact Hm1 | lia | | exact Hat | exact Hend].
    intros j Hj. destruct (Hbefore (S j) ltac:(lia)) as (c' & Lc' & Ec').
    exists c'. replace (H + 2 + 2 * Z.of_nat j)
      with (H + 2 * Z.of_nat (S j)) by lia. auto.
Qed.

Lemma first_sensitive_reaches (i : nat) :
  forall (fuel : nat) (H : PVOID) (w : Image),
    memory w = m -> (i < fuel)%nat ->
    (forall j : nat, (j < i)%nat ->
       exists c, load_int 2 m (H + 2 * Z.of_nat j) = Some c /\
                 c <> NeedleFirst) ->
    load_int 2 m (H + 2 * Z.of_nat i) = Some NeedleFirst ->
    H + 2 * Z.of_nat i <= HaystackBufferEnd ->
    exists w',
      Counted.first_sensitive host NeedleFirst HaystackBufferEnd
        fuel H w = (Ok (Counted.Leave (H + 2 * Z.of_nat i + 2)), w') /\
      memory w' = m.
Proof using Hspace.
  induction i as [| i IH]; intros fuel H w Hm Hfuel Hbefore Hat Hend;
    (destruct fuel as [| fuel]; [lia |]); simpl Counted.first_sensitive;
    unfold bindR at 1.
  - rewrite Z.mul_0_r, Z.add_0_r in *.
    destruct (load_WCHAR_ok H w _ Hm Hat) as (w1 & -> & Hm1 & ->).
    rewrite Z.eqb_refl. simpl. eauto.
  - destruct (Hbefore 0%nat ltac:(lia)) as (c & Lc & Ec).
    rewrite Z.mul_0_r, Z.add_0_r in Lc.
    destruct (load_WCHAR_ok H w c Hm Lc) as (w1 & -> & Hm1 & ->).
    replace (c =? NeedleFirst) with false
      by (symmetry; apply Z.eqb_neq; exact Ec).
    simpl negb. cbv iota.
    replace (H + 2 >? HaystackBufferEnd) with false
      by (symmetry; rewrite Z.gtb_ltb; apply Z.ltb_ge; lia).
    replace (H + 2 * Z.of_nat (S i)) with (H + 2 + 2 * Z.of_nat i) in * by lia.
    apply IH; [exact Hm1 | lia | | exact Hat | exact Hend].
    intros j Hj. destruct (Hbefore (S j) ltac:(lia)) as (c' & Lc' & Ec').
    exists c'. replace (H + 2 + 2 * Z.of_nat j)
      with (H + 2 * Z.of_nat (S j)) by lia. auto.
Qed.

(** The loops over the rest of the needle return the start once the
    needle is used up, if the haystack pointer stays within the real
    end. *)
Lemma rest_insensitive_returns (Start : PVOID) (j : nat) :
  forall (fuel : nat) (H N : PVOID) (w : Image),
    memory w = m -> (j < fuel)%nat ->
    Counted.agree m ToUpper H N (Z.of_nat j + 1) ->
    H + 2 * (Z.of_nat j + 1) <= HaystackBufferRealEnd ->
    NeedleBufferEnd = N + 2 * (Z.of_nat j + 1) ->
    exists w',
      Counted.rest_insensitive host ToUpper NeedleBufferEnd
        HaystackBufferRealEnd fuel Start H N w
      = (Ok (Counted.Return Start), w') /\
      memory w' = m.
Proof using Hspace.
  induction j as [| j IH]; intros fuel H N w Hm Hfuel Hagree Hreal Hend;
    (destruct fuel as [| fuel]; [lia |]); simpl Counted.rest_insensitive;
    unfold bindR at 1;
    destruct (Hagree 0 ltac:(lia)) as (h & n & Lh & Ln & E);
    rewrite Z.mul_0_r, Z.add_0_r in Lh, Ln;
    destruct (load_WCHAR_ok H w h Hm Lh) as (w1 & -> & Hm1 & ->);
    unfold bindR at 1;
    destruct (load_WCHAR_ok N w1 n Hm1 Ln) as (w2 & -> & Hm2 & ->);
    rewrite E, Z.eqb_refl;
    (replace (H + 2 >? HaystackBufferRealEnd) with false
       by (symmetry; rewrite Z.gtb_ltb; apply Z.ltb_ge; lia)).
  - replace (N + 2 >=? NeedleBufferEnd) with true
      by (symmetry; apply Z.geb_le; lia).
    eauto.
  - replace (N + 2 >=? NeedleBufferEnd) with false
      by (symmetry; rewrite Z.geb_leb; apply Z.leb_gt; lia).
    apply IH; [exact Hm2 | lia | | lia | lia].
    intros i Hi. destruct (Hagree (i + 1) ltac:(lia)) as (h' & n' & L1 & L2 & E').
    exists h', n'.
    replace (H + 2 + 2 * i) with (H + 2 * (i + 1)) by lia.
    replace (N + 2 + 2 * i) with (N + 2 * (i + 1)) by lia. auto.
Qed.

Lemma rest_sensitive_returns (Start : PVOID) (j : nat) :
  forall (fuel : nat) (H N : PVOID) (w : Image),
    memory w = m -> (j < fuel)%nat ->
    Counted.agree m (fun c => c) H N (Z.of_nat j + 1) ->
    H + 2 * (Z.of_nat j + 1) <= HaystackBufferRealEnd ->
    NeedleBufferEnd = N + 2 * (Z.of_nat j + 1) ->
    exists w',
      Counted.rest_sensitive host NeedleBufferEnd HaystackBufferRealEnd
        fuel Start H N w
      = (Ok (Counted.Return Start), w') /\
      memory w' = m.
Proof using Hspace.
  induction j as [| j IH]; intros fuel H N w Hm Hfuel Hagree Hreal Hend;
    (destruct fuel as [| fuel]; [lia |]); simpl Counted.rest_sensitive;
    unfold bindR at 1;
    destruct (Hagree 0 ltac:(lia)) as (h & n & Lh & Ln & E);
    rewrite Z.mul_0_r, Z.add_0_r in Lh, Ln;
    destruct (load_WCHAR_ok H w h Hm Lh) as (w1 & -> & Hm1 & ->);
    unfold bindR at 1;
    destruct (load_WCHAR_ok N w1 n Hm1 Ln) as (w2 & -> & Hm2 & ->);
    rewrite E, Z.eqb_refl;
    (replace (H + 2 >? HaystackBufferRealEnd) with false
       by (symmetry; rewrite Z.gtb_ltb; apply Z.ltb_ge; lia)).
  - replace (N + 2 >=? NeedleBufferEnd) with true
      by (symmetry; apply Z.geb_le; lia).
    eauto.
  - replace (N + 2 >=? NeedleBufferEnd) with false
      by (symmetry; rewrite Z.geb_leb; apply Z.leb_gt; lia).
    apply IH; [exact Hm2 | lia | | lia | lia].
    intros i Hi. destruct (Hagree (i + 1) ltac:(lia)) as (h' & n' & L1 & L2 & E').
    exists h', n'.
    replace (H + 2 + 2 * i) with (H + 2 * (i + 1)) by lia.
    replace (N + 2 + 2 * i) with (N + 2 * (i + 1)) by lia. auto.
Qed.

(** A character that differs ends the loop over the rest of the needle;
    the case-sensitive loop has stepped over it. *)
Lemma rest_insensitive_mismatch (Start : PVOID) (fuel : nat) (H N : PVOID)
  (w : Image) (h n : WCHAR) :
  memory w = m -> load_int 2 m H = Some h -> load_int 2 m N = Some n ->
  ToUpper h <> ToUpper n ->
  exists w',
    Counted.rest_insensitive host ToUpper NeedleBufferEnd
      HaystackBufferRealEnd (S fuel) Start H N w
    = (Ok (Counted.Leave H), w') /\
    memory w' = m.
Proof using Hspace.
  intros Hm Lh Ln Hne. simpl Counted.rest_insensitive. unfold bindR at 1.
  destruct (load_WCHAR_ok H w h Hm Lh) as (w1 & -> & Hm1 & _).
  unfold bindR at 1.
  destruct (load_WCHAR_ok N w1 n Hm1 Ln) as (w2 & -> & Hm2 & _).
  replace (ToUpper h =? ToUpper n) with false
    by (symmetry; apply Z.eqb_neq; exact Hne).
  eauto.
Qed.

Lemma rest_sensitive_mismatch (Start : PVOID) (fuel : nat) (H N : PVOID)
  (w : Image) (h n : WCHAR) :
  memory w = m -> load_int 2 m H = Some h -> load_int 2 m N = Some n ->
  h <> n ->
  exists w',
    Counted.rest_sensitive host NeedleBufferEnd HaystackBufferRealEnd
      (S fuel) Start H N w
    = (Ok (Counted.Leave (H + 2)), w') /\
    memory w' = m.
Proof using Hspace.
  intros Hm Lh Ln Hne. simpl Counted.rest_sensitive. unfold bindR at 1.
  destruct (load_WCHAR_ok H w h Hm Lh) as (w1 & -> & Hm1 & ->).
  unfold bindR at 1.
  destruct (load_WCHAR_ok N w1 n Hm1 Ln) as (w2 & -> & Hm2 & _).
  replace (h =? n) with false by (symmetry; apply Z.eqb_neq; exact Hne).
  eauto.
Qed.

(** Past [HaystackBufferEnd] the case-sensitive loop for the first
    character gives up at a character that differs. *)
Lemma first_sensitive_gives_up (fuel : nat) (H : PVOID) (w : Image)
  (c : WCHAR) :
  memory w = m -> load_int 2 m H = Some c -> c <> NeedleFirst ->
  HaystackBufferEnd < H + 2 ->
  exists w',
    Counted.first_sensitive host NeedleFirst HaystackBufferEnd (S fuel) H w
    = (Ok (Counted.Return NULL), w') /\
    memory w' = m.
Proof using Hspace.
  intros Hm Lc Hne Hend. simpl Counted.first_sensitive. unfold bindR at 1.
  destruct (load_WCHAR_ok H w c Hm Lc) as (w1 & -> & Hm1 & ->).
  replace (c =? NeedleFirst) with false
    by (symmetry; apply Z.eqb_neq; exact Hne).
  simpl negb. cbv iota.
  replace (H + 2 >? HaystackBufferEnd) with true
    by (symmetry; apply Z.gtb_lt; exact Hend).
  eauto.
Qed.

End SearchFinds.

(** X18.  KexRtlFindUnicodeSubstring finds a needle of two or more
    characters at its first occurrence in the haystack when no
    character of the haystack before the occurrence equals the first
    character of the needle (after ToUpper when case is ignored): the
    result is the address of the occurrence.  More fuel than the
    haystack has characters is enough. *)
Theorem KexRtlFindUnicodeSubstring_finds :
  forall (host : Host) (ToUpper : WCHAR -> WCHAR) (fuel : nat)
         (Haystack Needle : Counted.UNICODE_STRING) (CaseInsensitive : bool)
         (w : Image) (pre mid post ns : list WCHAR),
    let f := if CaseInsensitive then ToUpper else fun c => c in
    Counted.in_address_space host (memory w) ->
    0 <= Counted.Buffer Haystack < 2 ^ KexRtlCurrentProcessBitness host ->
    0 <= Counted.Buffer Needle < 2 ^ KexRtlCurrentProcessBitness host ->
    Counted.characters host (memory w) Haystack = Some (pre ++ mid ++ post) ->
    Counted.characters host (memory w) Needle = Some ns ->
    (2 <= length ns)%nat ->
    map f mid = map f ns ->
    Forall (fun c => f c <> f (hd 0 ns)) pre ->
    (length (pre ++ mid ++ post) < fuel)%nat ->
    exists w',
      Counted.KexRtlFindUnicodeSubstring host ToUpper fuel Haystack Needle
        CaseInsensitive w
      = (Ok (Counted.Buffer Haystack + 2 * Z.of_nat (length pre)), w') /\
      memory w' = memory w.
Proof.
  intros host ToUpper fuel Haystack Needle CaseInsensitive w pre mid post ns f
         Hspace HBH HBN Hhs Hns Hk Hmid Hpre Hfuel.
  set (m := memory w) in *.
  destruct (characters_lookup host m Haystack _ Hspace HBH Hhs)
    as [Hlhs Hhs_at].
  destruct (characters_lookup host m Needle ns Hspace HBN Hns)
    as [Hlns Hns_at].
  assert (Hlmid : length mid = length ns).
  { apply (f_equal length) in Hmid. rewrite !length_map in Hmid. exact Hmid. }
  rewrite !length_app, Hlmid in Hlhs, Hfuel.
  remember (length pre) as i eqn:Ei.
  remember (length ns) as k eqn:Ek.
  remember (i + (k + length post))%nat as lh eqn:Elh.
  assert (ELN : Counted.Length Needle / 2 = Z.of_nat k) by lia.
  assert (ELH : Counted.Length Haystack / 2 = Z.of_nat lh) by lia.
  (* the characters of the needle and of the haystack in memory *)
  destruct ns as [| n0 ns']; [simpl in Ek; lia |].
  destruct mid as [| h0 mid']; [discriminate |].
  simpl in Hmid. injection Hmid as Hf0 Hmid'. simpl hd in Hpre.
  simpl in Ek, Hlmid.
  assert (Hneedle0 : load_int 2 m (Counted.Buffer Needle) = Some n0).
  { destruct (Hns_at 0%nat n0 eq_refl) as [L _].
    rewrite Z.mul_0_r, Z.add_0_r in L. exact L. }
  assert (Hbefore : forall j : nat, (j < i)%nat ->
            exists c, load_int 2 m (Counted.Buffer Haystack + 2 * Z.of_nat j)
                      = Some c /\ f c <> f n0).
  { intros j Hj. destruct (lookup_lt_is_Some_2 pre j ltac:(lia)) as [c Hc].
    exists c. split.
    - apply Hhs_at. rewrite lookup_app_l by lia. exact Hc.
    - exact (Forall_lookup_1 _ _ _ _ Hpre Hc). }
  assert (Hat : load_int 2 m (Counted.Buffer Haystack + 2 * Z.of_nat i)
                = Some h0).
  { apply Hhs_at. rewrite lookup_app_r by lia.
    replace (i - length pre)%nat with 0%nat by lia. reflexivity. }
  assert (Hagree : Counted.agree m f
                     (Counted.Buffer Haystack + 2 * Z.of_nat i + 2)
                     (Counted.Buffer Needle + 2)
                     (Z.of_nat (k - 2) + 1)).
  { intros t Ht.
    assert (Hn : is_Some (ns' !! Z.to_nat t))
      by (apply lookup_lt_is_Some_2; lia).
    destruct Hn as [n Hn].
    assert (Hh : exists h, mid' !! Z.to_nat t = Some h /\ f h = f n).
    { apply (f_equal (fun l => l !! Z.to_nat t)) in Hmid'.
      rewrite !list_lookup_fmap, Hn in Hmid'. simpl in Hmid'.
      destruct (mid' !! Z.to_nat t) as [h |]; [| discriminate].
      simpl in Hmid'. injection Hmid' as E. eauto. }
    destruct Hh as (h & Hh & E). exists h, n.
    split; [| split; [| exact E]].
    - replace (Counted.Buffer Haystack + 2 * Z.of_nat i + 2 + 2 * t)
        with (Counted.Buffer Haystack
              + 2 * Z.of_nat (i + S (Z.to_nat t))) by lia.
      apply Hhs_at. rewrite lookup_app_r by lia.
      replace (i + S (Z.to_nat t) - length pre)%nat with (S (Z.to_nat t))
        by lia.
      simpl. rewrite lookup_app_l by (apply lookup_lt_Some in Hh; exact Hh).
      exact Hh.
    - replace (Counted.Buffer Needle + 2 + 2 * t)
        with (Counted.Buffer Needle + 2 * Z.of_nat (S (Z.to_nat t))) by lia.
      apply Hns_at. simpl. exact Hn. }
  (* the ends of the buffers *)
  destruct (lookup_lt_is_Some_2 (n0 :: ns') (k - 1)%nat ltac:(simpl; lia))
    as [cn Hcn].
  destruct (Hns_at _ _ Hcn) as [_ HNend].
  destruct (lookup_lt_is_Some_2 (pre ++ (h0 :: mid') ++ post) (lh - 1)%nat
              ltac:(rewrite !length_app; simpl; lia))
    as [ch Hch].
  destruct (Hhs_at _ _ Hch) as [_ HHend].
  assert (ENend : Counted.PBYTE_add host (Counted.Buffer Needle)
                    (2 * Z.of_nat k)
                  = Counted.Buffer Needle + 2 * Z.of_nat k).
  { unfold Counted.PBYTE_add, element, ULONG_PTR. rewrite Z.mod_small; lia. }
  assert (EHend : Counted.PBYTE_add host
                    (Counted.PBYTE_add host (Counted.Buffer Haystack)
                       (2 * Z.of_nat lh)) (- (2 * Z.of_nat k))
                  = Counted.Buffer Haystack + 2 * Z.of_nat lh
                    - 2 * Z.of_nat k).
  { unfold Counted.PBYTE_add, element. rewrite ULONG_PTR_idemp.
    unfold ULONG_PTR. rewrite Z.mod_small; lia. }
  assert (ERend : Counted.PBYTE_add host
                    (Counted.Buffer Haystack + 2 * Z.of_nat lh
                     - 2 * Z.of_nat k) (2 * Z.of_nat k)
                  = Counted.Buffer Haystack + 2 * Z.of_nat lh).
  { unfold Counted.PBYTE_add, element, ULONG_PTR.
    rewrite Z.mod_small; lia. }
  assert (ENone : Counted.PWCHAR_add host (Counted.Buffer Needle) 1
                  = Counted.Buffer Needle + 2).
  { unfold Counted.PWCHAR_add, element, ULONG_PTR. rewrite Z.mod_small; lia. }
  unfold Counted.KexRtlFindUnicodeSubstring.
  rewrite !land_lnot_1, ELN, ELH.
  replace ((2 * Z.of_nat k >? 2 * Z.of_nat lh) || (2 * Z.of_nat lh =? 0)
           || (2 * Z.of_nat k =? 0)) with false.
  2:{ symmetry. rewrite !orb_false_iff, Z.gtb_ltb, Z.ltb_ge, !Z.eqb_neq.
      lia. }
  cbv zeta. rewrite ENend, EHend, ERend.
  destruct fuel as [| fuel]; [lia |].
  destruct (load_WCHAR_ok host m Hspace (Counted.Buffer Needle) w n0 eq_refl
              Hneedle0) as (w0 & Eload & Hm0 & _).
  destruct CaseInsensitive; unfold bindR at 1; rewrite Eload;
    simpl in f; subst f.
  - cbn [Counted.search_insensitive]. cbv zeta. unfold bindR at 1.
    destruct (first_insensitive_reaches host ToUpper m Hspace (ToUpper n0)
                (Counted.Buffer Haystack + 2 * Z.of_nat lh - 2 * Z.of_nat k)
                i (S fuel) (Counted.Buffer Haystack) w0 Hm0
                ltac:(lia) Hbefore
                ltac:(eauto) ltac:(lia))
      as (w1 & -> & Hm1).
    destruct (load_WCHAR_ok host m Hspace _ w1 h0 Hm1 Hat) as (_ & _ & _ & ->).
    rewrite ENone. unfold bindR at 1.
    destruct (rest_insensitive_returns host ToUpper m Hspace
                (Counted.Buffer Needle + 2 * Z.of_nat k)
                (Counted.Buffer Haystack + 2 * Z.of_nat lh)
                (Counted.Buffer Haystack + 2 * Z.of_nat i) (k - 2)
                (S fuel) _ _ w1 Hm1 ltac:(lia) Hagree
                ltac:(lia) ltac:(lia))
      as (w2 & -> & Hm2).
    eauto.
  - cbn [Counted.search_sensitive]. cbv zeta. unfold bindR at 1.
    assert (h0 = n0) as -> by exact Hf0.
    destruct (first_sensitive_reaches host m Hspace n0
                (Counted.Buffer Haystack + 2 * Z.of_nat lh - 2 * Z.of_nat k)
                i (S fuel) (Counted.Buffer Haystack) w0 Hm0
                ltac:(lia) Hbefore Hat
                ltac:(lia))
      as (w1 & -> & Hm1).
    assert (EStart : Counted.PWCHAR_add host
                       (Counted.Buffer Haystack + 2 * Z.of_nat i + 2) (-1)
                     = Counted.Buffer Haystack + 2 * Z.of_nat i).
    { apply (load_WCHAR_space host m Hspace) in Hat.
      unfold Counted.PWCHAR_add, element, ULONG_PTR.
      rewrite Z.mod_small; lia. }
    rewrite EStart, ENone. unfold bindR at 1.
    destruct (rest_sensitive_returns host m Hspace
                (Counted.Buffer Needle + 2 * Z.of_nat k)
                (Counted.Buffer Haystack + 2 * Z.of_nat lh)
                (Counted.Buffer Haystack + 2 * Z.of_nat i) (k - 2)
                (S fuel) _ _ w1 Hm1 ltac:(lia) Hagree
                ltac:(lia) ltac:(lia))
      as (w2 & -> & Hm2).
    eauto.
Qed.

Lemma sample_no_earlier_first :
  Forall (fun c => Ref.upcase c <> Ref.upcase (hd 0 (wide "PAD.")))
         (wide "C:\Windows\note").
Proof. apply (bool_decide_unpack _). vm_compute. exact I. Qed.

(** X18 on the sample memory: "PAD." is found in the path, case ignored,
    after the fifteen characters "C:\Windows\note", none of which is a
    "p". *)
Lemma KexRtlFindUnicodeSubstring_finds_witness :
  exists w',
    Counted.KexRtlFindUnicodeSubstring Ref.wow64 Ref.upcase 61 RefText.Path
      RefText.UpperNeedle true RefText.sample
    = (Ok 0x3001E, w') /\
    memory w' = memory RefText.sample.
Proof.
  apply (KexRtlFindUnicodeSubstring_finds Ref.wow64 Ref.upcase 61
           RefText.Path RefText.UpperNeedle true RefText.sample
           (wide "C:\Windows\note") (wide "pad.") (wide "exe") (wide "PAD.")
           sample_text_space
           ltac:(vm_compute; split; [discriminate | reflexivity])
           ltac:(vm_compute; split; [discriminate | reflexivity])
           sample_path_characters sample_needle_characters
           ltac:(simpl; lia) eq_refl sample_no_earlier_first
           ltac:(simpl; lia)).
Defined.

(** X19.  The two variants of the search differ where case plays no
    part.  Looking for "ab" in "aab", for any two characters a and b
    that differ also after ToUpper, the case-insensitive search returns
    the address of the second character, where the needle is, and the
    case-sensitive search returns NULL: after the partial match at the
    first character it steps over the character that did not match. *)
Theorem KexRtlFindUnicodeSubstring_variants_differ :
  forall (host : Host) (ToUpper : WCHAR -> WCHAR) (fuel : nat)
         (Haystack Needle : Counted.UNICODE_STRING) (w : Image) (a b : WCHAR),
    Counted.in_address_space host (memory w) ->
    0 <= Counted.Buffer Haystack < 2 ^ KexRtlCurrentProcessBitness host ->
    0 <= Counted.Buffer Needle < 2 ^ KexRtlCurrentProcessBitness host ->
    Counted.characters host (memory w) Haystack = Some [a; a; b] ->
    Counted.characters host (memory w) Needle = Some [a; b] ->
    ToUpper a <> ToUpper b ->
    (2 <= fuel)%nat ->
    fst (Counted.KexRtlFindUnicodeSubstring host ToUpper fuel Haystack Needle
           true w) = Ok (Counted.Buffer Haystack + 2) /\
    fst (Counted.KexRtlFindUnicodeSubstring host ToUpper fuel Haystack Needle
           false w) = Ok NULL.
Proof.
  intros host ToUpper fuel Haystack Needle w a b Hspace HBH HBN Hhs Hns Hab
         Hfuel.
  assert (Hne : a <> b) by congruence.
  set (m := memory w) in *.
  destruct (characters_lookup host m Haystack _ Hspace HBH Hhs)
    as [Hlhs Hhs_at].
  destruct (characters_lookup host m Needle _ Hspace HBN Hns)
    as [Hlns Hns_at].
  simpl in Hlhs, Hlns.
  assert (ELN : Counted.Length Needle / 2 = 2) by lia.
  assert (ELH : Counted.Length Haystack / 2 = 3) by lia.
  destruct (Hhs_at 0%nat a eq_refl) as [L0 _].
  destruct (Hhs_at 1%nat a eq_refl) as [L1 _].
  destruct (Hhs_at 2%nat b eq_refl) as [L2 H2end].
  destruct (Hns_at 0%nat a eq_refl) as [N0 _].
  destruct (Hns_at 1%nat b eq_refl) as [N1 N1end].
  simpl in L0, L1, L2, N0, N1, H2end, N1end.
  rewrite Z.add_0_r in L0, N0.
  set (HB := Counted.Buffer Haystack) in *.
  set (NB := Counted.Buffer Needle) in *.
  assert (ENend : Counted.PBYTE_add host NB (2 * 2) = NB + 4).
  { unfold Counted.PBYTE_add, element, ULONG_PTR. rewrite Z.mod_small; lia. }
  assert (EHend : Counted.PBYTE_add host
                    (Counted.PBYTE_add host HB (2 * 3)) (- (2 * 2)) = HB + 2).
  { unfold Counted.PBYTE_add, element. rewrite ULONG_PTR_idemp.
    unfold ULONG_PTR. rewrite Z.mod_small; lia. }
  assert (ERend : Counted.PBYTE_add host (HB + 2) (2 * 2) = HB + 6).
  { unfold Counted.PBYTE_add, element, ULONG_PTR. rewrite Z.mod_small; lia. }
  assert (ENone : Counted.PWCHAR_add host NB 1 = NB + 2).
  { unfold Counted.PWCHAR_add, element, ULONG_PTR. rewrite Z.mod_small; lia. }
  assert (Eab : (ToUpper a =? ToUpper b) = false) by (apply Z.eqb_neq; exact Hab).
  assert (Eba : (ToUpper b =? ToUpper a) = false)
    by (apply Z.eqb_neq; congruence).
  assert (Eab' : (a =? b) = false) by (apply Z.eqb_neq; exact Hne).
  assert (Eba' : (b =? a) = false) by (apply Z.eqb_neq; congruence).
  destruct fuel as [| [| fuel]]; [lia | lia |].
  unfold Counted.KexRtlFindUnicodeSubstring.
  rewrite !land_lnot_1, ELN, ELH.
  replace ((2 * 2 >? 2 * 3) || (2 * 3 =? 0) || (2 * 2 =? 0)) with false
    by reflexivity.
  cbv iota zeta. fold HB NB. rewrite ENend, EHend, ERend.
  destruct (load_WCHAR_ok host m Hspace NB w a eq_refl N0)
    as (w0 & Eload & Hm0 & _).
  assert (EH0 : Counted.PWCHAR_add host HB 1 = HB + 2).
  { destruct (load_WCHAR_ok host m Hspace HB w a eq_refl L0) as (_ & _ & _ & E).
    exact E. }
  assert (EH1 : Counted.PWCHAR_add host (HB + 2) 1 = HB + 4).
  { destruct (load_WCHAR_ok host m Hspace (HB + 2) w a eq_refl L1)
      as (_ & _ & _ & E). rewrite E. lia. }
  assert (ES0 : Counted.PWCHAR_add host (HB + 2) (-1) = HB).
  { unfold Counted.PWCHAR_add, element, ULONG_PTR.
    replace (HB + 2 + 2 * -1) with HB by lia. apply Z.mod_small. lia. }
  split; unfold bindR at 1; rewrite Eload.
  - (* case ignored: a partial match at 0, the match at 1 *)
    cbn [Counted.search_insensitive]. cbv zeta. fold NB. rewrite ENone.
    unfold bindR at 1.
    destruct (first_insensitive_reaches host ToUpper m Hspace (ToUpper a)
                (HB + 2) 0 (S (S fuel)) HB w0 Hm0 ltac:(lia)
                ltac:(intros j Hj; lia)
                ltac:(exists a; rewrite Z.add_0_r; auto) ltac:(lia))
      as (w1 & E1 & Hm1).
    rewrite Z.add_0_r in E1. rewrite E1. cbv beta iota. rewrite EH0.
    unfold bindR at 1.
    destruct (rest_insensitive_mismatch host ToUpper m Hspace (NB + 4)
                (HB + 6) HB (S fuel) (HB + 2) (NB + 2) w1 a b Hm1 L1 N1 Hab)
      as (w2 & -> & Hm2).
    cbv beta iota. unfold bindR at 1.
    destruct (first_insensitive_reaches host ToUpper m Hspace (ToUpper a)
                (HB + 2) 0 (S fuel) (HB + 2) w2 Hm2 ltac:(lia)
                ltac:(intros j Hj; lia)
                ltac:(exists a; rewrite Z.add_0_r; auto) ltac:(lia))
      as (w3 & E3 & Hm3).
    rewrite Z.add_0_r in E3. rewrite E3. cbv beta iota. rewrite EH1.
    unfold bindR at 1.
    destruct (rest_insensitive_returns host ToUpper m Hspace (NB + 4)
                (HB + 6) (HB + 2) 0 (S fuel) (HB + 4) (NB + 2) w3 Hm3
                ltac:(lia)
                ltac:(apply (agree_one m ToUpper _ _ b b); auto)
                ltac:(lia) ltac:(lia))
      as (w4 & -> & Hm4).
    reflexivity.
  - (* case respected: the partial match at 0 uses up the character at 1 *)
    cbn [Counted.search_sensitive]. cbv zeta. fold NB. rewrite ENone.
    unfold bindR at 1.
    destruct (first_sensitive_reaches host m Hspace a (HB + 2) 0
                (S (S fuel)) HB w0 Hm0 ltac:(lia) ltac:(intros j Hj; lia)
                ltac:(rewrite Z.add_0_r; exact L0) ltac:(lia))
      as (w1 & E1 & Hm1).
    rewrite Z.add_0_r in E1. rewrite E1. cbv beta iota. rewrite ES0.
    unfold bindR at 1.
    destruct (rest_sensitive_mismatch host m Hspace (NB + 4) (HB + 6) HB
                (S fuel) (HB + 2) (NB + 2) w1 a b Hm1 L1 N1 Hne)
      as (w2 & -> & Hm2).
    cbv beta iota. unfold bindR at 1.
    replace (HB + 2 + 2) with (HB + 4) by lia.
    destruct (first_sensitive_gives_up host m Hspace a (HB + 2) fuel
                (HB + 4) w2 b Hm2 L2 ltac:(congruence) ltac:(lia))
      as (w3 & -> & Hm3).
    reflexivity.
Qed.

Lemma overlap_space :
  Counted.in_address_space Ref.wow64 (memory RefText.overlap).
Proof.
  unfold Counted.in_address_space.
  apply (bool_decide_unpack _). vm_compute. exact I.
Qed.

Lemma overlap_characters :
  Counted.characters Ref.wow64 (memory RefText.overlap) RefText.Aab
  = Some [97; 97; 98] /\
  Counted.characters Ref.wow64 (memory RefText.overlap) RefText.Ab
  = Some [97; 98].
Proof. split; vm_compute; reflexivity. Qed.

(** X19 on a memory that holds "aab" and "ab". *)
Lemma KexRtlFindUnicodeSubstring_variants_differ_witness :
  fst (Counted.KexRtlFindUnicodeSubstring Ref.wow64 Ref.upcase 2 RefText.Aab
         RefText.Ab true RefText.overlap) = Ok 0x31002 /\
  fst (Counted.KexRtlFindUnicodeSubstring Ref.wow64 Ref.upcase 2 RefText.Aab
         RefText.Ab false RefText.overlap) = Ok NULL.
Proof.
  apply (KexRtlFindUnicodeSubstring_variants_differ Ref.wow64 Ref.upcase 2
           RefText.Aab RefText.Ab RefText.overlap 97 98 overlap_space
           ltac:(vm_compute; split; [discriminate | reflexivity])
           ltac:(vm_compute; split; [discriminate | reflexivity])
           (proj1 overlap_characters) (proj2 overlap_characters)
           ltac:(vm_compute; discriminate) ltac:(lia)).
Defined.

(** X20.  The behaviour of KexRtlQueryKeyValueData is undefined only
    after a successful allocation and the query into the allocated
    buffer, and only for one of four reasons: the query failed with
    STATUS_OBJECT_TYPE_MISMATCH while the caller asked for the type, so
    that the type is read through a pointer that was never set; the
    query succeeded without storing a value; the type of the stored
    value is not below 32, the width of the shifted constant; or the
    data are longer than the caller's buffer. *)
Theorem KexRtlQueryKeyValueData_undefined_only :
  forall (St : Type) (api : Registry.Services St)
         (LEGAL_REG_RESTRICT_MASK sizeof_KEY_VALUE_PARTIAL_INFORMATION : Z)
         (KeyHandle : HANDLE) (ValueName : option UNICODE_STRING)
         (a : Registry.Pointees) (ValueDataTypeRestrict : Z)
         (w : Registry.Machine St),
    fst (Registry.KexRtlQueryKeyValueData api LEGAL_REG_RESTRICT_MASK
           sizeof_KEY_VALUE_PARTIAL_INFORMATION KeyHandle ValueName a
           ValueDataTypeRestrict w) = Registry.Undefined ->
    exists name Cb Pointer s1 Status Stored ResultLength s2,
      ValueName = Some name /\ Registry.ValueDataCb a = Some Cb /\
      Registry.SafeAlloc api
        (Registry.ULONG (Cb + sizeof_KEY_VALUE_PARTIAL_INFORMATION))
        (Registry.state w) = (Pointer, s1) /\
      Pointer <> NULL /\
      Registry.NtQueryValueKey api KeyHandle name Pointer
        (Registry.ULONG (Cb + sizeof_KEY_VALUE_PARTIAL_INFORMATION)) s1
      = ((Status, Stored, ResultLength), s2) /\
      ((Status = Registry.STATUS_OBJECT_TYPE_MISMATCH /\
        Registry.ValueDataType a <> None) \/
       (NT_SUCCESS Status = true /\ Stored = None) \/
       (exists Information,
          NT_SUCCESS Status = true /\ Stored = Some Information /\
          ~ 0 <= Registry.Type_ Information < 32) \/
       (exists Information Destination,
          NT_SUCCESS Status = true /\ Stored = Some Information /\
          Registry.ValueData a = Some Destination /\
          (length Destination < length (Registry.Data Information))%nat)).
Proof.
  intros St api MASK sz KeyHandle ValueName a Restrict w.
  unfold Registry.KexRtlQueryKeyValueData.
  unfold Registry.sys_NtQueryValueKey, Registry.sys_SafeAlloc, Registry.Exit,
    Registry.RtlCopyMemory.
  repeat case_match; intros Hrun; simplify_eq/=;
    repeat match goal with
           | H : negb _ = true |- _ => apply negb_true_iff in H
           | H : negb _ = false |- _ => apply negb_false_iff in H
           | H : _ || _ = true |- _ => apply orb_true_iff in H
           | H : _ || _ = false |- _ => apply orb_false_iff in H; destruct H
           | H : _ && _ = false |- _ => apply andb_false_iff in H
           | H : _ && _ = true |- _ => apply andb_true_iff in H; destruct H
           | H : bool_decide _ = true |- _ => apply bool_decide_eq_true in H
           | H : bool_decide _ = false |- _ => apply bool_decide_eq_false in H
           end;
    try congruence;
    eexists _, _, _, _, _, _, _, _;
    (split; [reflexivity |]);
    (split; [first [reflexivity | eassumption] |]);
    (split; [eassumption |]);
    (split; [apply Z.eqb_neq; assumption |]);
    (split; [eassumption |]).
  all: try (left; split;
            [match goal with
             | H : _ \/ (_ =? _) = true |- _ =>
                 destruct H as [H | H];
                 [congruence | apply Z.eqb_eq in H; exact H]
             end
            | congruence]).
  all: try (right; left; split; congruence).
  all: try (right; right; left; eexists; split; [assumption |];
            split; [reflexivity |];
            match goal with
            | H : (0 <=? _) = false \/ _ |- _ =>
                destruct H as [H | H];
                [apply Z.leb_gt in H | apply Z.ltb_ge in H]; lia
            end).
  all: try (right; right; right; eexists _, _; split; [assumption |];
            split; [reflexivity |];
            split; [first [reflexivity | eassumption] |];
            match goal with
            | H : (_ <=? _)%nat = false |- _ => apply Nat.leb_gt in H; exact H
            end).
Qed.

Lemma sample_overflow :
  fst (Registry.KexRtlQueryKeyValueData RefRegistry.api
         RefRegistry.LEGAL_REG_RESTRICT_MASK
         RefRegistry.sizeof_KEY_VALUE_PARTIAL_INFORMATION 0x44
         (Some (wide "Path"))
         (Registry.mkPointees (Some 4) (Some [1; 2; 3; 4]) (Some 99)) 0x2
         (RefRegistry.boot RefRegistry.sample))
  = Registry.Undefined.
Proof. vm_compute. reflexivity. Qed.

(** X20 on the reference key: the six bytes of "Path" are queried with
    a buffer of four bytes; the query succeeds and stores a value. *)
Lemma KexRtlQueryKeyValueData_undefined_only_witness :
  exists name Cb Pointer s1 Status Stored ResultLength s2,
    Some (wide "Path") = Some name /\ Some 4 = Some Cb /\
    RefRegistry.safe_alloc
      (Registry.ULONG (Cb + RefRegistry.sizeof_KEY_VALUE_PARTIAL_INFORMATION))
      RefRegistry.sample = (Pointer, s1) /\
    Pointer <> NULL /\
    RefRegistry.query_value_key 0x44 name Pointer
      (Registry.ULONG (Cb + RefRegistry.sizeof_KEY_VALUE_PARTIAL_INFORMATION))
      s1 = ((Status, Stored, ResultLength), s2) /\
    ((Status = Registry.STATUS_OBJECT_TYPE_MISMATCH /\ Some 99 <> None) \/
     (NT_SUCCESS Status = true /\ Stored = None) \/
     (exists Information,
        NT_SUCCESS Status = true /\ Stored = Some Information /\
        ~ 0 <= Registry.Type_ Information < 32) \/
     (exists Information Destination,
        NT_SUCCESS Status = true /\ Stored = Some Information /\
        Some [1; 2; 3; 4] = Some Destination /\
        (length Destination < length (Registry.Data Information))%nat)).
Proof.
  exact (KexRtlQueryKeyValueData_undefined_only RefRegistry.Key
           RefRegistry.api RefRegistry.LEGAL_REG_RESTRICT_MASK
           RefRegistry.sizeof_KEY_VALUE_PARTIAL_INFORMATION 0x44
           (Some (wide "Path"))
           (Registry.mkPointees (Some 4) (Some [1; 2; 3; 4]) (Some 99)) 0x2
           (RefRegistry.boot RefRegistry.sample) sample_overflow).
Defined.

(** ** KexRtlUnicodeStringEndsWith on structures *)

(** X21.  On structures in memory, with its pointer arithmetic,
    KexRtlUnicodeStringEndsWith computes what it computes on the
    characters of the two strings, provided the buffer of [String] does
    not lie below the byte count of [EndsWith]; this holds for every
    buffer in user space, which starts at 0x10000, as the byte count is
    a USHORT.  Then the pointer to the end of the string cannot wrap
    around, and the comparison with the start of the buffer detects a
    longer [EndsWith]. *)
Theorem KexRtlUnicodeStringEndsWith_on_structures :
  forall (host : Host) (up : WCHAR -> WCHAR) (m : gmap Z Z)
         (String EndsWith : Counted.UNICODE_STRING) (CaseInsensitive : bool)
         (s e : list WCHAR),
    Counted.in_address_space host m ->
    0 <= Counted.Buffer String < 2 ^ KexRtlCurrentProcessBitness host ->
    0 <= Counted.Length String -> 0 <= Counted.Length EndsWith ->
    Counted.Length EndsWith <= Counted.Buffer String ->
    Counted.characters host m String = Some s ->
    Counted.characters host m EndsWith = Some e ->
    Counted.KexRtlUnicodeStringEndsWith host up m String EndsWith
      CaseInsensitive
    = Some (KexRtlUnicodeStringEndsWith up s e CaseInsensitive).
Proof.
  intros host up m String EndsWith CaseInsensitive s e
         Hspace HB HLS HLE Hlow Hs He.
  destruct (characters_lookup host m String s Hspace HB Hs) as [Hls Hs_at].
  assert (Hle : length e = Z.to_nat (Counted.Length EndsWith / 2)).
  { unfold Counted.characters in He. apply mapM_Some in He.
    apply Forall2_length in He. rewrite length_seqZ in He. lia. }
  unfold Counted.KexRtlUnicodeStringEndsWith, Counted.KexRtlUnicodeStringCch.
  cbv zeta. cbn [Counted.Buffer].
  set (c1 := Counted.Length String / 2) in *.
  set (c2 := Counted.Length EndsWith / 2) in *.
  assert (Hc1 : 0 <= c1) by (apply Z.div_pos; lia).
  assert (Hc2 : 0 <= c2) by (apply Z.div_pos; lia).
  assert (Hc2' : 2 * c2 <= Counted.Length EndsWith)
    by (apply Z.mul_div_le; lia).
  rewrite PWCHAR_add_add.
  unfold KexRtlUnicodeStringEndsWith, KexRtlUnicodeStringCch.
  rewrite Hls, Hle, !Z2Nat.id by lia.
  destruct (Z.ltb_spec (c1 - c2) 0) as [Hlt | Hge].
  - (* [EndsWith] is longer: the end pointer lies below the buffer *)
    assert (E : Counted.PWCHAR_add host (Counted.Buffer String) (c1 + - c2)
                = Counted.Buffer String + 2 * (c1 - c2)).
    { unfold Counted.PWCHAR_add, element, ULONG_PTR.
      rewrite Z.mod_small by lia. lia. }
    rewrite E.
    replace (Counted.Buffer String + 2 * (c1 - c2) <? Counted.Buffer String)
      with true by (symmetry; apply Z.ltb_lt; lia).
    reflexivity.
  - assert (Hend : Counted.Buffer String + 2 * c1
                   < 2 ^ KexRtlCurrentProcessBitness host).
    { destruct (decide (c1 = 0)) as [-> | Hne]; [lia |].
      destruct (lookup_lt_is_Some_2 s (Z.to_nat (c1 - 1)) ltac:(lia))
        as [c Hc].
      destruct (Hs_at _ _ Hc) as [_ H]. lia. }
    assert (E : Counted.PWCHAR_add host (Counted.Buffer String) (c1 + - c2)
                = Counted.Buffer String + 2 * (c1 - c2)).
    { unfold Counted.PWCHAR_add, element, ULONG_PTR.
      rewrite Z.mod_small by lia. lia. }
    replace (Counted.PWCHAR_add host (Counted.Buffer String) (c1 + - c2)
             <? Counted.Buffer String) with false
      by (symmetry; rewrite E; apply Z.ltb_ge; lia).
    unfold Counted.RtlEqualUnicodeString. cbn [Counted.Length].
    rewrite Z.eqb_refl. simpl negb. cbv iota.
    rewrite (characters_shift host m String _ (c1 - c2) s);
      [| fold c1; lia | cbn [Counted.Buffer]; f_equal; lia
       | cbn [Counted.Length]; fold c1 c2; lia | exact Hs].
    rewrite He. f_equal. f_equal.
    symmetry. apply firstn_all2. rewrite length_skipn. lia.
Qed.

Lemma sample_extension_characters :
  Counted.characters Ref.wow64 RefText.sample_memory
    (Counted.mkString 8 8 0x30200) = Some (wide "pad.").
Proof. vm_compute. reflexivity. Qed.

(** X21 on the sample memory: the path does not end with "pad.". *)
Lemma KexRtlUnicodeStringEndsWith_on_structures_witness :
  Counted.KexRtlUnicodeStringEndsWith Ref.wow64 Ref.upcase
    RefText.sample_memory RefText.Path (Counted.mkString 8 8 0x30200) true
  = Some false.
Proof.
  apply (KexRtlUnicodeStringEndsWith_on_structures Ref.wow64 Ref.upcase
           RefText.sample_memory RefText.Path (Counted.mkString 8 8 0x30200)
           true (wide "C:\Windows\notepad.exe") (wide "pad.")
           sample_text_space
           ltac:(vm_compute; split; [discriminate | reflexivity])
           ltac:(simpl; lia) ltac:(simpl; lia) ltac:(simpl; lia)
           sample_path_characters sample_extension_characters).
Defined.
